(** * pytest-assert-type: the runtime type matcher of [validator.py]

    A shallow embedding of [src/pytest_assert_type/validator.py]: the
    printer [_pretty_type], the inferencer [_infer_type_spec_from_value]
    with [_unionize], the matcher [_matches] with
    [_matches_dataclass_fields], type-variable binding and substitution,
    and [validate].

    Python objects are modelled by three inductive types: [pyval] for the
    runtime values handed to [validate], [cls] for class objects and
    [tspec] for the typing objects used as expected types.  Classes are
    compared by identity, which a user class gets from its key in a class
    table; the table carries what the code reads by reflection
    ([__name__], [__mro__], [__parameters__], [dataclasses.fields],
    [typing.get_type_hints], [__annotations__], [__required_keys__]).
    Exceptions are explicit: every function that can raise returns an
    [outcome].  The typing objects follow CPython 3.11 to 3.13, where
    [typing.Any] is a class and [A | B] on classes is a
    [types.UnionType] without [__origin__].

    Outside the model: class objects and functions handed in as values,
    floats that are not finite, enum members in [Literal], [Annotated],
    [ParamSpec], protocols that are [runtime_checkable], and classes
    that redefine [__eq__], [__iter__], [__len__], [__contains__],
    [__getitem__], [__instancecheck__] or [__class_getitem__]. *)

From Stdlib Require Import List String Ascii ZArith Bool Lia DecimalString.
Import ListNotations.
Local Open Scope string_scope.
Local Open Scope Z_scope.
Set Warnings "-register-all".

(** ** Exceptions and outcomes *)

(** [ValidationError]: [title], [actual] and the message handed to
    [Exception.__init__]. *)
Record validation_error := mkValidationError {
  title : string;
  actual : string;
  message : string
}.

Inductive exn :=
| EValidation (e : validation_error)
| AttributeError
| TypeError
| NameError
| KeyError
| IndexError.

Inductive outcome (A : Type) :=
| Return (a : A)
| Raise (e : exn).
Arguments Return {A} a.
Arguments Raise {A} e.

Definition bind {A B} (m : outcome A) (k : A -> outcome B) : outcome B :=
  match m with
  | Return a => k a
  | Raise e => Raise e
  end.

Notation "x <- m ;; k" := (bind m (fun x => k))
  (at level 61, m at next level, right associativity).

(** [all(f(x) for x in l)] and [any(f(x) for x in l)] over a generator
    whose items may raise: evaluation stops at the first [False]
    (respectively [True]) or at the first exception. *)
Definition all_m {A} (f : A -> outcome bool) : list A -> outcome bool :=
  fix go l :=
    match l with
    | [] => Return true
    | x :: r =>
        match f x with
        | Return true => go r
        | Return false => Return false
        | Raise e => Raise e
        end
    end.

Definition any_m {A} (f : A -> outcome bool) : list A -> outcome bool :=
  fix go l :=
    match l with
    | [] => Return false
    | x :: r =>
        match f x with
        | Return true => Return true
        | Return false => go r
        | Raise e => Raise e
        end
    end.

(** A list comprehension [[f(x) for x in l]]. *)
Definition map_m {A B} (f : A -> outcome B) : list A -> outcome (list B) :=
  fix go l :=
    match l with
    | [] => Return []
    | x :: r =>
        match f x with
        | Return y =>
            match go r with
            | Return ys => Return (y :: ys)
            | Raise e => Raise e
            end
        | Raise e => Raise e
        end
    end.

(** ** Classes *)

(** Class objects.  The builtin classes the code names or meets through
    [type(value)], [collections.abc.Callable], and user classes,
    identified by a key. *)
Inductive cls :=
| CObject | CNoneType | CBool | CInt | CFloat | CStr | CBytes
| CList | CSet | CFrozenset | CDict | CTuple
| CCallable
| CUser (key : string).

Definition cls_eqb (a b : cls) : bool :=
  match a, b with
  | CObject, CObject | CNoneType, CNoneType | CBool, CBool | CInt, CInt
  | CFloat, CFloat | CStr, CStr | CBytes, CBytes | CList, CList
  | CSet, CSet | CFrozenset, CFrozenset | CDict, CDict
  | CTuple, CTuple | CCallable, CCallable => true
  | CUser k, CUser k' => String.eqb k k'
  | _, _ => false
  end.

(** ** Runtime values *)

(** The arguments of [typing.Literal]: the constants PEP 586 allows. *)
Inductive literal :=
| LitNone
| LitBool (b : bool)
| LitInt (z : Z)
| LitStr (s : string)
| LitBytes (s : string).

(** Runtime values: [None], the scalars, the builtin containers in
    iteration order, and instances of user classes with their instance
    attributes.  A finite float is [m * 2^e].  [VSub c base attrs] is an
    instance of a user class that inherits from a builtin class other
    than [object] (an [IntEnum] member, a named tuple, an
    [OrderedDict]): [base] is the builtin value it is, a number, text,
    bytes or a container; with any other [base] it is read as
    [VObj c attrs]. *)
Inductive pyval :=
| VNone
| VBool (b : bool)
| VInt (z : Z)
| VFloat (m e : Z)
| VStr (s : string)
| VBytes (s : string)
| VList (items : list pyval)
| VSet (items : list pyval)
| VFrozenset (items : list pyval)
| VDict (entries : list (pyval * pyval))
| VTuple (items : list pyval)
| VObj (c : string) (attrs : list (string * pyval))
| VSub (c : string) (base : pyval) (attrs : list (string * pyval)).

(** ** Type specs *)

(** The typing objects handed to the code as expected types.
    - [TAny]: [typing.Any];
    - [TClass c]: a class object;
    - [TNewType name supertype]: a [typing.NewType];
    - [TGeneric native origin args]: a parametrized class, a
      [types.GenericAlias] such as [list[int]] when [native], a
      [typing._GenericAlias] such as [Box[int]] or [typing.List[int]]
      otherwise;
    - [TUnion native args]: a union, a [types.UnionType] as [A | B]
      gives on classes when [native], a [typing.Union] otherwise;
    - [TLiteral args]: [typing.Literal];
    - [TTypeVar name]: a [TypeVar];
    - [TEllipsis]: [...] as a type argument;
    - [TOther]: any other object: no [__origin__], no [__args__], not a
      class, and no operand of [|]. *)
Inductive tspec :=
| TAny
| TClass (c : cls)
| TNewType (name : string) (supertype : tspec)
| TGeneric (native : bool) (origin : cls) (args : list tspec)
| TUnion (native : bool) (args : list tspec)
| TLiteral (args : list literal)
| TTypeVar (name : string)
| TEllipsis
| TOther.

(** What the code reads from a user class by reflection.  A
    [ProtocolClass] is a [Protocol] that is not [runtime_checkable]. *)
Inductive class_kind := PlainClass | Dataclass | TypedDictClass | ProtocolClass.

Record class_def := mkClass {
  cd_name : string;                       (* __name__ *)
  cd_kind : class_kind;
  cd_ancestors : list cls;                (* __mro__[1:] *)
  cd_parameters : list string;            (* __parameters__, TypeVars by name *)
  cd_fields : list string;                (* dataclasses.fields(cls), names *)
  cd_type_hints : outcome (list (string * tspec));
                                          (* typing.get_type_hints(cls) *)
  cd_annotations : list (string * tspec); (* __annotations__ *)
  cd_required_keys : list string          (* __required_keys__ *)
}.

Definition class_table := list (string * class_def).

(** ** Reflection on classes *)

(** A key that names no class of the table is read as a plain class
    without fields. *)
Definition undeclared (key : string) : class_def :=
  mkClass key PlainClass [CObject] [] [] (Return []) [] [].

Fixpoint lookup {A} (key : string) (l : list (string * A)) : option A :=
  match l with
  | [] => None
  | (k, a) :: r => if String.eqb k key then Some a else lookup key r
  end.

Definition contains (key : string) (l : list string) : bool :=
  existsb (String.eqb key) l.

Section Reflection.

Variable classes : class_table.

Definition class_of (key : string) : class_def :=
  match lookup key classes with
  | Some d => d
  | None => undeclared key
  end.

(** [cls.__name__] *)
Definition __name__ (c : cls) : string :=
  match c with
  | CObject => "object" | CNoneType => "NoneType" | CBool => "bool"
  | CInt => "int" | CFloat => "float" | CStr => "str" | CBytes => "bytes"
  | CList => "list" | CSet => "set" | CFrozenset => "frozenset"
  | CDict => "dict" | CTuple => "tuple" | CCallable => "Callable"
  | CUser k => cd_name (class_of k)
  end.

(** [cls.__mro__]: the class itself, then its ancestors.  [bool] is a
    subclass of [int]. *)
Definition __mro__ (c : cls) : list cls :=
  match c with
  | CObject => [CObject]
  | CBool => [CBool; CInt; CObject]
  | CUser k => c :: cd_ancestors (class_of k)
  | _ => [c; CObject]
  end.

(** [type(value)] *)
Definition type_of (v : pyval) : cls :=
  match v with
  | VNone => CNoneType
  | VBool _ => CBool
  | VInt _ => CInt
  | VFloat _ _ => CFloat
  | VStr _ => CStr
  | VBytes _ => CBytes
  | VList _ => CList
  | VSet _ => CSet
  | VFrozenset _ => CFrozenset
  | VDict _ => CDict
  | VTuple _ => CTuple
  | VObj k _ | VSub k _ _ => CUser k
  end.

(** The builtin value a value is: itself, the base of an instance of a
    subclass of a builtin class, none for another instance. *)
Definition builtin_part (v : pyval) : option pyval :=
  match v with
  | VObj _ _ => None
  | VSub _ base _ =>
      match base with
      | VInt _ | VFloat _ _ | VStr _ | VBytes _ | VList _ | VSet _
      | VFrozenset _ | VDict _ | VTuple _ => Some base
      | _ => None
      end
  | _ => Some v
  end.

(** [isinstance(value, c)] for a class [c] that supports the check:
    everything is an [object]; a value is an instance of a builtin
    class when the builtin value it is has that class, and of a user
    class (or of [Callable]) when its class has it among its
    ancestors. *)
Definition isinstance (v : pyval) (c : cls) : bool :=
  match c with
  | CObject => true
  | CUser _ | CCallable => existsb (cls_eqb c) (__mro__ (type_of v))
  | _ =>
      match builtin_part v with
      | Some b => existsb (cls_eqb c) (__mro__ (type_of b))
      | None => false
      end
  end.

(** [isinstance(value, c)] as the code calls it: a [TypedDict] class
    and a [Protocol] that is not [runtime_checkable] refuse the
    check. *)
Definition instance_check (v : pyval) (c : cls) : outcome bool :=
  match c with
  | CUser k =>
      match cd_kind (class_of k) with
      | TypedDictClass | ProtocolClass => Raise TypeError
      | _ => Return (isinstance v c)
      end
  | _ => Return (isinstance v c)
  end.

(** [dataclasses.is_dataclass(c)] for a class [c] *)
Definition is_dataclass (c : cls) : bool :=
  match c with
  | CUser k => match cd_kind (class_of k) with Dataclass => true | _ => false end
  | _ => false
  end.

(** [_is_typed_dict_class(c)] for a class [c] *)
Definition _is_typed_dict_class (c : cls) : bool :=
  match c with
  | CUser k =>
      match cd_kind (class_of k) with TypedDictClass => true | _ => false end
  | _ => false
  end.

Definition __parameters__ (c : cls) : list string :=
  match c with CUser k => cd_parameters (class_of k) | _ => [] end.

Definition fields (c : cls) : list string :=
  match c with CUser k => cd_fields (class_of k) | _ => [] end.

(** [typing.get_type_hints(c, include_extras=True)]: it raises, a
    [NameError] as a rule, when an annotation of the class cannot be
    evaluated. *)
Definition get_type_hints (c : cls) : outcome (list (string * tspec)) :=
  match c with CUser k => cd_type_hints (class_of k) | _ => Return [] end.

Definition __annotations__ (c : cls) : list (string * tspec) :=
  match c with CUser k => cd_annotations (class_of k) | _ => [] end.

Definition __required_keys__ (c : cls) : list string :=
  match c with CUser k => cd_required_keys (class_of k) | _ => [] end.

End Reflection.

(** ** Pretty printing *)

Definition is_ellipsis (t : tspec) : bool :=
  match t with TEllipsis => true | _ => false end.

(** [origin in (list, tuple, dict, set, frozenset)] *)
Definition is_builtin_container (c : cls) : bool :=
  match c with
  | CList | CTuple | CDict | CSet | CFrozenset => true
  | _ => false
  end.

(** [origin in (list, set, frozenset)] *)
Definition is_list_set_frozenset (c : cls) : bool :=
  match c with
  | CList | CSet | CFrozenset => true
  | _ => false
  end.

(** [','.join(texts)] *)
Definition join (sep : string) (texts : list string) : string :=
  String.concat sep texts.

Section Printer.

Variable classes : class_table.
(** The builtin [repr], on literal constants and on typing objects. *)
Variable repr_literal : literal -> string.
Variable repr_type : tspec -> string.

(** The block "Builtin containers" of [_pretty_type], which occurs twice:
    [texts] are the printed [args]; [None] when no [return] is reached. *)
Definition pretty_builtin_container
    (origin : cls) (args : list tspec) (texts : list string) : option string :=
  if is_builtin_container origin then
    match origin, args, texts with
    | CTuple, [_; a1], [t0; _] =>
        if is_ellipsis a1 then Some ("tuple[" ++ t0 ++ ",...]")
        else Some ("tuple[" ++ join "," texts ++ "]")
    | CTuple, _, _ => Some ("tuple[" ++ join "," texts ++ "]")
    | CDict, [_; _], [t0; t1] => Some ("dict[" ++ t0 ++ "," ++ t1 ++ "]")
    | _, [_], [t0] =>
        if is_list_set_frozenset origin
        then Some (__name__ classes origin ++ "[" ++ t0 ++ "]")
        else None
    | _, _, _ => None
    end
  else None.

Fixpoint _pretty_type (type_spec : tspec) : string :=
  match type_spec with
  | TNewType name _ =>
      (* [__supertype__] and [__name__] *)
      name
  | TGeneric true origin args =>
      (* [isinstance(type_spec, types.GenericAlias)] *)
      let texts := map _pretty_type args in
      match pretty_builtin_container origin args texts with
      | Some text => text
      | None => __name__ classes origin ++ "[" ++ join "," texts ++ "]"
      end
  | TClass c =>
      (* [isinstance(type_spec, type)] *)
      __name__ classes c
  | TAny =>
      (* the class [typing.Any] *)
      "Any"
  | TUnion false args =>
      (* [origin is types.UnionType or origin is typing.Union] *)
      join " | " (map _pretty_type args)
  | TUnion true _ =>
      (* a [types.UnionType] has [__args__] and no [__origin__]:
         [_origin_and_args] answers [(None, args)], no test on the
         origin holds *)
      repr_type type_spec
  | TLiteral args =>
      "Literal[" ++ join "," (map repr_literal args) ++ "]"
  | TGeneric false origin args =>
      let texts := map _pretty_type args in
      match pretty_builtin_container origin args texts with
      | Some text => text
      | None =>
          (* [origin is not None and hasattr(origin, "__name__") and args] *)
          match args with
          | [] => repr_type type_spec
          | _ :: _ => __name__ classes origin ++ "[" ++ join "," texts ++ "]"
          end
      end
  | TTypeVar _ | TEllipsis | TOther => repr_type type_spec
  end.

End Printer.

(** ** Equality of values and of typing objects *)

(** The number a [bool], [int] or [float] stands for, as [m * 2^e]. *)
Definition number_of (v : pyval) : option (Z * Z) :=
  match v with
  | VBool b => Some (if b then 1 else 0, 0)
  | VInt z => Some (z, 0)
  | VFloat m e => Some (m, e)
  | _ => None
  end.

Definition number_eqb (a b : Z * Z) : bool :=
  let k := Z.min (snd a) (snd b) in
  fst a * 2 ^ (snd a - k) =? fst b * 2 ^ (snd b - k).

(** [value == literal_value] on builtin values: numbers compare by
    numeric value across [bool], [int] and [float]; text, bytes and
    [None] only equal their own kind; containers equal no constant. *)
Definition builtin_eq (v : pyval) (l : literal) : bool :=
  match l with
  | LitNone => match v with VNone => true | _ => false end
  | LitBool b =>
      match number_of v with
      | Some n => number_eqb n (if b then 1 else 0, 0)
      | None => false
      end
  | LitInt z =>
      match number_of v with
      | Some n => number_eqb n (z, 0)
      | None => false
      end
  | LitStr s => match v with VStr s' => String.eqb s' s | _ => false end
  | LitBytes s => match v with VBytes s' => String.eqb s' s | _ => false end
  end.

(** [value == literal_value]: an instance of a subclass of a builtin
    class compares as the builtin value it is; another instance (default
    or dataclass [__eq__]) equals no constant. *)
Definition py_eq (v : pyval) (l : literal) : bool :=
  match builtin_part v with
  | Some b => builtin_eq b l
  | None => false
  end.

(** Equality of [Literal] arguments is aware of the type: [Literal[1]]
    differs from [Literal[True]]. *)
Definition literal_eqb (a b : literal) : bool :=
  match a, b with
  | LitNone, LitNone => true
  | LitBool x, LitBool y => Bool.eqb x y
  | LitInt x, LitInt y => x =? y
  | LitStr x, LitStr y => String.eqb x y
  | LitBytes x, LitBytes y => String.eqb x y
  | _, _ => false
  end.

Definition list_eqb {A B} (same : A -> B -> bool) : list A -> list B -> bool :=
  fix go l l' :=
    match l, l' with
    | [], [] => true
    | x :: r, y :: r' => same x y && go r r'
    | _, _ => false
    end.

(** Two lists read as sets. *)
Definition set_eqb {A B} (same : A -> B -> bool) (l : list A) (l' : list B) : bool :=
  forallb (fun x => existsb (same x) l') l
  && forallb (fun y => existsb (fun x => same x y) l) l'.

(** [a == b] on typing objects: classes by identity, parametrized
    classes by origin and arguments, unions and literals ignoring the
    order of their arguments; a [types.UnionType] equals the
    [typing.Union] of the same arguments. *)
Fixpoint type_eqb (a b : tspec) {struct a} : bool :=
  match a, b with
  | TAny, TAny => true
  | TClass c, TClass c' => cls_eqb c c'
  | TNewType n s, TNewType n' s' => String.eqb n n' && type_eqb s s'
  | TGeneric nat o args, TGeneric nat' o' args' =>
      Bool.eqb nat nat' && cls_eqb o o' && list_eqb type_eqb args args'
  | TUnion _ args, TUnion _ args' => set_eqb type_eqb args args'
  | TLiteral args, TLiteral args' => set_eqb literal_eqb args args'
  | TTypeVar n, TTypeVar n' => String.eqb n n'
  | TEllipsis, TEllipsis => true
  | TOther, TOther => true
  | _, _ => false
  end.

(** ** The union operator [a | b] *)

Definition union_args (t : tspec) : list tspec :=
  match t with TUnion _ args => args | _ => [t] end.

Definition unionable (t : tspec) : bool :=
  match t with TEllipsis | TOther => false | _ => true end.

(** Keep the first of the elements that are the same. *)
Definition dedup {A} (same : A -> A -> bool) (l : list A) : list A :=
  fold_left (fun seen x =>
               if existsb (same x) seen then seen else (seen ++ [x])%list)
            l [].

Definition make_union (native : bool) (args : list tspec) : tspec :=
  match args with
  | [t] => t
  | _ => TUnion native args
  end.

(** The operands whose [|] is the one of [type]: classes ([None] and
    [typing.Any] among them), [types.GenericAlias] and
    [types.UnionType]; the [|] of every other operand is the one of
    [typing]. *)
Definition native_operand (t : tspec) : bool :=
  match t with
  | TAny | TClass _ | TGeneric true _ _ | TUnion true _ => true
  | _ => false
  end.

(** [a | b]: unions of unions are flattened, redundant arguments are
    removed, a union of one argument is that argument; the result is a
    [types.UnionType] when both operands have the [|] of [type], a
    [typing.Union] otherwise; [TypeError] when an operand supports no
    [|]. *)
Definition py_or (a b : tspec) : outcome tspec :=
  if unionable a && unionable b
  then Return (make_union (native_operand a && native_operand b)
                 (dedup type_eqb (union_args a ++ union_args b)%list))
  else Raise TypeError.

(** A loop [for x in l: acc = f(acc, x)]. *)
Definition fold_m {A B} (f : A -> B -> outcome A) : list B -> A -> outcome A :=
  fix go l acc :=
    match l with
    | [] => Return acc
    | x :: r =>
        match f acc x with
        | Return acc' => go r acc'
        | Raise e => Raise e
        end
    end.

(** ** Type variables *)

(** A [dict] with [str] keys, in insertion order. *)
Fixpoint dict_set {A} (key : string) (a : A) (d : list (string * A))
  : list (string * A) :=
  match d with
  | [] => [(key, a)]
  | (k, x) :: r =>
      if String.eqb k key then (k, a) :: r else (k, x) :: dict_set key a r
  end.

Definition dict_setdefault {A} (key : string) (a : A) (d : list (string * A))
  : list (string * A) :=
  match lookup key d with
  | Some _ => d
  | None => (d ++ [(key, a)])%list
  end.

Definition dict_values {A} (d : list (string * A)) : list A := map snd d.

(** [key in d] *)
Definition has_entry {A} (key : string) (d : list (string * A)) : bool :=
  match lookup key d with Some _ => true | None => false end.

(** [zip(a, b, strict=False)] *)
Definition zip {A B} (a : list A) (b : list B) : list (A * B) := combine a b.

Section TypeVariables.

Variable classes : class_table.

Definition _bind_type_variables_for_generic
    (generic_class : cls) (parameters : list tspec) : list (string * tspec) :=
  let declared := __parameters__ classes generic_class in
  match declared with
  | [] => []
  | _ :: _ =>
      fold_left (fun d p => dict_set (fst p) (snd p) d) (zip declared parameters) []
  end.

(** [origin is collections.abc.Callable] *)
Definition is_callable (c : cls) : bool :=
  match c with CCallable => true | _ => false end.

(** [origin[substituted_args]]: subscripting a builtin container or
    [collections.abc.Callable] yields a [types.GenericAlias]; another
    class answers with the kind of alias it was written with. *)
Definition subscript (native : bool) (origin : cls) (args : list tspec) : tspec :=
  TGeneric (native || is_builtin_container origin || is_callable origin)
           origin args.

(** [typing.get_args] hands out the arguments of a [Callable] as
    [(parameters, result)] with the parameters in a plain list, unless
    they are [...]: [TGeneric] holds [__args__], which is flat. *)
Definition nests_parameters (origin : cls) (args : list tspec) : bool :=
  is_callable origin
  && match args with
     | [TEllipsis; _] => false
     | _ => true
     end.

(** The arguments of a [Callable] that has a list of parameters, as
    the comprehension over [get_args] leaves them: the list of
    parameters has no [get_args] of its own and comes back as it is,
    the result is substituted. *)
Definition substitute_result (substitute : tspec -> outcome tspec)
  : list tspec -> outcome (list tspec) :=
  fix result_only l :=
    match l with
    | [] => Return []
    | [result] =>
        match substitute result with
        | Return result' => Return [result']
        | Raise e => Raise e
        end
    | parameter :: rest =>
        match result_only rest with
        | Return rest' => Return (parameter :: rest')
        | Raise e => Raise e
        end
    end.

Fixpoint _substitute_type_variables
    (type_spec : tspec) (mapping : list (string * tspec)) : outcome tspec :=
  match type_spec with
  | TTypeVar name =>
      Return (match lookup name mapping with Some t => t | None => type_spec end)
  | TUnion _ (first :: rest) =>
      acc <- _substitute_type_variables first mapping ;;
      fold_m (fun acc a =>
                a' <- _substitute_type_variables a mapping ;; py_or acc a')
             rest acc
  | TLiteral ((_ :: _) as args) => Return (TLiteral args)
  | TGeneric native origin ((_ :: _) as args) =>
      substituted_args <-
        (if nests_parameters origin args
         then substitute_result
                (fun a => _substitute_type_variables a mapping) args
         else map_m (fun a => _substitute_type_variables a mapping) args) ;;
      Return (subscript native origin substituted_args)
  | _ => Return type_spec
  end.

End TypeVariables.

(** ** Access to attributes and to dictionary entries *)

(** [getattr(instance, name)], its result handed to [k]; [AttributeError]
    when the instance has no such attribute. *)
Definition getattr_then {R} (instance : pyval) (name : string)
    (k : pyval -> outcome R) : outcome R :=
  match instance with
  | VObj _ attrs | VSub _ _ attrs =>
      (fix find (l : list (string * pyval)) :=
         match l with
         | [] => Raise AttributeError
         | (n, v) :: r => if String.eqb n name then k v else find r
         end) attrs
  | _ => Raise AttributeError
  end.

(** A key of a [dict] equals the text [key]: it is that text, as a
    [str] or as an instance of a subclass of [str]. *)
Definition is_key (key : string) (k : pyval) : bool :=
  match builtin_part k with
  | Some (VStr s) => String.eqb s key
  | _ => false
  end.

(** [key in value] for a [dict] *)
Definition has_key (key : string) (entries : list (pyval * pyval)) : bool :=
  existsb (fun kv => is_key key (fst kv)) entries.

(** [value[key]] handed to [found] when [key in value], [missing]
    otherwise. *)
Definition dict_get_then {R} (entries : list (pyval * pyval)) (key : string)
    (found : pyval -> R) (missing : R) : R :=
  (fix find (l : list (pyval * pyval)) :=
     match l with
     | [] => missing
     | (k, v) :: r => if is_key key k then found v else find r
     end) entries.

(** [all(f(a, b) for a, b in zip(l, l', strict=False))] *)
Definition all2_m {A B} (f : A -> B -> outcome bool)
  : list A -> list B -> outcome bool :=
  fix go l l' :=
    match l, l' with
    | x :: r, y :: r' =>
        match f x y with
        | Return true => go r r'
        | Return false => Return false
        | Raise e => Raise e
        end
    | _, _ => Return true
    end.

Definition nonempty {A} (l : list A) : bool :=
  match l with [] => false | _ :: _ => true end.

(** ** Inference, matching and validation *)

Section Engine.

Variable classes : class_table.
Variable repr_literal : literal -> string.
Variable repr_type : tspec -> string.

Local Abbreviation pretty := (_pretty_type classes repr_literal repr_type).

Definition _unionize (types_list : list tspec) : outcome tspec :=
  match types_list with
  | [] => Return TAny
  | _ :: _ =>
      let unique_by_text :=
        fold_left (fun d t => dict_setdefault (pretty t) t d) types_list [] in
      let unique_types := dict_values unique_by_text in
      match unique_types with
      | [only] => Return only
      | first :: rest => fold_m py_or rest first
      | [] => Raise IndexError
      end
  end.

Fixpoint _infer_type_spec_from_value (value : pyval) : outcome tspec :=
  match value with
  | VBool _ => Return (TClass CBool)
  | VInt _ | VFloat _ _ | VStr _ | VBytes _
  | VSub _ (VInt _ | VFloat _ _ | VStr _ | VBytes _) _ =>
      Return (TClass (type_of value))
  | VList items | VSub _ (VList items) _ =>
      element_types <- map_m _infer_type_spec_from_value items ;;
      element <- _unionize element_types ;;
      Return (TGeneric true CList [element])
  | VSet items | VSub _ (VSet items) _ =>
      element_types <- map_m _infer_type_spec_from_value items ;;
      element <- _unionize element_types ;;
      Return (TGeneric true CSet [element])
  | VFrozenset items | VSub _ (VFrozenset items) _ =>
      element_types <- map_m _infer_type_spec_from_value items ;;
      element <- _unionize element_types ;;
      Return (TGeneric true CFrozenset [element])
  | VDict entries | VSub _ (VDict entries) _ =>
      match entries with
      | _ :: _ =>
          key_types <-
            map_m (fun kv : pyval * pyval =>
                     let (k, _) := kv in _infer_type_spec_from_value k)
                  entries ;;
          val_types <-
            map_m (fun kv : pyval * pyval =>
                     let (_, v) := kv in _infer_type_spec_from_value v)
                  entries ;;
          key <- _unionize key_types ;;
          val <- _unionize val_types ;;
          Return (TGeneric true CDict [key; val])
      | [] => Return (TGeneric true CDict [TAny; TAny])
      end
  | VTuple items | VSub _ (VTuple items) _ =>
      element_types <- map_m _infer_type_spec_from_value items ;;
      Return (TGeneric true CTuple element_types)
  | VObj key _ | VSub key _ _ =>
      let cls := CUser key in
      if is_dataclass classes cls then
        match __parameters__ classes cls with
        | (_ :: _) as parameters =>
            type_hints <- get_type_hints classes cls ;;
            inferred_mapping <-
              fold_m (fun inferred_mapping field =>
                        match lookup field type_hints with
                        | Some (TTypeVar annotated) =>
                            getattr_then value field (fun attr =>
                              t <- _infer_type_spec_from_value attr ;;
                              Return (dict_setdefault annotated t inferred_mapping))
                        | _ => Return inferred_mapping
                        end)
                     (fields classes cls) [] ;;
            if nonempty inferred_mapping
               && forallb (fun tv => has_entry tv inferred_mapping) parameters
            then
              args <- map_m (fun tv => match lookup tv inferred_mapping with
                                       | Some t => Return t
                                       | None => Raise KeyError
                                       end) parameters ;;
              Return (TGeneric false cls args)
            else Return (TClass cls)
        | [] => Return (TClass cls)
        end
      else Return (TClass cls)
  | VNone => Return (TClass (type_of value))
  end.

(** [_matches_dataclass_fields], over the matcher [recur] that it calls
    on every field. *)
Definition matches_dataclass_fields_with
    (recur : pyval -> tspec -> outcome bool)
    (instance : pyval) (dataclass_type : cls)
    (bound_type_vars : list (string * tspec)) : outcome bool :=
  type_hints <- get_type_hints classes dataclass_type ;;
  all_m (fun field =>
           match lookup field type_hints with
           | None => Return true
           | Some annotated_field_type =>
               concrete_field_type <-
                 (if nonempty bound_type_vars
                  then _substitute_type_variables annotated_field_type bound_type_vars
                  else Return annotated_field_type) ;;
               getattr_then instance field (fun attr =>
                 recur attr concrete_field_type)
           end)
        (fields classes dataclass_type).

(** The branch of [_matches] for a [TypedDict] class, over the matcher
    [recur] that it calls on every entry. *)
Definition matches_typed_dict_with
    (recur : pyval -> tspec -> outcome bool)
    (value : pyval) (expected_type : cls) : outcome bool :=
  match value with
  | VDict entries | VSub _ (VDict entries) _ =>
      let annotations := __annotations__ classes expected_type in
      let required_keys := __required_keys__ classes expected_type in
      if negb (forallb (fun key => has_key key entries) required_keys)
      then Return false
      else if existsb (fun kv => negb (existsb (fun a => is_key (fst a) (fst kv))
                                               annotations)) entries
      then Return false
      else
        all_m (fun a =>
                 let (key, field_type) := (a : string * tspec) in
                 dict_get_then entries key
                   (fun item => recur item field_type)
                   (Return (negb (contains key required_keys))))
              annotations
  | _ => Return false
  end.

(** The statement [match origin, args] of [_matches] and the code after
    it, over the matcher [recur] that they call on the items of the
    value. *)
Definition matches_parametrized_with
    (recur : pyval -> tspec -> outcome bool)
    (value : pyval) (origin : cls) (args : list tspec) : outcome bool :=
  let generic :=
    is_instance <- instance_check classes value origin ;;
    if negb is_instance then Return false
    else if is_dataclass classes origin then
      let bound := _bind_type_variables_for_generic classes origin args in
      matches_dataclass_fields_with recur value origin bound
    else Return true in
  match origin, args with
  | CList, [element_type] =>
      match value with
      | VList items | VSub _ (VList items) _ =>
          all_m (fun item => recur item element_type) items
      | _ => Return false
      end
  | CSet, [element_type] =>
      match value with
      | VSet items | VSub _ (VSet items) _ =>
          all_m (fun item => recur item element_type) items
      | _ => Return false
      end
  | CFrozenset, [element_type] =>
      match value with
      | VFrozenset items | VSub _ (VFrozenset items) _ =>
          all_m (fun item => recur item element_type) items
      | _ => Return false
      end
  | CDict, [key_type; value_type] =>
      match value with
      | VDict entries | VSub _ (VDict entries) _ =>
          all_m (fun kv =>
                   let (key, val) := (kv : pyval * pyval) in
                   match recur key key_type with
                   | Return true => recur val value_type
                   | other => other
                   end) entries
      | _ => Return false
      end
  | CTuple, [only_type; TEllipsis] =>
      match value with
      | VTuple items | VSub _ (VTuple items) _ =>
          all_m (fun item => recur item only_type) items
      | _ => Return false
      end
  | CTuple, _ :: _ =>
      match value with
      | VTuple items | VSub _ (VTuple items) _ =>
          if Nat.eqb (List.length items) (List.length args)
          then all2_m recur items args
          else Return false
      | _ => Return false
      end
  | _, _ => generic
  end.

(** [_matches], with the flag [unwrapped] set once the loop over
    [__supertype__] has replaced [expected_type]: the test
    [expected_type is Any] comes before that loop. *)
Fixpoint matches_from (value : pyval) : bool -> tspec -> outcome bool :=
  fix on_type (unwrapped : bool) (expected_type : tspec) {struct expected_type}
    : outcome bool :=
    match expected_type with
    | TAny =>
        (* [typing.Any] is a class that refuses [isinstance] *)
        if unwrapped then Raise TypeError else Return true
    | TNewType _ supertype =>
        (* [while hasattr(expected_type, "__supertype__")] *)
        on_type true supertype
    | TClass c =>
        (* [isinstance(expected_type, type) and get_origin(expected_type) is None] *)
        if is_dataclass classes c then
          if isinstance classes value c
          then matches_dataclass_fields_with
                 (fun v t => matches_from v false t) value c []
          else Return false
        else if _is_typed_dict_class classes c then
          matches_typed_dict_with (fun v t => matches_from v false t) value c
        else instance_check classes value c
    | TUnion _ args => any_m (on_type false) args
    | TLiteral args => Return (existsb (py_eq value) args)
    | TGeneric _ origin args =>
        matches_parametrized_with
          (fun v t => matches_from v false t) value origin args
    | TTypeVar _ | TEllipsis | TOther =>
        (* unknown shape: do not silently accept *)
        Return false
    end.

Definition _matches (value : pyval) (expected_type : tspec) : outcome bool :=
  matches_from value false expected_type.

Definition _matches_dataclass_fields
    (instance : pyval) (dataclass_type : cls)
    (bound_type_vars : list (string * tspec)) : outcome bool :=
  matches_dataclass_fields_with _matches instance dataclass_type bound_type_vars.

(** [ValidationError(expected_title, actual_title)] *)
Definition ValidationError (expected_title actual_title : string) : exn :=
  EValidation
    (mkValidationError expected_title actual_title
       ("Expected value of type `" ++ expected_title ++ "`, got `"
        ++ actual_title ++ "`")).

Definition validate (value : pyval) (expected_type : tspec) : outcome unit :=
  let expected_title := pretty expected_type in
  matched <- _matches value expected_type ;;
  if negb matched then
    actual_spec <- _infer_type_spec_from_value value ;;
    let actual_title := pretty actual_spec in
    Raise (ValidationError expected_title actual_title)
  else Return tt.

End Engine.

(** ** A sample program *)

(** The classes of [tests/example/library.py] and [tests/test_plugin.py],
    and a few more: [Box] is the generic dataclass [Box(Generic[T])] with
    the field [value: T]; [User] is a [TypedDict] with the required keys
    [id: int] and [name: str]; [Point] is a dataclass with [x: int];
    [Pair] is a generic dataclass with [first: T] and [second: T];
    [Lazy] is a generic dataclass with [cached: T = field(init=False)],
    an attribute that a new instance does not have;
    [ArbitraryType] is a plain class; [a.Config] and [b.Config] are two
    plain classes of two modules that are both named [Config];
    [Holder] is a generic dataclass with [items: list[T]]; [Fwd] is a
    dataclass whose annotation [x: "Missing"] names nothing, so that
    [typing.get_type_hints] raises [NameError]; [Row] is a generic
    [TypedDict] with [cell: T]; [Shape] is a [Protocol]; [Color] is an
    [IntEnum] and [Names] a subclass of [list]; [Order] is a dataclass
    with [lines: list[int]] and [buyer: Point | None].
    [resolved_classes] are those whose type hints resolve. *)
Definition resolved_classes : class_table :=
  [ ("Box", mkClass "Box" Dataclass [CObject] ["T"] ["value"]
              (Return [("value", TTypeVar "T")]) [("value", TTypeVar "T")] []);
    ("User", mkClass "User" TypedDictClass [CDict; CObject] [] []
               (Return [("id", TClass CInt); ("name", TClass CStr)])
               [("id", TClass CInt); ("name", TClass CStr)]
               ["id"; "name"]);
    ("Point", mkClass "Point" Dataclass [CObject] [] ["x"]
                (Return [("x", TClass CInt)]) [("x", TClass CInt)] []);
    ("Pair", mkClass "Pair" Dataclass [CObject] ["T"] ["first"; "second"]
               (Return [("first", TTypeVar "T"); ("second", TTypeVar "T")])
               [("first", TTypeVar "T"); ("second", TTypeVar "T")] []);
    ("Lazy", mkClass "Lazy" Dataclass [CObject] ["T"] ["cached"]
               (Return [("cached", TTypeVar "T")]) [("cached", TTypeVar "T")] []);
    ("ArbitraryType",
     mkClass "ArbitraryType" PlainClass [CObject] [] [] (Return []) [] []);
    ("a.Config", mkClass "Config" PlainClass [CObject] [] [] (Return []) [] []);
    ("b.Config", mkClass "Config" PlainClass [CObject] [] [] (Return []) [] []);
    ("Holder", mkClass "Holder" Dataclass [CObject] ["T"] ["items"]
                 (Return [("items", TGeneric true CList [TTypeVar "T"])])
                 [("items", TGeneric true CList [TTypeVar "T"])] []);
    ("Row", mkClass "Row" TypedDictClass [CDict; CObject] ["T"] []
              (Return [("cell", TTypeVar "T")]) [("cell", TTypeVar "T")]
              ["cell"]);
    ("Shape", mkClass "Shape" ProtocolClass [CObject] [] [] (Return []) [] []);
    ("Color", mkClass "Color" PlainClass [CInt; CObject] [] [] (Return []) [] []);
    ("Names", mkClass "Names" PlainClass [CList; CObject] [] [] (Return []) [] []);
    ("Order", mkClass "Order" Dataclass [CObject] [] ["lines"; "buyer"]
                (Return [("lines", TGeneric true CList [TClass CInt]);
                         ("buyer", TUnion true [TClass (CUser "Point");
                                                TClass CNoneType])])
                [("lines", TGeneric true CList [TClass CInt]);
                 ("buyer", TUnion true [TClass (CUser "Point");
                                        TClass CNoneType])] [])
  ].

Definition sample_classes : class_table :=
  (resolved_classes
   ++ [ ("Fwd", mkClass "Fwd" Dataclass [CObject] [] ["x"]
                  (Raise NameError) [("x", TOther)] []) ])%list.

(** The builtin [repr] on constants; text and bytes as they print when
    they hold no quote, backslash or control character. *)
Definition sample_repr_literal (l : literal) : string :=
  match l with
  | LitNone => "None"
  | LitBool true => "True"
  | LitBool false => "False"
  | LitInt z => DecimalString.NilZero.string_of_int (Z.to_int z)
  | LitStr s => "'" ++ s ++ "'"
  | LitBytes s => "b'" ++ s ++ "'"
  end.

(** How [repr] shows a member of a [types.UnionType]: a class by its
    qualified name, for which the samples have the key, [NoneType] as
    [None], a [types.GenericAlias] with its arguments. *)
Fixpoint sample_repr_member (t : tspec) : string :=
  match t with
  | TAny => "typing.Any"
  | TClass CNoneType => "None"
  | TClass (CUser key) => key
  | TClass c => __name__ sample_classes c
  | TGeneric true origin args =>
      __name__ sample_classes origin
      ++ "[" ++ join ", " (map sample_repr_member args) ++ "]"
  | TUnion true args => join " | " (map sample_repr_member args)
  | _ => "<object>"
  end.

(** The builtin [repr] on typing objects, as far as the samples need
    it. *)
Definition sample_repr_type (t : tspec) : string :=
  match t with
  | TTypeVar name => "~" ++ name
  | TEllipsis => "Ellipsis"
  | TGeneric _ origin _ => "typing." ++ __name__ sample_classes origin
  | TUnion true args => join " | " (map sample_repr_member args)
  | _ => "<object>"
  end.

Definition sample_pretty : tspec -> string :=
  _pretty_type sample_classes sample_repr_literal sample_repr_type.
Definition sample_infer : pyval -> outcome tspec :=
  _infer_type_spec_from_value sample_classes sample_repr_literal sample_repr_type.
Definition sample_matches : pyval -> tspec -> outcome bool :=
  _matches sample_classes.
Definition sample_validate : pyval -> tspec -> outcome unit :=
  validate sample_classes sample_repr_literal sample_repr_type.

(** ** Notions used in the statements *)

(** The attribute [getattr_then] finds, if any. *)
Definition getattr (instance : pyval) (name : string) : option pyval :=
  match instance with
  | VObj _ attrs | VSub _ _ attrs => lookup name attrs
  | _ => None
  end.

(** [isinstance(value, list)] and the like: the items of the list, set,
    frozenset or tuple, the entries of the dictionary that the value
    is, as itself or as an instance of a subclass. *)
Definition as_list (v : pyval) : option (list pyval) :=
  match builtin_part v with Some (VList items) => Some items | _ => None end.

Definition as_set (v : pyval) : option (list pyval) :=
  match builtin_part v with Some (VSet items) => Some items | _ => None end.

Definition as_frozenset (v : pyval) : option (list pyval) :=
  match builtin_part v with Some (VFrozenset items) => Some items | _ => None end.

Definition as_tuple (v : pyval) : option (list pyval) :=
  match builtin_part v with Some (VTuple items) => Some items | _ => None end.

Definition as_dict (v : pyval) : option (list (pyval * pyval)) :=
  match builtin_part v with Some (VDict entries) => Some entries | _ => None end.

(** Substitution in the words of the specification, "substitutes the
    bindings into every field's declared descriptor": every bound type
    variable is replaced by what it is bound to, in the arguments of
    parametrized classes at any depth. *)
Fixpoint instantiate (mapping : list (string * tspec)) (t : tspec) : tspec :=
  match t with
  | TTypeVar name =>
      match lookup name mapping with Some a => a | None => t end
  | TGeneric native origin ((_ :: _) as args) =>
      subscript native origin (map (instantiate mapping) args)
  | _ => t
  end.

(** No union with members and no [Callable] with a list of parameters,
    at any depth of the arguments. *)
Fixpoint union_free (t : tspec) : bool :=
  match t with
  | TUnion _ (_ :: _) => false
  | TGeneric _ origin args =>
      negb (nests_parameters origin args) && forallb union_free args
  | _ => true
  end.

(** The type [_matches_dataclass_fields] matches a field against:
    [concrete_field_type] in the source. *)
Definition concrete_field_type (annotated : tspec) (bound : list (string * tspec))
  : outcome tspec :=
  if nonempty bound then _substitute_type_variables annotated bound
  else Return annotated.

(** The deduplication of [_unionize] in the words of the specification,
    "deduplicate by canonical printed form preserving first-seen order":
    an item is kept unless the text of an earlier item is its own. *)
Fixpoint first_seen_from {A} (text : A -> string) (seen : list string)
    (l : list A) : list A :=
  match l with
  | [] => []
  | x :: r =>
      if contains (text x) seen then first_seen_from text seen r
      else x :: first_seen_from text ((seen ++ [text x])%list) r
  end.

Definition first_seen {A} (text : A -> string) (l : list A) : list A :=
  first_seen_from text [] l.

Definition is_union (t : tspec) : bool :=
  match t with TUnion _ _ => true | _ => false end.

(** No item of [l] equals ([==]) an earlier item of [l] or an item of
    [seen]. *)
Fixpoint all_new (seen l : list tspec) : bool :=
  match l with
  | [] => true
  | x :: r => negb (existsb (type_eqb x) seen) && all_new (seen ++ [x])%list r
  end.

(** Structural equality of typing objects: the same object written the
    same way. *)
Fixpoint tspec_beq (a b : tspec) {struct a} : bool :=
  match a, b with
  | TAny, TAny => true
  | TClass c, TClass c' => cls_eqb c c'
  | TNewType n s, TNewType n' s' => String.eqb n n' && tspec_beq s s'
  | TGeneric nat o args, TGeneric nat' o' args' =>
      Bool.eqb nat nat' && cls_eqb o o' && list_eqb tspec_beq args args'
  | TUnion nat args, TUnion nat' args' =>
      Bool.eqb nat nat' && list_eqb tspec_beq args args'
  | TLiteral args, TLiteral args' => list_eqb literal_eqb args args'
  | TTypeVar n, TTypeVar n' => String.eqb n n'
  | TEllipsis, TEllipsis => true
  | TOther, TOther => true
  | _, _ => false
  end.

(** A class or a parametrized class. *)
Definition simple (t : tspec) : bool :=
  match t with TClass _ | TGeneric _ _ _ => true | _ => false end.

(** The loop over [__supertype__] of [_matches]. *)
Fixpoint strip_newtypes (t : tspec) : tspec :=
  match t with
  | TNewType _ supertype => strip_newtypes supertype
  | _ => t
  end.

Definition is_any (t : tspec) : bool :=
  match t with TAny => true | _ => false end.

(** Expected types on which neither [isinstance(value, Any)] nor [|]
    raises: no [NewType] stands for [typing.Any], the arguments of a
    union and of a parametrized class other than a builtin container
    are operands of [|]. *)
Fixpoint safe_type (t : tspec) : bool :=
  match t with
  | TNewType _ supertype =>
      negb (is_any (strip_newtypes supertype)) && safe_type supertype
  | TGeneric _ origin args =>
      forallb safe_type args
      && (is_builtin_container origin || forallb unionable args)
  | TUnion _ args => forallb safe_type args && forallb unionable args
  | _ => true
  end.

(** The items of the builtin container a value is. *)
Definition items_of (v : pyval) : list pyval :=
  match v with
  | VList items | VSet items | VFrozenset items | VTuple items => items
  | VDict entries => (map fst entries ++ map snd entries)%list
  | _ => []
  end.

(** The values a value holds: items, keys and values, attributes. *)
Definition children (v : pyval) : list pyval :=
  match v with
  | VObj _ attrs => map snd attrs
  | VSub _ base attrs => (items_of base ++ map snd attrs)%list
  | _ => items_of v
  end.

(** [f] holds of the members of two lists of the same length, taken in
    pairs. *)
Definition forall2b {A B} (f : A -> B -> bool) : list A -> list B -> bool :=
  fix each (l : list A) (l' : list B) {struct l} : bool :=
    match l, l' with
    | [], [] => true
    | a :: r, b :: r' => f a b && each r r'
    | _, _ => false
    end.

(** The builtin container a value is, if it is one. *)
Definition container_part (v : pyval) : option pyval :=
  match builtin_part v with
  | Some b =>
      match b with
      | VList _ | VSet _ | VFrozenset _ | VDict _ | VTuple _ => Some b
      | _ => None
      end
  | None => None
  end.

(** The values that inference and matching look at in a value: the
    items of a container, the attributes of any other instance. *)
Definition parts (v : pyval) : list pyval :=
  match container_part v with
  | Some b => items_of b
  | None =>
      match v with
      | VObj _ attrs | VSub _ _ attrs => map snd attrs
      | _ => []
      end
  end.

(** [x] is [v] or lies in [v], along [parts]. *)
Inductive within (x : pyval) : pyval -> Prop :=
  | within_here : within x x
  | within_part (y v : pyval) : In y (parts v) -> within x y -> within x v.

Section Shapes.

Variable classes : class_table.
Variable repr_literal : literal -> string.
Variable repr_type : tspec -> string.

(** The class behind [key] is a plain class: no dataclass, no
    [TypedDict], no [Protocol]. *)
Definition is_plain_class (key : string) : bool :=
  match cd_kind (class_of classes key) with PlainClass => true | _ => false end.

(** The class refuses [isinstance]: a [TypedDict] or a [Protocol]. *)
Definition refuses_check (c : cls) : bool :=
  match c with
  | CUser key =>
      match cd_kind (class_of classes key) with
      | TypedDictClass | ProtocolClass => true
      | _ => false
      end
  | _ => false
  end.

(** A [Protocol] class. *)
Definition is_protocol (c : cls) : bool :=
  match c with
  | CUser key =>
      match cd_kind (class_of classes key) with
      | ProtocolClass => true
      | _ => false
      end
  | _ => false
  end.

(** Expected types in which the matcher makes no instance check that
    the class refuses: no [Protocol] stands as a plain class, no
    [TypedDict] or [Protocol] is parametrized. *)
Fixpoint checkable (t : tspec) : bool :=
  match t with
  | TClass c => negb (is_protocol c)
  | TNewType _ supertype => checkable supertype
  | TGeneric _ origin args =>
      negb (refuses_check origin) && forallb checkable args
  | TUnion _ args => forallb checkable args
  | _ => true
  end.

(** Expected types on which the matcher makes no instance check on
    [typing.Any] and substitutes nothing that refuses [|]: no [NewType]
    stands for [Any], and the arguments of a parametrized dataclass,
    which are substituted into its type hints, are safe operands of
    [|]. *)
Fixpoint matchable (t : tspec) : bool :=
  match t with
  | TNewType _ supertype =>
      negb (is_any (strip_newtypes supertype)) && matchable supertype
  | TGeneric _ origin args =>
      if is_dataclass classes origin
      then forallb (fun a => safe_type a && unionable a) args
      else forallb matchable args
  | TUnion _ args => forallb matchable args
  | _ => true
  end.

(** Types that print alike or are equal ([==]) are the same type. *)
Definition distinct_types (types : list tspec) : bool :=
  forallb (fun a =>
    forallb (fun b =>
      implb (String.eqb (_pretty_type classes repr_literal repr_type a)
                        (_pretty_type classes repr_literal repr_type b)
             || type_eqb a b)
            (tspec_beq a b)) types) types.

(** The inferred types of [items] are distinct in that sense. *)
Definition distinct_item_types (items : list pyval) : bool :=
  match map_m (_infer_type_spec_from_value classes repr_literal repr_type) items with
  | Return types => distinct_types types
  | Raise _ => false
  end.

(** The requirement on the items of one container: in a list, set or
    frozenset, and among the keys and among the values of a dictionary,
    items of different inferred types are told apart by the printed
    form of these types and by [==]. *)
Definition container_distinct (v : pyval) : bool :=
  match v with
  | VList items | VSet items | VFrozenset items => distinct_item_types items
  | VDict entries =>
      distinct_item_types (map fst entries)
      && distinct_item_types (map snd entries)
  | _ => true
  end.

(** The values on which inference and matching agree without a look at
    fields: every instance in the value that is no builtin container
    is an instance of a plain class, and the items of every container
    are distinct in the sense of [container_distinct]. *)
Fixpoint collision_free (v : pyval) : bool :=
  match v with
  | VList items | VSet items | VFrozenset items =>
      forallb collision_free items && distinct_item_types items
  | VTuple items => forallb collision_free items
  | VDict entries =>
      forallb (fun kv : pyval * pyval =>
                 let (k, x) := kv in collision_free k && collision_free x)
              entries
      && distinct_item_types (map fst entries)
      && distinct_item_types (map snd entries)
  | VSub _ (VList items | VSet items | VFrozenset items) _ =>
      forallb collision_free items && distinct_item_types items
  | VSub _ (VTuple items) _ => forallb collision_free items
  | VSub _ (VDict entries) _ =>
      forallb (fun kv : pyval * pyval =>
                 let (k, x) := kv in collision_free k && collision_free x)
              entries
      && distinct_item_types (map fst entries)
      && distinct_item_types (map snd entries)
  | VObj key _ | VSub key _ _ => is_plain_class key
  | _ => true
  end.

(** The shape of the types the inferencer builds for such values. *)
Fixpoint inferred_like (t : tspec) : bool :=
  match t with
  | TAny => true
  | TClass (CUser key) => is_plain_class key
  | TClass _ => true
  | TGeneric _ origin args =>
      is_builtin_container origin && forallb inferred_like args
  | TUnion _ args => forallb inferred_like args
  | _ => false
  end.

(** A class on which the matcher does the instance check and nothing
    else: a builtin class or a plain class. *)
Definition plain_or_builtin (c : cls) : bool :=
  match c with
  | CUser key => is_plain_class key
  | _ => true
  end.

(** A value fits a declared type on the face of it: the type is [Any],
    or the very type the inferencer gives for the value, or a builtin
    or plain class, parametrized or not, that the value is an instance
    of, or a [Literal] that holds a constant equal to the value, or a
    [NewType] of a type it fits, or a union that has a member it fits,
    or a list, set, frozenset, dictionary or tuple type, the value
    being such a container whose items fit the arguments of the
    type. *)
Fixpoint fits (v : pyval) (declared : tspec) {struct declared} : bool :=
  match _infer_type_spec_from_value classes repr_literal repr_type v with
  | Return t => tspec_beq t declared
  | Raise _ => false
  end
  || match declared with
     | TAny => true
     | TClass c => plain_or_builtin c && isinstance classes v c
     | TNewType _ supertype =>
         negb (is_any (strip_newtypes supertype)) && fits v supertype
     | TUnion _ members => existsb (fits v) members
     | TLiteral args => existsb (py_eq v) args
     | TGeneric _ (CUser key) _ =>
         is_plain_class key && isinstance classes v (CUser key)
     | TGeneric _ CList [element] =>
         match as_list v with
         | Some items => forallb (fun item => fits item element) items
         | None => false
         end
     | TGeneric _ CSet [element] =>
         match as_set v with
         | Some items => forallb (fun item => fits item element) items
         | None => false
         end
     | TGeneric _ CFrozenset [element] =>
         match as_frozenset v with
         | Some items => forallb (fun item => fits item element) items
         | None => false
         end
     | TGeneric _ CDict [key_type; value_type] =>
         match as_dict v with
         | Some entries =>
             forallb (fun kv : pyval * pyval =>
                        fits (fst kv) key_type && fits (snd kv) value_type)
                     entries
         | None => false
         end
     | TGeneric _ CTuple [element; TEllipsis] =>
         match as_tuple v with
         | Some items => forallb (fun item => fits item element) items
         | None => false
         end
     | TGeneric _ CTuple ((_ :: _) as element_types) =>
         match as_tuple v with
         | Some items =>
             forall2b (fun t item => fits item t) element_types items
         | None => false
         end
     | _ => false
     end.

(** The arguments that bind the type variables of the class of an
    instance, as the inferred type [t] of the instance has them. *)
Definition inferred_bindings (t : tspec) : list (string * tspec) :=
  match t with
  | TGeneric _ origin args => _bind_type_variables_for_generic classes origin args
  | _ => []
  end.

(** An instance of a dataclass holds in its fields what its class
    declares: the type hints of the class resolve, the inferencer
    returns a type for the instance, and every field that has a type
    hint is set to a value that fits the hint, the type variables of
    the class standing for the arguments of the inferred type. *)
Definition fields_fit (v : pyval) (key : string) : bool :=
  match get_type_hints classes (CUser key),
        _infer_type_spec_from_value classes repr_literal repr_type v with
  | Return type_hints, Return t =>
      forallb (fun field =>
                 match lookup field type_hints with
                 | None => true
                 | Some annotated =>
                     match concrete_field_type annotated (inferred_bindings t),
                           getattr v field with
                     | Return concrete, Some attr => fits attr concrete
                     | _, _ => false
                     end
                 end)
              (fields classes (CUser key))
  | _, _ => false
  end.

(** What [conforming] asks of an instance that is no builtin
    container. *)
Definition instance_conforming (v : pyval) (key : string) : bool :=
  match cd_kind (class_of classes key) with
  | PlainClass => true
  | Dataclass => fields_fit v key
  | TypedDictClass | ProtocolClass => false
  end.

(** The values on which inference and matching agree: the items of
    every container are distinct in the sense of [container_distinct], and
    every instance that is no builtin container is an instance of a
    plain class or an instance of a dataclass that holds in its fields
    what its class declares. *)
Fixpoint conforming (v : pyval) : bool :=
  match v with
  | VList items | VSet items | VFrozenset items =>
      forallb conforming items && distinct_item_types items
  | VTuple items => forallb conforming items
  | VDict entries =>
      forallb (fun kv : pyval * pyval =>
                 let (k, x) := kv in conforming k && conforming x)
              entries
      && distinct_item_types (map fst entries)
      && distinct_item_types (map snd entries)
  | VSub _ (VList items | VSet items | VFrozenset items) _ =>
      forallb conforming items && distinct_item_types items
  | VSub _ (VTuple items) _ => forallb conforming items
  | VSub _ (VDict entries) _ =>
      forallb (fun kv : pyval * pyval =>
                 let (k, x) := kv in conforming k && conforming x)
              entries
      && distinct_item_types (map fst entries)
      && distinct_item_types (map snd entries)
  | VObj key attrs | VSub key _ attrs =>
      forallb (fun a : string * pyval => conforming (snd a)) attrs
      && instance_conforming v key
  | _ => true
  end.

End Shapes.

Section Completeness.

Variable classes : class_table.

(** The type hints of every class resolve, and the type hints and
    annotations of every class are safe and checkable. *)
Definition safe_table : bool :=
  forallb (fun kd : string * class_def =>
             match cd_type_hints (snd kd) with
             | Return type_hints =>
                 forallb (fun h => safe_type (snd h) && checkable classes (snd h))
                         type_hints
             | Raise _ => false
             end
             && forallb (fun h => safe_type (snd h) && checkable classes (snd h))
                        (cd_annotations (snd kd)))
          classes.

(** Every instance in the value has an attribute for every dataclass
    field of its class and of the ancestors of its class. *)
Fixpoint complete (v : pyval) : bool :=
  match v with
  | VList items | VSet items | VFrozenset items | VTuple items =>
      forallb complete items
  | VDict entries =>
      forallb (fun kv : pyval * pyval =>
                 let (k, x) := kv in complete k && complete x) entries
  | VObj key attrs =>
      forallb (fun a : string * pyval => complete (snd a)) attrs
      && forallb (fun c => forallb (fun field => has_entry field attrs)
                                   (fields classes c))
                 (__mro__ classes (CUser key))
  | VSub key base attrs =>
      match base with
      | VList items | VSet items | VFrozenset items | VTuple items =>
          forallb complete items
      | VDict entries =>
          forallb (fun kv : pyval * pyval =>
                     let (k, x) := kv in complete k && complete x) entries
      | _ => true
      end
      && forallb (fun a : string * pyval => complete (snd a)) attrs
      && forallb (fun c => forallb (fun field => has_entry field attrs)
                                   (fields classes c))
                 (__mro__ classes (CUser key))
  | _ => true
  end.

End Completeness.

(** Safe operands of [|]. *)
Definition operand (t : tspec) : Prop :=
  safe_type t = true /\ unionable t = true.

(** ** Further notions used in the statements *)

(** No [case] of the statement [match origin, args] of [_matches]
    applies. *)
Definition no_container_case (origin : cls) (args : list tspec) : bool :=
  match origin, args with
  | CList, [_] | CSet, [_] | CFrozenset, [_] | CDict, [_; _] => false
  | CTuple, _ :: _ => false
  | _, _ => true
  end.

(** [typing.get_type_hints] raises [e] for some class. *)
Definition hints_raise (classes : class_table) (e : exn) : Prop :=
  exists c, get_type_hints classes c = Raise e.

(** What the inferencer can end in: a class or a parametrized class
    that is safe in the sense of [safe_type], [AttributeError], or what
    [typing.get_type_hints] raises. *)
Definition inferred_outcome (classes : class_table) (result : outcome tspec)
  : Prop :=
  match result with
  | Return t => simple t = true /\ safe_type t = true
  | Raise e => e = AttributeError \/ hints_raise classes e
  end.

(** The first of [fields] that is annotated with the type variable
    [type_var] itself. *)
Definition first_field_of (type_hints : list (string * tspec))
    (type_var : string) (fields : list string) : option string :=
  find (fun field =>
          match lookup field type_hints with
          | Some (TTypeVar annotated) => String.eqb annotated type_var
          | _ => false
          end) fields.

(** The type the inferencer records for the type variable [type_var] of
    a generic dataclass: the one inferred from the attribute of the
    first field annotated with it. *)
Definition recorded_argument (classes : class_table)
    (repr_literal : literal -> string) (repr_type : tspec -> string)
    (instance : pyval) (type_hints : list (string * tspec))
    (fields : list string) (type_var : string) (t : tspec) : Prop :=
  exists field attr,
    first_field_of type_hints type_var fields = Some field
    /\ getattr instance field = Some attr
    /\ _infer_type_spec_from_value classes repr_literal repr_type attr
       = Return t.

(** The typing objects on which [_pretty_type] calls [repr] for the
    unions of [|] between classes only: neither for a constant nor for
    another typing object. *)
Fixpoint repr_free (t : tspec) : bool :=
  match t with
  | TAny | TClass _ | TNewType _ _ => true
  | TGeneric native _ args =>
      (native || nonempty args) && forallb repr_free args
  | TUnion _ args => forallb repr_free args
  | TLiteral _ | TTypeVar _ | TEllipsis | TOther => false
  end.

(** No type variable that [mapping] binds is left in [t], at any depth
    of [__args__]. *)
Fixpoint free_of (mapping : list (string * tspec)) (t : tspec) : bool :=
  match t with
  | TTypeVar name => negb (has_entry name mapping)
  | TGeneric _ _ args | TUnion _ args => forallb (free_of mapping) args
  | _ => true
  end.

(** No [Callable] with a list of parameters, at any depth of
    [__args__]. *)
Fixpoint flat_args (t : tspec) : bool :=
  match t with
  | TGeneric _ origin args =>
      negb (nests_parameters origin args) && forallb flat_args args
  | TUnion _ args => forallb flat_args args
  | _ => true
  end.

(** ** Tactics *)

(** From a conjunction [Hc] of boolean requirements on the items of a
    container: the requirement on the container itself and the one on
    each item. *)
Ltac container_node Hc :=
  repeat match type of Hc with
         | andb _ _ = true => apply andb_true_iff in Hc as [Hc ?]
         end;
  split;
  [ repeat (apply andb_true_iff; split); first [assumption | reflexivity]
  | rewrite forallb_forall in Hc; intros x Hx;
    first
      [ now apply Hc
      | apply in_app_or in Hx as [Hx | Hx];
        apply in_map_iff in Hx as [[k y] [<- Hin]];
        specialize (Hc _ Hin); now apply andb_true_iff in Hc ] ].

(** * Properties *)

(** ** Induction on values and on typing objects *)

Lemma pyval_induction (P : pyval -> Prop) :
  P VNone ->
  (forall b, P (VBool b)) ->
  (forall z, P (VInt z)) ->
  (forall m e, P (VFloat m e)) ->
  (forall s, P (VStr s)) ->
  (forall s, P (VBytes s)) ->
  (forall items, Forall P items -> P (VList items)) ->
  (forall items, Forall P items -> P (VSet items)) ->
  (forall items, Forall P items -> P (VFrozenset items)) ->
  (forall entries,
      Forall (fun kv => P (fst kv) /\ P (snd kv)) entries -> P (VDict entries)) ->
  (forall items, Forall P items -> P (VTuple items)) ->
  (forall c attrs, Forall (fun a => P (snd a)) attrs -> P (VObj c attrs)) ->
  (forall c base attrs,
      P base -> Forall (fun a => P (snd a)) attrs -> P (VSub c base attrs)) ->
  forall v, P v.
Proof.
  intros HNone HBool HInt HFloat HStr HBytes HList HSet HFrozenset HDict
         HTuple HObj HSub.
  fix IH 1. intros v.
  assert (Hitems : forall items : list pyval, Forall P items).
  { fix IHl 1. intros [|x r]; constructor; [apply IH | apply IHl]. }
  destruct v.
  - exact HNone.
  - apply HBool.
  - apply HInt.
  - apply HFloat.
  - apply HStr.
  - apply HBytes.
  - apply HList, Hitems.
  - apply HSet, Hitems.
  - apply HFrozenset, Hitems.
  - apply HDict. revert entries.
    fix IHl 1. intros [|[k x] r]; constructor;
      [split; apply IH | apply IHl].
  - apply HTuple, Hitems.
  - apply HObj. revert attrs.
    fix IHl 1. intros [|[n x] r]; constructor; [apply IH | apply IHl].
  - apply HSub; [apply IH |]. revert attrs.
    fix IHl 1. intros [|[n x] r]; constructor; [apply IH | apply IHl].
Qed.

Lemma tspec_induction (P : tspec -> Prop) :
  P TAny ->
  (forall c, P (TClass c)) ->
  (forall name supertype, P supertype -> P (TNewType name supertype)) ->
  (forall native origin args, Forall P args -> P (TGeneric native origin args)) ->
  (forall native args, Forall P args -> P (TUnion native args)) ->
  (forall args, P (TLiteral args)) ->
  (forall name, P (TTypeVar name)) ->
  P TEllipsis ->
  P TOther ->
  forall t, P t.
Proof.
  intros HAny HClass HNewType HGeneric HUnion HLiteral HTypeVar HEllipsis HOther.
  fix IH 1. intros t.
  assert (Hargs : forall args : list tspec, Forall P args).
  { fix IHl 1. intros [|x r]; constructor; [apply IH | apply IHl]. }
  destruct t.
  - exact HAny.
  - apply HClass.
  - apply HNewType, IH.
  - apply HGeneric, Hargs.
  - apply HUnion, Hargs.
  - apply HLiteral.
  - apply HTypeVar.
  - exact HEllipsis.
  - exact HOther.
Qed.

(** ** Loops that may raise *)

Lemma all_m_true {A} (f : A -> outcome bool) (l : list A) :
  all_m f l = Return true <-> Forall (fun x => f x = Return true) l.
Proof.
  induction l as [|x r IH]; cbn.
  - split; [constructor | reflexivity].
  - destruct (f x) as [[|]|e] eqn:E.
    + rewrite IH. split; intros H; [now constructor | now inversion H].
    + split; [discriminate | intros H; inversion H; congruence].
    + split; [discriminate | intros H; inversion H; congruence].
Qed.

Lemma all2_m_true {A B} (f : A -> B -> outcome bool) (l : list A) (l' : list B) :
  List.length l = List.length l' ->
  all2_m f l l' = Return true <-> Forall2 (fun x y => f x y = Return true) l l'.
Proof.
  revert l'.
  induction l as [|x r IH]; intros [|y r'] Hlen; cbn in *; try discriminate.
  - split; [constructor | reflexivity].
  - injection Hlen as Hlen. destruct (f x y) as [[|]|e] eqn:E.
    + rewrite (IH r' Hlen). split; intros H; [now constructor | now inversion H].
    + split; [discriminate | intros H; inversion H; congruence].
    + split; [discriminate | intros H; inversion H; congruence].
Qed.

Lemma any_m_true {A} (f : A -> outcome bool) (l : list A) (x : A) :
  In x l -> f x = Return true ->
  (forall y, In y l -> exists b, f y = Return b) ->
  any_m f l = Return true.
Proof.
  induction l as [|y r IH]; cbn; [contradiction |].
  intros Hin Hx Hall.
  destruct (Hall y (or_introl eq_refl)) as [[|] Hy]; rewrite Hy; [reflexivity |].
  destruct Hin as [-> | Hin]; [congruence |].
  apply IH; auto.
Qed.

Lemma bind_returns {A B} (m : outcome A) (k : A -> outcome B) (b : B) :
  bind m k = Return b -> exists a, m = Return a /\ k a = Return b.
Proof. destruct m as [a|e]; cbn; [| discriminate]. intros H. now exists a. Qed.

(** ** Plain classes: [bool] and [int] *)

Section PlainClasses.

Variable classes : class_table.
Variable repr_literal : literal -> string.
Variable repr_type : tspec -> string.

(** C2, as the code has it: an expected [int] accepts [True] and
    [False], because a plain class is matched by [isinstance] and [bool]
    is a subclass of [int]; an expected [bool] accepts both booleans and
    rejects every [int]; only the inferencer keeps the two apart, it
    describes a boolean as [bool]. *)
Theorem bool_is_accepted_as_int (b : bool) (z : Z) :
  _matches classes (VBool b) (TClass CInt) = Return true
  /\ _matches classes (VBool b) (TClass CBool) = Return true
  /\ _matches classes (VInt z) (TClass CBool) = Return false
  /\ _infer_type_spec_from_value classes repr_literal repr_type (VBool b)
     = Return (TClass CBool).
Proof.
  repeat split; reflexivity.
Qed.

End PlainClasses.

(** C2 as stated fails: [_matches(True, int)] is [True], not [False]. *)
Lemma true_matches_int :
  sample_matches (VBool true) (TClass CInt) = Return true
  /\ sample_matches (VBool true) (TClass CInt) <> Return false.
Proof.
  split; [reflexivity | discriminate].
Qed.

(** ** Literals *)

Section Literals.

Variable classes : class_table.

Lemma matches_literal (v : pyval) (values : list literal) :
  _matches classes v (TLiteral values) = Return (existsb (py_eq v) values).
Proof.
  destruct v; reflexivity.
Qed.

Lemma number_eqb_int (x y : Z) : number_eqb (x, 0) (y, 0) = (x =? y).
Proof.
  unfold number_eqb. cbn [fst snd]. rewrite Z.min_id, Z.sub_diag.
  cbn [Z.pow]. now rewrite !Z.mul_1_r.
Qed.

Lemma py_eq_text (v : pyval) (s : string) :
  py_eq v (LitStr s) = true <-> builtin_part v = Some (VStr s).
Proof.
  unfold py_eq. destruct (builtin_part v) as [b|]; [| split; discriminate].
  split.
  - destruct b; cbn; try discriminate.
    intros H. apply String.eqb_eq in H. now subst.
  - intros [= ->]. cbn. apply String.eqb_refl.
Qed.

Lemma text_py_eq (s : string) (l : literal) :
  py_eq (VStr s) l = true <-> l = LitStr s.
Proof.
  split.
  - destruct l; cbn; try discriminate.
    intros H. apply String.eqb_eq in H. now subst.
  - intros ->. cbn. apply String.eqb_refl.
Qed.

(** C9: a value matches [Literal[values]] exactly when it equals ([==])
    one of the listed constants; a constant that is text is equalled
    only by the same text (a [str], or an instance of a subclass of
    [str], that is this text), and text equals only the constant that
    is the same text, never a number; [5] matches [Literal[5]], [5]
    does not match [Literal[6]], ["5"] does not match [Literal[5]]. *)
Theorem literal_exactness :
  (forall v values,
      _matches classes v (TLiteral values) = Return true
      <-> exists l, In l values /\ py_eq v l = true)
  /\ (forall x y, py_eq (VInt x) (LitInt y) = true <-> x = y)
  /\ (forall v s, py_eq v (LitStr s) = true <-> builtin_part v = Some (VStr s))
  /\ (forall s l, py_eq (VStr s) l = true <-> l = LitStr s)
  /\ _matches classes (VInt 5) (TLiteral [LitInt 5]) = Return true
  /\ _matches classes (VInt 5) (TLiteral [LitInt 6]) = Return false
  /\ _matches classes (VStr "5") (TLiteral [LitInt 5]) = Return false.
Proof.
  split; [| split; [| split; [| split; [| repeat split]]]].
  - intros v values. rewrite matches_literal. split.
    + intros H. injection H as H. apply existsb_exists in H. exact H.
    + intros H. f_equal. apply existsb_exists. exact H.
  - intros x y. cbn. rewrite number_eqb_int. apply Z.eqb_eq.
  - apply py_eq_text.
  - apply text_py_eq.
Qed.

(** C10, as the code has it: [Literal] compares with [==], for which
    [True] is [1] and [False] is [0], so [Literal[1]] accepts [True] and
    [Literal[True]] accepts [1]; apart from literals an expected [bool]
    rejects every [int], while an expected [int] accepts every
    boolean. *)
Theorem literal_bool_int (b : bool) (z : Z) :
  _matches classes (VBool true) (TLiteral [LitInt 1]) = Return true
  /\ _matches classes (VInt 1) (TLiteral [LitBool true]) = Return true
  /\ py_eq (VBool b) (LitInt z) = (z =? (if b then 1 else 0))
  /\ py_eq (VInt z) (LitBool b) = (z =? (if b then 1 else 0))
  /\ _matches classes (VInt z) (TClass CBool) = Return false
  /\ _matches classes (VBool b) (TClass CInt) = Return true.
Proof.
  repeat split.
  - cbn. rewrite number_eqb_int. apply Z.eqb_sym.
  - cbn. now rewrite number_eqb_int.
Qed.

End Literals.

(** C10 as stated fails in its last part: outside literals the matcher
    does not keep booleans apart from integers. *)
Lemma matcher_mixes_bool_and_int :
  ~ (forall b : bool, sample_matches (VBool b) (TClass CInt) = Return false).
Proof.
  intros H. specialize (H true). discriminate H.
Qed.

(** ** Tuples *)

Section Tuples.

Variable classes : class_table.

Lemma matches_variadic_tuple (native : bool) (items : list pyval) (element : tspec) :
  _matches classes (VTuple items) (TGeneric native CTuple [element; TEllipsis])
  = all_m (fun item => _matches classes item element) items.
Proof. reflexivity. Qed.

Lemma matches_fixed_tuple (native : bool) (items : list pyval)
    (first : tspec) (rest : list tspec) :
  match rest with [TEllipsis] => False | _ => True end ->
  _matches classes (VTuple items) (TGeneric native CTuple (first :: rest))
  = if Nat.eqb (List.length items) (List.length (first :: rest))
    then all2_m (_matches classes) items (first :: rest)
    else Return false.
Proof.
  intros H. destruct rest as [|second r]; [reflexivity |].
  destruct second, r; try reflexivity. contradiction.
Qed.

(** C7, as the code has it: against [tuple[T, ...]] a tuple of any
    length, the empty one too, matches exactly when each of its items
    matches [T]; against [tuple[A, B, ...]] with at least one item type a
    tuple matches exactly when it has as many items as there are item
    types and each item matches the type at its position; against
    [tuple[()]], which has no item types, every tuple matches, whatever
    its length. *)
Theorem tuple_matching :
  (forall native items elements,
      _matches classes (VTuple items) (TGeneric native CTuple elements)
      = Return true
      <-> match elements with
          | [] => True
          | [element; TEllipsis] =>
              Forall (fun item => _matches classes item element = Return true)
                     items
          | _ =>
              List.length items = List.length elements
              /\ Forall2 (fun item element =>
                            _matches classes item element = Return true)
                         items elements
          end)
  /\ _matches classes (VTuple [VInt 1; VStr "a"])
       (TGeneric true CTuple [TClass CInt; TClass CStr]) = Return true
  /\ _matches classes (VTuple [VInt 1; VStr "a"; VInt 2])
       (TGeneric true CTuple [TClass CInt; TClass CStr]) = Return false
  /\ _matches classes (VTuple [VInt 1; VInt 2; VInt 3])
       (TGeneric true CTuple [TClass CInt; TEllipsis]) = Return true
  /\ _matches classes (VTuple [])
       (TGeneric true CTuple [TClass CInt; TEllipsis]) = Return true.
Proof.
  split; [| repeat split].
  intros native items elements.
  assert (Hfixed : forall first rest,
             match rest with [TEllipsis] => False | _ => True end ->
             _matches classes (VTuple items)
               (TGeneric native CTuple (first :: rest)) = Return true
             <-> List.length items = List.length (first :: rest)
                 /\ Forall2 (fun item element =>
                               _matches classes item element = Return true)
                            items (first :: rest)).
  { intros first rest Hrest. rewrite (matches_fixed_tuple _ _ _ _ Hrest).
    destruct (Nat.eqb_spec (List.length items) (List.length (first :: rest)))
      as [Hlen | Hlen].
    - rewrite (all2_m_true _ _ _ Hlen). tauto.
    - split; [discriminate | tauto]. }
  destruct elements as [|first rest]; [split; [trivial | reflexivity] |].
  destruct rest as [|second r]; [apply Hfixed; exact I |].
  destruct second, r; try (apply Hfixed; exact I).
  rewrite matches_variadic_tuple. apply all_m_true.
Qed.

End Tuples.

(** C7 as stated fails for a tuple type without item types: the two
    items of [(1, "a")] are not the zero items of [tuple[()]], yet the
    value matches. *)
Lemma empty_tuple_type_accepts_pair :
  sample_matches (VTuple [VInt 1; VStr "a"]) (TGeneric true CTuple [])
  = Return true
  /\ List.length [VInt 1; VStr "a"] <> List.length (@nil tspec).
Proof.
  split; [reflexivity | discriminate].
Qed.

(** ** Typed dictionaries *)

Lemma is_key_spec (key : string) (k : pyval) :
  is_key key k = true <-> builtin_part k = Some (VStr key).
Proof.
  unfold is_key. destruct (builtin_part k) as [b|]; [| split; discriminate].
  destruct b; try (split; [discriminate | intros H; discriminate H]).
  rewrite String.eqb_eq. split; [now intros -> | now intros [= ->]].
Qed.

Lemma dict_get_then_true (entries : list (pyval * pyval)) (key : string)
    (found : pyval -> outcome bool) (required : bool) :
  dict_get_then entries key found (Return (negb required)) = Return true
  <-> dict_get_then entries key (fun item => found item = Return true)
        (required = false).
Proof.
  unfold dict_get_then.
  induction entries as [|[k v] r IH].
  - destruct required; cbn; split; congruence.
  - destruct (is_key key k); [reflexivity | exact IH].
Qed.

Section TypedDicts.

Variable classes : class_table.

Lemma typed_dict_is_no_dataclass (c : cls) :
  _is_typed_dict_class classes c = true -> is_dataclass classes c = false.
Proof.
  destruct c; cbn; try discriminate.
  destruct (cd_kind (class_of classes key)); congruence.
Qed.

Lemma matches_typed_dict (v : pyval) (c : cls) :
  _is_typed_dict_class classes c = true ->
  _matches classes v (TClass c)
  = matches_typed_dict_with classes (_matches classes) v c.
Proof.
  intros H. pose proof (typed_dict_is_no_dataclass c H) as Hd.
  unfold _matches. destruct v; cbn; rewrite Hd, H; reflexivity.
Qed.

Lemma typed_dict_matching (c : cls) (entries : list (pyval * pyval)) :
  _is_typed_dict_class classes c = true ->
  _matches classes (VDict entries) (TClass c) = Return true
  <-> (forall key, In key (__required_keys__ classes c) ->
         has_key key entries = true)
      /\ (forall k v, In (k, v) entries ->
            exists key field_type,
              In (key, field_type) (__annotations__ classes c)
              /\ builtin_part k = Some (VStr key))
      /\ (forall key field_type,
            In (key, field_type) (__annotations__ classes c) ->
            dict_get_then entries key
              (fun item => _matches classes item field_type = Return true)
              (contains key (__required_keys__ classes c) = false)).
Proof.
  intros Hc. rewrite (matches_typed_dict _ _ Hc). unfold matches_typed_dict_with.
  destruct (forallb (fun key => has_key key entries)
                    (__required_keys__ classes c)) eqn:Hreq; cbn [negb].
  2:{ split; [discriminate |]. intros [H _].
      apply forallb_forall in H. congruence. }
  rewrite forallb_forall in Hreq.
  destruct (existsb _ entries) eqn:Hextra.
  { split; [discriminate |]. intros [_ [H _]]. exfalso.
    apply existsb_exists in Hextra as [[k v] [Hin Hno]].
    destruct (H k v Hin) as [key [ft [Ha Hk]]].
    apply negb_true_iff in Hno.
    assert (Hyes : existsb (fun a : string * tspec => is_key (fst a) (fst (k, v)))
                     (__annotations__ classes c) = true).
    { apply existsb_exists. exists (key, ft). split; [exact Ha |].
      cbn [fst]. now apply is_key_spec. }
    congruence. }
  rewrite all_m_true, Forall_forall.
  split.
  - intros H. split; [exact Hreq | split].
    + intros k v Hin.
      destruct (existsb (fun a : string * tspec => is_key (fst a) k)
                  (__annotations__ classes c)) eqn:Hk.
      * apply existsb_exists in Hk as [[key ft] [Ha Hkey]].
        exists key, ft. split; [exact Ha | now apply is_key_spec].
      * exfalso.
        assert (Hyes : existsb
                  (fun kv : pyval * pyval =>
                     negb (existsb (fun a : string * tspec => is_key (fst a) (fst kv))
                             (__annotations__ classes c))) entries = true).
        { apply existsb_exists. exists (k, v). split; [exact Hin |].
          cbn. now rewrite Hk. }
        congruence.
    + intros key ft Ha. specialize (H (key, ft) Ha). cbn in H.
      now apply dict_get_then_true in H.
  - intros [_ [_ H]] [key ft] Ha. cbn.
    apply dict_get_then_true. now apply H.
Qed.

Lemma matches_typed_dict_as_dict (recur : pyval -> tspec -> outcome bool)
    (v : pyval) (c : cls) :
  matches_typed_dict_with classes recur v c
  = match as_dict v with
    | Some entries => matches_typed_dict_with classes recur (VDict entries) c
    | None => Return false
    end.
Proof.
  destruct v; try reflexivity. destruct v; reflexivity.
Qed.

Lemma typed_dict_rejects_other_values (c : cls) (v : pyval) :
  _is_typed_dict_class classes c = true ->
  as_dict v = None ->
  _matches classes v (TClass c) = Return false.
Proof.
  intros Hc Hv. rewrite (matches_typed_dict _ _ Hc).
  now rewrite matches_typed_dict_as_dict, Hv.
Qed.

End TypedDicts.



(** ** Generic dataclasses *)

Lemma getattr_then_getattr {R} (instance : pyval) (name : string)
    (k : pyval -> outcome R) :
  getattr_then instance name k
  = match getattr instance name with
    | Some attr => k attr
    | None => Raise AttributeError
    end.
Proof.
  destruct instance; try reflexivity; cbn;
    induction attrs as [|[n v] r IH]; cbn; try reflexivity;
    destruct (String.eqb n name); try reflexivity; exact IH.
Qed.

Lemma lookup_dict_set {A} (key k : string) (a : A) (d : list (string * A)) :
  lookup key (dict_set k a d) = if String.eqb k key then Some a else lookup key d.
Proof.
  induction d as [|[k' x] r IH]; cbn.
  - reflexivity.
  - destruct (String.eqb_spec k' k) as [E|E]; cbn.
    + subst k'. destruct (String.eqb k key); reflexivity.
    + rewrite IH. destruct (String.eqb_spec k' key) as [E'|E']; [| reflexivity].
      subst k'. destruct (String.eqb_spec k key) as [E''|E'']; [| reflexivity].
      congruence.
Qed.

Lemma lookup_bindings {A} (keys : list string) (values : list A) :
  NoDup keys ->
  forall (d : list (string * A)) i key a,
    nth_error keys i = Some key -> nth_error values i = Some a ->
    lookup key
      (fold_left (fun d p => dict_set (fst p) (snd p) d) (zip keys values) d)
    = Some a.
Proof.
  intros Hnd. revert values.
  induction Hnd as [|k keys Hk Hnd IH]; intros values d i key a Hkey Ha.
  - destruct i; discriminate.
  - destruct values as [|v values]; [destruct i; discriminate |].
    destruct i as [|i]; cbn in *.
    + injection Hkey as ->. injection Ha as ->.
      assert (Hstay : forall (ps : list (string * A)) d,
                 (forall p, In p ps -> fst p <> key) ->
                 lookup key (fold_left (fun d p => dict_set (fst p) (snd p) d) ps d)
                 = lookup key d).
      { induction ps as [|p ps IHps]; intros d' Hps; cbn; [reflexivity |].
        rewrite IHps by (intros; apply Hps; now right).
        rewrite lookup_dict_set.
        destruct (String.eqb_spec (fst p) key) as [E|E]; [| reflexivity].
        exfalso. apply (Hps p); [now left | exact E]. }
      rewrite Hstay.
      * rewrite lookup_dict_set. now rewrite String.eqb_refl.
      * intros [k' v'] Hin E. cbn in E. subst k'.
        apply Hk. unfold zip in Hin. now apply in_combine_l in Hin.
    + now apply (IH values _ i).
Qed.

Section Generics.

Variable classes : class_table.

Lemma bind_positional (origin : cls) (args : list tspec) (i : nat)
    (type_var : string) (arg : tspec) :
  NoDup (__parameters__ classes origin) ->
  nth_error (__parameters__ classes origin) i = Some type_var ->
  nth_error args i = Some arg ->
  lookup type_var (_bind_type_variables_for_generic classes origin args)
  = Some arg.
Proof.
  intros Hnd Hvar Harg. unfold _bind_type_variables_for_generic.
  destruct (__parameters__ classes origin) as [|p ps] eqn:E.
  - destruct i; discriminate.
  - now apply (lookup_bindings (p :: ps) args Hnd [] i).
Qed.

Lemma instance_check_dataclass (v : pyval) (c : cls) :
  is_dataclass classes c = true ->
  instance_check classes v c = Return (isinstance classes v c).
Proof.
  destruct c; try reflexivity. cbn.
  destruct (cd_kind (class_of classes key)); try discriminate. reflexivity.
Qed.

Lemma matches_generic (v : pyval) (native : bool) (key : string)
    (args : list tspec) :
  _matches classes v (TGeneric native (CUser key) args)
  = (is_instance <- instance_check classes v (CUser key) ;;
     if negb is_instance then Return false
     else if is_dataclass classes (CUser key) then
       _matches_dataclass_fields classes v (CUser key)
         (_bind_type_variables_for_generic classes (CUser key) args)
     else Return true).
Proof.
  unfold _matches. destruct v; reflexivity.
Qed.

Lemma matches_generic_dataclass (v : pyval) (native : bool) (origin : cls)
    (args : list tspec) :
  is_dataclass classes origin = true ->
  _matches classes v (TGeneric native origin args)
  = if isinstance classes v origin
    then _matches_dataclass_fields classes v origin
           (_bind_type_variables_for_generic classes origin args)
    else Return false.
Proof.
  intros H. destruct origin; try discriminate.
  rewrite matches_generic, (instance_check_dataclass v _ H), H. cbn [bind].
  now destruct (isinstance classes v (CUser key)).
Qed.

Lemma matches_generic_class (v : pyval) (native : bool) (key : string)
    (args : list tspec) :
  is_dataclass classes (CUser key) = false ->
  _matches classes v (TGeneric native (CUser key) args)
  = instance_check classes v (CUser key).
Proof.
  intros H. rewrite matches_generic, H.
  destruct (instance_check classes v (CUser key)) as [[|]|]; reflexivity.
Qed.

Lemma matches_dataclass_fields_true (v : pyval) (c : cls)
    (bound : list (string * tspec)) (type_hints : list (string * tspec)) :
  get_type_hints classes c = Return type_hints ->
  _matches_dataclass_fields classes v c bound = Return true
  <-> forall field annotated,
        In field (fields classes c) ->
        lookup field type_hints = Some annotated ->
        exists concrete attr,
          concrete_field_type annotated bound = Return concrete
          /\ getattr v field = Some attr
          /\ _matches classes attr concrete = Return true.
Proof.
  intros Hh. unfold _matches_dataclass_fields, matches_dataclass_fields_with.
  rewrite Hh. cbn [bind]. rewrite all_m_true, Forall_forall.
  split.
  - intros H field annotated Hin Hl. specialize (H field Hin). cbn in H.
    rewrite Hl in H. fold (concrete_field_type annotated bound) in H.
    destruct (concrete_field_type annotated bound) as [concrete|]; [| discriminate].
    cbn in H. rewrite getattr_then_getattr in H.
    destruct (getattr v field) as [attr|]; [| discriminate].
    now exists concrete, attr.
  - intros H field Hin.
    destruct (lookup field type_hints) as [annotated|] eqn:Hl;
      [| reflexivity].
    destruct (H field annotated Hin Hl) as [concrete [attr [Hc [Ha Hm]]]].
    fold (concrete_field_type annotated bound). rewrite Hc. cbn.
    rewrite getattr_then_getattr, Ha. exact Hm.
Qed.

Lemma matches_dataclass_fields_hints (v : pyval) (c : cls)
    (bound : list (string * tspec)) (e : exn) :
  get_type_hints classes c = Raise e ->
  _matches_dataclass_fields classes v c bound = Raise e.
Proof.
  intros Hh. unfold _matches_dataclass_fields, matches_dataclass_fields_with.
  now rewrite Hh.
Qed.

End Generics.

(** ** Substitution *)

Lemma map_m_results {A B} (f : A -> outcome B) (l : list A) (ys : list B) :
  map_m f l = Return ys <-> Forall2 (fun x y => f x = Return y) l ys.
Proof.
  split.
  - revert ys. induction l as [|a r IH]; cbn; intros ys.
    + intros [= <-]. constructor.
    + destruct (f a) as [y|e'] eqn:Ea; [| discriminate].
      destruct (map_m f r) as [ys'|e'']; [| discriminate].
      intros [= <-]. constructor; auto.
  - induction 1 as [|x y r ys' E _ IH]; cbn; [reflexivity |].
    now rewrite E, IH.
Qed.

Lemma substitute_instantiate (mapping : list (string * tspec)) (t : tspec) :
  union_free t = true ->
  _substitute_type_variables t mapping = Return (instantiate mapping t).
Proof.
  induction t as [| c | name s IHs | native origin args IH | native args IH
                  | args | name | |] using tspec_induction;
    intros Hf; try reflexivity.
  - destruct args as [|first rest]; [reflexivity |].
    cbn [union_free] in Hf. apply andb_true_iff in Hf as [Hn Hf].
    apply negb_true_iff in Hn.
    cbn [_substitute_type_variables instantiate]. rewrite Hn.
    assert (E : map_m (fun a => _substitute_type_variables a mapping)
                  (first :: rest)
                = Return (map (instantiate mapping) (first :: rest))).
    { apply map_m_results. rewrite forallb_forall in Hf.
      rewrite Forall_forall in IH.
      clear Hn. induction (first :: rest) as [|a r IHr]; cbn; constructor.
      - apply IH; [now left | apply Hf; now left].
      - apply IHr; intros x Hx; [apply IH | apply Hf]; now right. }
    now rewrite E.
  - destruct args as [|first rest]; [reflexivity | discriminate Hf].
  - destruct args; reflexivity.
Qed.

Lemma substitute_union (mapping : list (string * tspec)) (native : bool)
    (first first' : tspec) (rest rest' : list tspec) :
  _substitute_type_variables first mapping = Return first' ->
  Forall2 (fun a a' => _substitute_type_variables a mapping = Return a')
          rest rest' ->
  _substitute_type_variables (TUnion native (first :: rest)) mapping
  = fold_m py_or rest' first'.
Proof.
  intros Hfirst Hrest. cbn [_substitute_type_variables]. rewrite Hfirst.
  cbn [bind]. clear Hfirst. revert first'.
  induction Hrest as [|a a' r r' Ha _ IH]; intros acc; cbn; [reflexivity |].
  rewrite Ha. cbn [bind]. destruct (py_or acc a') as [acc'|]; [| reflexivity].
  apply IH.
Qed.



(** ** Unionize *)

Lemma contains_app (key : string) (l l' : list string) :
  contains key (l ++ l') = contains key l || contains key l'.
Proof. apply existsb_app. Qed.

Lemma has_entry_keys {A} (key : string) (d : list (string * A)) :
  has_entry key d = contains key (map fst d).
Proof.
  unfold has_entry, contains.
  induction d as [|[k a] r IH]; cbn; [reflexivity |].
  rewrite (String.eqb_sym key k).
  destruct (String.eqb k key); [reflexivity | exact IH].
Qed.

Lemma setdefault_values {A} (text : A -> string) (l : list A)
    (d : list (string * A)) :
  dict_values (fold_left (fun d t => dict_setdefault (text t) t d) l d)
  = (dict_values d ++ first_seen_from text (map fst d) l)%list.
Proof.
  revert d. induction l as [|x r IH]; intros d; cbn [fold_left first_seen_from].
  - now rewrite app_nil_r.
  - rewrite IH. unfold dict_setdefault.
    rewrite <- has_entry_keys. unfold has_entry.
    destruct (lookup (text x) d); [reflexivity |].
    unfold dict_values. rewrite !map_app. cbn. now rewrite <- app_assoc.
Qed.

Lemma all_new_dedup (l seen : list tspec) :
  all_new seen l = true ->
  fold_left (fun seen x => if existsb (type_eqb x) seen then seen
                           else (seen ++ [x])%list) l seen
  = (seen ++ l)%list.
Proof.
  revert seen. induction l as [|x r IH]; intros seen H; cbn in *.
  - now rewrite app_nil_r.
  - apply andb_true_iff in H as [Hx Hr]. apply negb_true_iff in Hx.
    rewrite Hx, (IH _ Hr). now rewrite <- app_assoc.
Qed.

Lemma all_new_app (seen l l' : list tspec) :
  all_new seen (l ++ l') = all_new seen l && all_new (seen ++ l) l'.
Proof.
  revert seen. induction l as [|x r IH]; intros seen; cbn.
  - now rewrite app_nil_r.
  - rewrite IH, <- app_assoc. cbn. now rewrite andb_assoc.
Qed.

Lemma union_args_make_union (native : bool) (l : list tspec) :
  forallb (fun t => negb (is_union t)) l = true ->
  l <> [] ->
  union_args (make_union native l) = l.
Proof.
  intros Hn Hne. destruct l as [|a [|b r]]; [congruence | | reflexivity].
  destruct a; try reflexivity; discriminate.
Qed.

Lemma unionable_make_union (native : bool) (l : list tspec) :
  forallb unionable l = true -> unionable (make_union native l) = true.
Proof.
  destruct l as [|a [|b r]]; cbn; try reflexivity.
  now rewrite andb_true_r.
Qed.

Lemma native_make_union (l : list tspec) :
  l <> [] ->
  native_operand (make_union (forallb native_operand l) l)
  = forallb native_operand l.
Proof.
  intros Hne. destruct l as [|a [|b r]]; [congruence | |].
  - cbn. now rewrite andb_true_r.
  - cbn [make_union native_operand].
    now destruct (forallb native_operand (a :: b :: r)).
Qed.

Lemma fold_or_plain (rest seen : list tspec) :
  seen <> [] ->
  forallb unionable (seen ++ rest) = true ->
  forallb (fun t => negb (is_union t)) (seen ++ rest) = true ->
  all_new [] (seen ++ rest) = true ->
  fold_m py_or rest (make_union (forallb native_operand seen) seen)
  = Return (make_union (forallb native_operand (seen ++ rest)) (seen ++ rest)).
Proof.
  revert seen. induction rest as [|x r IH]; intros seen Hne Hu Hn Hd.
  - now rewrite app_nil_r.
  - assert (E : (seen ++ x :: r = (seen ++ [x]) ++ r)%list)
      by now rewrite <- app_assoc.
    rewrite E in Hu, Hn, Hd |- *.
    assert (Hne' : (seen ++ [x])%list <> []) by (destruct seen; discriminate).
    rewrite <- (IH _ Hne' Hu Hn Hd).
    rewrite forallb_app in Hu, Hn. apply andb_true_iff in Hu as [Hu _].
    apply andb_true_iff in Hn as [Hn _].
    rewrite all_new_app in Hd. apply andb_true_iff in Hd as [Hd _].
    rewrite forallb_app in Hu. apply andb_true_iff in Hu as [Hus Hux].
    cbn in Hux. rewrite andb_true_r in Hux.
    rewrite forallb_app in Hn. apply andb_true_iff in Hn as [Hns Hnx].
    cbn in Hnx. rewrite andb_true_r in Hnx.
    cbn [fold_m]. unfold py_or at 1.
    rewrite (unionable_make_union _ _ Hus), Hux. cbn [andb].
    rewrite (union_args_make_union _ _ Hns Hne), (native_make_union _ Hne).
    assert (Ex : union_args x = [x]) by (destruct x; try reflexivity; discriminate).
    rewrite Ex. unfold dedup. rewrite (all_new_dedup _ [] Hd).
    rewrite forallb_app. cbn [forallb app]. now rewrite andb_true_r.
Qed.

Lemma contains_spec (key : string) (l : list string) :
  contains key l = true <-> In key l.
Proof.
  unfold contains. rewrite existsb_exists. split.
  - intros [x [Hin Hx]]. apply String.eqb_eq in Hx. now subst.
  - intros H. exists key. split; [exact H | apply String.eqb_refl].
Qed.

Lemma first_seen_from_sound {A} (text : A -> string) (l : list A)
    (seen : list string) (s : A) :
  In s (first_seen_from text seen l) ->
  In s l /\ contains (text s) seen = false.
Proof.
  revert seen. induction l as [|x r IH]; intros seen; cbn; [contradiction |].
  destruct (contains (text x) seen) eqn:Hx.
  - intros H. destruct (IH _ H). auto.
  - intros [<- | H]; [auto |].
    destruct (IH _ H) as [Hin Hs]. split; [auto |].
    rewrite contains_app in Hs. now apply orb_false_iff in Hs.
Qed.

Lemma first_seen_from_nodup {A} (text : A -> string) (l : list A)
    (seen : list string) :
  NoDup (map text (first_seen_from text seen l)).
Proof.
  revert seen. induction l as [|x r IH]; intros seen; cbn; [constructor |].
  destruct (contains (text x) seen); [apply IH |].
  cbn. constructor; [| apply IH].
  intros Hin. apply in_map_iff in Hin as [s [Hs Hin]].
  apply first_seen_from_sound in Hin as [_ Hc].
  rewrite contains_app, <- Hs in Hc. apply orb_false_iff in Hc as [_ Hc].
  cbn in Hc. now rewrite String.eqb_refl in Hc.
Qed.

Lemma first_seen_from_complete {A} (text : A -> string) (l : list A)
    (seen : list string) (x : A) :
  In x l ->
  contains (text x) seen = true
  \/ exists s, In s (first_seen_from text seen l) /\ text s = text x.
Proof.
  revert seen. induction l as [|y r IH]; intros seen; cbn; [contradiction |].
  intros [-> | Hin].
  - destruct (contains (text x) seen); [now left |].
    right. exists x. split; [now left | reflexivity].
  - destruct (contains (text y) seen) eqn:Hy; [now apply IH |].
    destruct (IH (seen ++ [text y])%list Hin) as [H | [s [Hs Ht]]].
    + rewrite contains_app in H. apply orb_true_iff in H as [H | H]; [now left |].
      right. exists y. split; [now left |].
      cbn in H. rewrite orb_false_r in H. apply String.eqb_eq in H. congruence.
    + right. exists s. split; [now right | exact Ht].
Qed.

Section Unionize.

Variable classes : class_table.
Variable repr_literal : literal -> string.
Variable repr_type : tspec -> string.

Local Abbreviation pretty := (_pretty_type classes repr_literal repr_type).
Local Abbreviation unionize := (_unionize classes repr_literal repr_type).

Lemma unionize_survivors (t : tspec) (l : list tspec) :
  unionize (t :: l)
  = match first_seen pretty (t :: l) with
    | [only] => Return only
    | first :: rest => fold_m py_or rest first
    | [] => Raise IndexError
    end.
Proof.
  unfold _unionize. now rewrite setdefault_values.
Qed.

Lemma unionize_plain (l survivors : list tspec) :
  first_seen pretty l = survivors ->
  (2 <= List.length survivors)%nat ->
  forallb unionable survivors = true ->
  forallb (fun t => negb (is_union t)) survivors = true ->
  all_new [] survivors = true ->
  unionize l = Return (TUnion (forallb native_operand survivors) survivors).
Proof.
  intros Hs Hlen Hu Hn Hd.
  destruct l as [|t l]; [subst; cbn in Hlen; lia |].
  rewrite unionize_survivors, Hs.
  destruct survivors as [|first [|second rest]]; cbn in Hlen; try lia.
  change first with (make_union (forallb native_operand [first]) [first]) at 1.
  now rewrite (fold_or_plain (second :: rest) [first]).
Qed.

(** C8, as the code has it: [_unionize] of the empty list is [Any];
    otherwise the survivors are the items whose printed form no earlier
    item has, in the order of the list: their printed forms differ from
    one another, each is an item of the list, and every item has a
    survivor that prints like it; a single survivor is returned as it
    is, several are combined with [|] from left to right, which gives
    the union of the survivors in that order when none of them is a
    union and no two of them are equal ([==]): a [types.UnionType] when
    every survivor is a class or a [types.GenericAlias], a
    [typing.Union] otherwise. *)
Theorem unionize_first_seen :
  unionize [] = Return TAny
  /\ (forall t l,
         unionize (t :: l)
         = match first_seen pretty (t :: l) with
           | [only] => Return only
           | first :: rest => fold_m py_or rest first
           | [] => Raise IndexError
           end
         /\ hd_error (first_seen pretty (t :: l)) = Some t)
  /\ (forall l,
         NoDup (map pretty (first_seen pretty l))
         /\ (forall s, In s (first_seen pretty l) -> In s l)
         /\ (forall x, In x l ->
               exists s, In s (first_seen pretty l) /\ pretty s = pretty x))
  /\ (forall l survivors,
         first_seen pretty l = survivors ->
         (2 <= List.length survivors)%nat ->
         forallb unionable survivors = true ->
         forallb (fun t => negb (is_union t)) survivors = true ->
         all_new [] survivors = true ->
         unionize l
         = Return (TUnion (forallb native_operand survivors) survivors)).
Proof.
  split; [reflexivity | split; [| split]].
  - intros t l. split; [apply unionize_survivors | reflexivity].
  - intros l. split; [apply first_seen_from_nodup | split].
    + intros s H. now apply first_seen_from_sound in H.
    + intros x H.
      destruct (first_seen_from_complete pretty l [] x H) as [Hc | Hs];
        [discriminate Hc | exact Hs].
  - exact unionize_plain.
Qed.

End Unionize.

(** The types of [1], ["a"] and [2] unionize to [int | str]. *)
Lemma unionize_first_seen_witness :
  _unionize sample_classes sample_repr_literal sample_repr_type
    [TClass CInt; TClass CStr; TClass CInt]
  = Return (TUnion true [TClass CInt; TClass CStr]).
Proof.
  apply (proj2 (proj2 (proj2 (unionize_first_seen sample_classes
                                sample_repr_literal sample_repr_type)))
           [TClass CInt; TClass CStr; TClass CInt]
           [TClass CInt; TClass CStr]).
  - reflexivity.
  - cbn. lia.
  - reflexivity.
  - reflexivity.
  - reflexivity.
Defined.

(** C8 as stated fails when two survivors are equal: [list[int | str]]
    and [list[str | int]], the types inferred for [[1, "a"]] and
    [["a", 1]], print differently and both survive, but [|] drops the
    second, which equals the first, and the result is the first, no
    union. *)
Lemma unionize_drops_equal_survivor :
  first_seen sample_pretty
    [TGeneric true CList [TUnion true [TClass CInt; TClass CStr]];
     TGeneric true CList [TUnion true [TClass CStr; TClass CInt]]]
  = [TGeneric true CList [TUnion true [TClass CInt; TClass CStr]];
     TGeneric true CList [TUnion true [TClass CStr; TClass CInt]]]
  /\ _unionize sample_classes sample_repr_literal sample_repr_type
       [TGeneric true CList [TUnion true [TClass CInt; TClass CStr]];
        TGeneric true CList [TUnion true [TClass CStr; TClass CInt]]]
     = Return (TGeneric true CList [TUnion true [TClass CInt; TClass CStr]])
  /\ sample_infer (VList [VList [VInt 1; VStr "a"]; VList [VStr "a"; VInt 1]])
     = Return (TGeneric true CList
                 [TGeneric true CList [TUnion true [TClass CInt; TClass CStr]]]).
Proof.
  repeat split.
Qed.

(** ** Loops that return *)

Lemma all_m_returns {A} (f : A -> outcome bool) (l : list A) :
  (forall x, In x l -> exists b, f x = Return b) ->
  exists b, all_m f l = Return b.
Proof.
  induction l as [|x r IH]; intros H; cbn; [now exists true |].
  destruct (H x (or_introl eq_refl)) as [[|] Hx]; rewrite Hx.
  - apply IH. intros y Hy. apply H. now right.
  - now exists false.
Qed.

Lemma any_m_returns {A} (f : A -> outcome bool) (l : list A) :
  (forall x, In x l -> exists b, f x = Return b) ->
  exists b, any_m f l = Return b.
Proof.
  induction l as [|x r IH]; intros H; cbn; [now exists false |].
  destruct (H x (or_introl eq_refl)) as [[|] Hx]; rewrite Hx.
  - now exists true.
  - apply IH. intros y Hy. apply H. now right.
Qed.

Lemma all2_m_returns {A B} (f : A -> B -> outcome bool) (l : list A)
    (l' : list B) :
  (forall x y, In x l -> In y l' -> exists b, f x y = Return b) ->
  exists b, all2_m f l l' = Return b.
Proof.
  revert l'. induction l as [|x r IH]; intros [|y r'] H; cbn;
    try (now exists true).
  destruct (H x y (or_introl eq_refl) (or_introl eq_refl)) as [[|] Hx];
    rewrite Hx.
  - apply IH. intros x' y' Hx' Hy'. apply H; now right.
  - now exists false.
Qed.

Lemma map_m_returns {A B} (f : A -> outcome B) (l : list A) (P : A -> B -> Prop) :
  Forall (fun x => exists y, f x = Return y /\ P x y) l ->
  exists ys, map_m f l = Return ys /\ Forall2 P l ys.
Proof.
  induction 1 as [|x r [y [Hy HP]] _ [ys [Hys HF]]]; cbn.
  - now exists [].
  - rewrite Hy, Hys. exists (y :: ys). split; [reflexivity | now constructor].
Qed.

(** ** Structural equality *)

Lemma cls_eqb_eq (a b : cls) : cls_eqb a b = true <-> a = b.
Proof.
  split.
  - destruct a, b; cbn; try discriminate; try reflexivity.
    intros H. apply String.eqb_eq in H. now subst.
  - intros <-. destruct a; cbn; try reflexivity. apply String.eqb_refl.
Qed.

Lemma literal_eqb_eq (a b : literal) : literal_eqb a b = true -> a = b.
Proof.
  destruct a, b; cbn; try discriminate; try reflexivity; intros H.
  - apply Bool.eqb_prop in H. now subst.
  - apply Z.eqb_eq in H. now subst.
  - apply String.eqb_eq in H. now subst.
  - apply String.eqb_eq in H. now subst.
Qed.

Lemma list_eqb_eq {A} (same : A -> A -> bool) (l l' : list A) :
  Forall (fun x => forall y, same x y = true -> x = y) l ->
  list_eqb same l l' = true -> l = l'.
Proof.
  intros H. revert l'.
  induction H as [|x r Hx _ IH]; intros [|y r']; cbn; try discriminate;
    [reflexivity |].
  intros E. apply andb_true_iff in E as [E1 E2].
  f_equal; [now apply Hx | now apply IH].
Qed.

Lemma tspec_beq_eq (a b : tspec) : tspec_beq a b = true -> a = b.
Proof.
  revert b. induction a using tspec_induction; intros b; destruct b; cbn;
    try discriminate; try reflexivity; intros E.
  - apply cls_eqb_eq in E. now subst.
  - apply andb_true_iff in E as [E1 E2]. apply String.eqb_eq in E1.
    apply IHa in E2. now subst.
  - apply andb_true_iff in E as [E E3]. apply andb_true_iff in E as [E1 E2].
    apply Bool.eqb_prop in E1. apply cls_eqb_eq in E2.
    apply (list_eqb_eq _ _ _ H) in E3. now subst.
  - apply andb_true_iff in E as [E1 E2]. apply Bool.eqb_prop in E1.
    apply (list_eqb_eq _ _ _ H) in E2. now subst.
  - f_equal. apply (list_eqb_eq literal_eqb); [| exact E].
    apply Forall_forall. intros x _ y. apply literal_eqb_eq.
  - apply String.eqb_eq in E. now subst.
Qed.

(** ** Lists of types *)

Lemma all_new_nodup (l seen : list tspec) :
  NoDup (seen ++ l) ->
  (forall a b, In a (seen ++ l) -> In b (seen ++ l) ->
               type_eqb a b = true -> a = b) ->
  all_new seen l = true.
Proof.
  revert seen. induction l as [|x r IH]; intros seen Hnd Heq; [reflexivity |].
  cbn. apply andb_true_iff. split.
  - apply negb_true_iff. destruct (existsb (type_eqb x) seen) eqn:E; [| reflexivity].
    exfalso. apply existsb_exists in E as [s [Hs Hx]].
    assert (x = s).
    { apply Heq; [| | exact Hx]; apply in_or_app; [right; now left | now left]. }
    subst s. apply NoDup_remove_2 in Hnd. apply Hnd.
    apply in_or_app. now left.
  - apply IH; rewrite <- app_assoc; assumption.
Qed.

Lemma simple_unionable (t : tspec) :
  simple t = true -> unionable t = true /\ is_union t = false.
Proof. destruct t; cbn; try discriminate; auto. Qed.

Lemma map_m_ext {A B} (f g : A -> outcome B) (l : list A) :
  (forall x, f x = g x) -> map_m f l = map_m g l.
Proof.
  intros H. induction l as [|x r IH]; cbn; [reflexivity |]. now rewrite H, IH.
Qed.

Lemma map_m_map {A B C} (f : B -> outcome C) (g : A -> B) (l : list A) :
  map_m (fun x => f (g x)) l = map_m f (map g l).
Proof.
  induction l as [|x r IH]; cbn; [reflexivity |]. now rewrite IH.
Qed.

Lemma Forall2_In_l {A B} (P : A -> B -> Prop) (l : list A) (l' : list B) (x : A) :
  Forall2 P l l' -> In x l -> exists y, In y l' /\ P x y.
Proof.
  induction 1 as [|a b r r' Hab _ IH]; cbn; [contradiction |].
  intros [<- | Hin].
  - exists b. auto.
  - destruct (IH Hin) as [y [Hy HP]]. exists y. auto.
Qed.

(** What the proof of reflexivity shows of a value and its inferred
    type. *)

(** ** Substitution of type variables *)

Lemma dedup_subset {A} (same : A -> A -> bool) (l : list A) (x : A) :
  In x (dedup same l) -> In x l.
Proof.
  unfold dedup.
  assert (H : forall seen, In x (fold_left
               (fun seen x => if existsb (same x) seen then seen
                              else (seen ++ [x])%list) l seen) ->
             In x seen \/ In x l).
  { induction l as [|y r IH]; intros seen; cbn; [auto |].
    intros Hin. apply IH in Hin as [Hin | Hin]; [| auto].
    destruct (existsb (same y) seen); [auto |].
    apply in_app_or in Hin as [Hin | [<- | []]]; auto. }
  intros Hin. apply H in Hin as [[] | Hin]. exact Hin.
Qed.

(** *** Properties that unions inherit from their members *)

Section UnionClosed.

Variable Q : tspec -> Prop.
Hypothesis Qmembers : forall native l a, Q (TUnion native l) -> In a l -> Q a.
Hypothesis Qunion : forall native l, (forall a, In a l -> Q a) -> Q (TUnion native l).

Lemma union_args_closed (t a : tspec) : Q t -> In a (union_args t) -> Q a.
Proof.
  destruct t; cbn; try (now intros H [<- | []]).
  apply Qmembers.
Qed.

Lemma make_union_closed (native : bool) (l : list tspec) :
  (forall a, In a l -> Q a) -> Q (make_union native l).
Proof.
  intros H. destruct l as [|t [|t' r]]; cbn; try (now apply Qunion).
  apply H. now left.
Qed.

Lemma py_or_closed (a b u : tspec) :
  Q a -> Q b -> py_or a b = Return u -> Q u.
Proof.
  intros Ha Hb. unfold py_or.
  destruct (unionable a && unionable b); [| discriminate].
  intros [= <-]. apply make_union_closed. intros x Hx.
  apply dedup_subset in Hx. apply in_app_or in Hx as [Hx | Hx].
  - now apply (union_args_closed a).
  - now apply (union_args_closed b).
Qed.

Lemma fold_or_closed (f : tspec -> outcome tspec) (rest : list tspec)
    (acc u : tspec) :
  Q acc ->
  (forall a a', In a rest -> f a = Return a' -> Q a') ->
  fold_m (fun acc a => a' <- f a ;; py_or acc a') rest acc = Return u ->
  Q u.
Proof.
  revert acc. induction rest as [|x r IH]; intros acc Hacc Hf; cbn.
  - now intros [= <-].
  - destruct (f x) as [x'|] eqn:Ex; cbn [bind]; [| discriminate].
    destruct (py_or acc x') as [acc'|] eqn:Eo; [| discriminate].
    apply IH.
    + apply (py_or_closed acc x'); auto. apply (Hf x); auto. now left.
    + intros a a' Ha. apply Hf. now right.
Qed.

End UnionClosed.

Lemma operand_members (native : bool) (l : list tspec) (a : tspec) :
  operand (TUnion native l) -> In a l -> operand a.
Proof.
  intros [Hs _] Ha. cbn in Hs. apply andb_true_iff in Hs as [Hs Hu].
  rewrite forallb_forall in Hs, Hu. split; auto.
Qed.

Lemma operand_union (native : bool) (l : list tspec) :
  (forall a, In a l -> operand a) -> operand (TUnion native l).
Proof.
  intros H. split; [| reflexivity]. cbn. apply andb_true_iff.
  split; apply forallb_forall; intros a Ha; apply H, Ha.
Qed.

Lemma py_or_operands (a b : tspec) :
  operand a -> operand b -> exists u, py_or a b = Return u /\ operand u.
Proof.
  intros Ha Hb.
  assert (E : exists u, py_or a b = Return u).
  { unfold py_or. rewrite (proj2 Ha), (proj2 Hb). cbn [andb]. eauto. }
  destruct E as [u E]. exists u. split; [exact E |].
  exact (py_or_closed operand operand_members operand_union a b u Ha Hb E).
Qed.

Lemma fold_or_operands (f : tspec -> outcome tspec) (rest : list tspec)
    (acc : tspec) :
  operand acc ->
  (forall a, In a rest -> exists a', f a = Return a' /\ operand a') ->
  exists u,
    fold_m (fun acc a => a' <- f a ;; py_or acc a') rest acc = Return u
    /\ operand u.
Proof.
  revert acc. induction rest as [|a r IH]; intros acc Hacc H; cbn.
  - now exists acc.
  - destruct (H a (or_introl eq_refl)) as [a' [Ha' Hop]]. rewrite Ha'. cbn.
    destruct (py_or_operands acc a' Hacc Hop) as [u [Hu Hop']]. rewrite Hu.
    apply IH; [exact Hop' |]. intros x Hx. apply H. now right.
Qed.

(** The arguments a parametrized class is subscripted with again. *)
Lemma substituted_args_return (substitute : tspec -> outcome tspec)
    (nested : bool) (args : list tspec) (P : tspec -> tspec -> Prop) :
  (forall a, In a args -> exists a', substitute a = Return a' /\ P a a') ->
  (forall a, P a a) ->
  exists args',
    (if nested then substitute_result substitute args
     else map_m substitute args) = Return args'
    /\ Forall2 P args args'.
Proof.
  intros H Hrefl. destruct nested.
  - induction args as [|a r IH]; [now exists [] |].
    destruct r as [|b r'].
    + destruct (H a (or_introl eq_refl)) as [a' [E Ha]].
      exists [a']. cbn. rewrite E. split; [reflexivity | now repeat constructor].
    + destruct IH as [r'' [E HF]]; [intros x Hx; apply H; now right |].
      exists (a :: r''). change (substitute_result substitute (a :: b :: r'))
        with (match substitute_result substitute (b :: r') with
              | Return rest' => Return (a :: rest')
              | Raise e => Raise e
              end).
      rewrite E. split; [reflexivity | now constructor].
  - apply map_m_returns. apply Forall_forall. exact H.
Qed.

Lemma substituted_args_results (substitute : tspec -> outcome tspec)
    (nested : bool) (args args' : list tspec) :
  (if nested then substitute_result substitute args
   else map_m substitute args) = Return args' ->
  Forall2 (fun a a' => a' = a \/ substitute a = Return a') args args'.
Proof.
  destruct nested.
  - revert args'. induction args as [|a r IH]; intros args'.
    + intros [= <-]. constructor.
    + destruct r as [|b r'].
      * cbn. destruct (substitute a) as [a'|] eqn:E; [| discriminate].
        intros [= <-]. constructor; [now right | constructor].
      * change (substitute_result substitute (a :: b :: r'))
          with (match substitute_result substitute (b :: r') with
                | Return rest' => Return (a :: rest')
                | Raise e => Raise e
                end).
        destruct (substitute_result substitute (b :: r')) as [r''|];
          [| discriminate].
        intros [= <-]. constructor; [now left | now apply IH].
  - intros E. apply map_m_results in E.
    eapply Forall2_impl; [| exact E]. intros a a' H. now right.
Qed.

Lemma substitute_safe (mapping : list (string * tspec)) (t : tspec) :
  (forall name a, lookup name mapping = Some a -> operand a) ->
  safe_type t = true ->
  exists t', _substitute_type_variables t mapping = Return t'
             /\ safe_type t' = true
             /\ (unionable t = true -> unionable t' = true).
Proof.
  intros Hm.
  induction t as [| c | name s _ | native origin args IH | native args IH
                  | args | name | |] using tspec_induction; intros Hs;
    try (eexists; split; [reflexivity | split; [exact Hs | auto]]; fail).
  - (* parametrized class *)
    destruct args as [|a0 args'];
      [eexists; split; [reflexivity | split; [exact Hs | auto]] |].
    set (args := a0 :: args') in *.
    cbn [safe_type] in Hs. apply andb_true_iff in Hs as [Hs Ho].
    rewrite forallb_forall in Hs. rewrite Forall_forall in IH.
    destruct (substituted_args_return
                (fun a => _substitute_type_variables a mapping)
                (nests_parameters origin args) args
                (fun a a' => (safe_type a = true -> safe_type a' = true)
                             /\ (unionable a = true -> unionable a' = true)))
      as [args'' [Hmap HF]].
    { intros a Ha. destruct (IH a Ha (Hs a Ha)) as [a' [E [H1 H2]]].
      exists a'. auto. }
    { auto. }
    exists (subscript native origin args'').
    split; [| split; [| reflexivity]].
    + unfold args at 1. cbn [_substitute_type_variables]. fold args.
      now rewrite Hmap.
    + unfold subscript. cbn [safe_type]. apply andb_true_iff. split.
      * apply forallb_forall. intros a' Ha'.
        apply Forall2_flip in HF.
        destruct (Forall2_In_l _ _ _ a' HF Ha') as [a [Ha H]].
        apply H, Hs, Ha.
      * apply orb_true_iff in Ho as [Ho | Ho]; [now rewrite Ho |].
        apply orb_true_iff. right. rewrite forallb_forall in Ho.
        apply forallb_forall. intros a' Ha'.
        apply Forall2_flip in HF.
        destruct (Forall2_In_l _ _ _ a' HF Ha') as [a [Ha H]].
        apply H, Ho, Ha.
  - (* union *)
    destruct args as [|a0 rest];
      [eexists; split; [reflexivity | split; [exact Hs | auto]] |].
    cbn [safe_type] in Hs. apply andb_true_iff in Hs as [Hs Hu].
    rewrite forallb_forall in Hs, Hu. rewrite Forall_forall in IH.
    assert (Hop : forall a, In a (a0 :: rest) ->
                    exists a', _substitute_type_variables a mapping = Return a'
                               /\ operand a').
    { intros a Ha. destruct (IH a Ha (Hs a Ha)) as [a' [E [Hsafe Hun]]].
      exists a'. split; [exact E | split; [exact Hsafe | apply Hun, Hu, Ha]]. }
    destruct (Hop a0 (or_introl eq_refl)) as [a0' [E0 Hop0]].
    destruct (fold_or_operands (fun a => _substitute_type_variables a mapping)
                rest a0' Hop0) as [u [Eu [Hsafe Hun]]].
    { intros a Ha. apply Hop. now right. }
    exists u. split; [| split; [exact Hsafe | intros _; exact Hun]].
    cbn [_substitute_type_variables]. rewrite E0. cbn [bind]. exact Eu.
  - (* literal *)
    destruct args; eexists; (split; [reflexivity | split; [exact Hs | auto]]).
  - (* type variable *)
    cbn [_substitute_type_variables].
    destruct (lookup name mapping) as [a|] eqn:E.
    + exists a. destruct (Hm name a E). auto.
    + exists (TTypeVar name). auto.
Qed.

(** Substitution keeps a property that unions inherit from their
    members and that a parametrized class has when its arguments have
    it. *)
Lemma substitute_closed (Q : tspec -> Prop)
    (mapping : list (string * tspec)) :
  (forall native l a, Q (TUnion native l) -> In a l -> Q a) ->
  (forall native l, (forall a, In a l -> Q a) -> Q (TUnion native l)) ->
  (forall native origin args a, Q (TGeneric native origin args) -> In a args -> Q a) ->
  (forall native native' origin args args',
      Q (TGeneric native origin args) -> Forall Q args' ->
      List.length args' = List.length args ->
      Q (TGeneric native' origin args')) ->
  (forall name a, lookup name mapping = Some a -> Q a) ->
  forall t t',
    Q t -> _substitute_type_variables t mapping = Return t' -> Q t'.
Proof.
  intros Qmembers Qunion Qargs Qgeneric Hm.
  induction t as [| c | name s _ | native origin args IH | native args IH
                  | args | name | |] using tspec_induction; intros t' Hq;
    try (intros [= <-]; exact Hq).
  - cbn [_substitute_type_variables]. destruct args as [|first rest].
    { now intros [= <-]. }
    intros E. apply bind_returns in E as [args' [Em E]]. injection E as <-.
    apply substituted_args_results in Em.
    apply (Qgeneric native _ origin (first :: rest)); [exact Hq | |].
    + apply Forall_forall. intros a' Ha'. apply Forall2_flip in Em.
      destruct (Forall2_In_l _ _ _ a' Em Ha') as [a [Ha [-> | E]]].
      * apply (Qargs _ _ _ _ Hq Ha).
      * rewrite Forall_forall in IH. apply (IH a Ha a'); [| exact E].
        apply (Qargs _ _ _ _ Hq Ha).
    + symmetry. apply (Forall2_length Em).
  - cbn [_substitute_type_variables]. destruct args as [|first rest].
    { now intros [= <-]. }
    inversion IH as [|? ? Hfirst Hrest]; subst.
    intros E. apply bind_returns in E as [acc [Ea E]].
    apply (fold_or_closed Q Qmembers Qunion) in E; auto.
    + apply (Hfirst acc); [| exact Ea]. apply (Qmembers _ _ _ Hq). now left.
    + intros a a' Ha. rewrite Forall_forall in Hrest. apply Hrest; [exact Ha |].
      apply (Qmembers _ _ _ Hq). now right.
  - cbn [_substitute_type_variables]. destruct args; now intros [= <-].
  - cbn [_substitute_type_variables]. intros [= <-].
    destruct (lookup name mapping) as [a|] eqn:El; [| exact Hq].
    now apply (Hm name).
Qed.

(** ** The matcher returns *)

Lemma lookup_In {A} (key : string) (l : list (string * A)) (a : A) :
  lookup key l = Some a -> In (key, a) l.
Proof.
  induction l as [|[k x] r IH]; cbn; [discriminate |].
  destruct (String.eqb_spec k key) as [-> | _].
  - intros [= ->]. now left.
  - intros H. right. now apply IH.
Qed.

Lemma bindings_values {A} (ps : list (string * A)) (d : list (string * A))
    (name : string) (a : A) :
  lookup name (fold_left (fun d p => dict_set (fst p) (snd p) d) ps d) = Some a ->
  In a (map snd ps) \/ lookup name d = Some a.
Proof.
  revert d. induction ps as [|p ps IH]; intros d; cbn; [auto |].
  intros H. apply IH in H as [H | H]; [auto |].
  rewrite lookup_dict_set in H.
  destruct (String.eqb (fst p) name); [| auto].
  injection H as <-. auto.
Qed.

Lemma dict_get_then_returns (entries : list (pyval * pyval)) (key : string)
    (found : pyval -> outcome bool) (missing : bool) :
  (forall item, In item (map snd entries) -> exists b, found item = Return b) ->
  exists b, dict_get_then entries key found (Return missing) = Return b.
Proof.
  unfold dict_get_then. induction entries as [|[k x] r IH]; intros H.
  - now exists missing.
  - destruct (is_key key k).
    + apply H. now left.
    + apply IH. intros item Hi. apply H. now right.
Qed.

(** *** The equations of the matcher *)

Section Equations.

Variable classes : class_table.

Lemma matches_from_any (v : pyval) (unwrapped : bool) :
  matches_from classes v unwrapped TAny
  = if unwrapped then Raise TypeError else Return true.
Proof. destruct v; reflexivity. Qed.

Lemma matches_from_newtype (v : pyval) (unwrapped : bool) (name : string)
    (supertype : tspec) :
  matches_from classes v unwrapped (TNewType name supertype)
  = matches_from classes v true supertype.
Proof. destruct v; reflexivity. Qed.

Lemma matches_from_class (v : pyval) (unwrapped : bool) (c : cls) :
  matches_from classes v unwrapped (TClass c)
  = if is_dataclass classes c then
      if isinstance classes v c
      then _matches_dataclass_fields classes v c []
      else Return false
    else if _is_typed_dict_class classes c
    then matches_typed_dict_with classes (_matches classes) v c
    else instance_check classes v c.
Proof. destruct v; reflexivity. Qed.

Lemma matches_from_generic (v : pyval) (unwrapped native : bool) (origin : cls)
    (args : list tspec) :
  matches_from classes v unwrapped (TGeneric native origin args)
  = matches_parametrized_with classes (_matches classes) v origin args.
Proof. destruct v; reflexivity. Qed.

Lemma matches_from_union (v : pyval) (unwrapped native : bool)
    (args : list tspec) :
  matches_from classes v unwrapped (TUnion native args)
  = any_m (matches_from classes v false) args.
Proof. destruct v; reflexivity. Qed.

Lemma matches_from_literal (v : pyval) (unwrapped : bool) (args : list literal) :
  matches_from classes v unwrapped (TLiteral args)
  = Return (existsb (py_eq v) args).
Proof. destruct v; reflexivity. Qed.

Lemma matches_from_unrecognized (v : pyval) (unwrapped : bool) (t : tspec) :
  match t with TTypeVar _ | TEllipsis | TOther => True | _ => False end ->
  matches_from classes v unwrapped t = Return false.
Proof. destruct t; try contradiction; destruct v; reflexivity. Qed.

(** The statement [match origin, args] on a value: the items of the
    builtin container the value is, whatever its class. *)
Lemma matches_list (v : pyval) (native : bool) (element : tspec) :
  _matches classes v (TGeneric native CList [element])
  = match as_list v with
    | Some items => all_m (fun item => _matches classes item element) items
    | None => Return false
    end.
Proof.
  unfold _matches. rewrite matches_from_generic.
  destruct v; try reflexivity. destruct v; reflexivity.
Qed.

Lemma matches_set (v : pyval) (native : bool) (element : tspec) :
  _matches classes v (TGeneric native CSet [element])
  = match as_set v with
    | Some items => all_m (fun item => _matches classes item element) items
    | None => Return false
    end.
Proof.
  unfold _matches. rewrite matches_from_generic.
  destruct v; try reflexivity. destruct v; reflexivity.
Qed.

Lemma matches_frozenset (v : pyval) (native : bool) (element : tspec) :
  _matches classes v (TGeneric native CFrozenset [element])
  = match as_frozenset v with
    | Some items => all_m (fun item => _matches classes item element) items
    | None => Return false
    end.
Proof.
  unfold _matches. rewrite matches_from_generic.
  destruct v; try reflexivity. destruct v; reflexivity.
Qed.

Lemma matches_dict (v : pyval) (native : bool) (key_type value_type : tspec) :
  _matches classes v (TGeneric native CDict [key_type; value_type])
  = match as_dict v with
    | Some entries =>
        all_m (fun kv : pyval * pyval =>
                 let (key, val) := kv in
                 match _matches classes key key_type with
                 | Return true => _matches classes val value_type
                 | other => other
                 end) entries
    | None => Return false
    end.
Proof.
  unfold _matches. rewrite matches_from_generic.
  destruct v; try reflexivity. destruct v; reflexivity.
Qed.

Lemma matches_tuple_of (v : pyval) (native : bool) (element : tspec) :
  _matches classes v (TGeneric native CTuple [element; TEllipsis])
  = match as_tuple v with
    | Some items => all_m (fun item => _matches classes item element) items
    | None => Return false
    end.
Proof.
  unfold _matches. rewrite matches_from_generic.
  destruct v; try reflexivity. destruct v; reflexivity.
Qed.

Lemma matches_tuple (v : pyval) (native : bool) (first : tspec)
    (rest : list tspec) :
  match rest with [TEllipsis] => False | _ => True end ->
  _matches classes v (TGeneric native CTuple (first :: rest))
  = match as_tuple v with
    | Some items =>
        if Nat.eqb (List.length items) (List.length (first :: rest))
        then all2_m (_matches classes) items (first :: rest)
        else Return false
    | None => Return false
    end.
Proof.
  intros H. unfold _matches. rewrite matches_from_generic.
  destruct rest as [|second r].
  { destruct v; try reflexivity. destruct v; reflexivity. }
  destruct second, r; try contradiction;
    (destruct v; try reflexivity; destruct v; reflexivity).
Qed.

(** The tail of [_matches] for a parametrized class that no [case]
    takes. *)
Lemma matches_generic_tail (v : pyval) (native : bool) (origin : cls)
    (args : list tspec) :
  no_container_case origin args = true ->
  _matches classes v (TGeneric native origin args)
  = (is_instance <- instance_check classes v origin ;;
     if negb is_instance then Return false
     else if is_dataclass classes origin then
       _matches_dataclass_fields classes v origin
         (_bind_type_variables_for_generic classes origin args)
     else Return true).
Proof.
  intros H. unfold _matches. rewrite matches_from_generic.
  destruct origin; try reflexivity;
    destruct args as [|a [|b [|c r]]]; try discriminate H; reflexivity.
Qed.

End Equations.

(** *** Induction on the values a value holds *)

Lemma pyval_children_induction (P : pyval -> Prop) :
  (forall v, (forall x, In x (children v) -> P x) -> P v) ->
  forall v, P v.
Proof.
  intros H.
  assert (Hall : forall v x, In x (children v) -> P x).
  { induction v using pyval_induction; cbn; try contradiction.
    - intros x Hx. rewrite Forall_forall in H0. apply H, H0, Hx.
    - intros x Hx. rewrite Forall_forall in H0. apply H, H0, Hx.
    - intros x Hx. rewrite Forall_forall in H0. apply H, H0, Hx.
    - intros x Hx. rewrite Forall_forall in H0.
      apply in_app_or in Hx as [Hx | Hx];
        apply in_map_iff in Hx as [kv [<- Hin]]; apply H; now apply H0.
    - intros x Hx. rewrite Forall_forall in H0. apply H, H0, Hx.
    - intros x Hx. rewrite Forall_forall in H0.
      apply in_map_iff in Hx as [a [<- Hin]]. apply H. now apply H0.
    - intros x Hx. apply in_app_or in Hx as [Hx | Hx].
      + apply IHv. destruct v; cbn in Hx |- *; try contradiction; exact Hx.
      + rewrite Forall_forall in H0.
        apply in_map_iff in Hx as [a [<- Hin]]. apply H. now apply H0. }
  intros v. apply H, Hall.
Qed.

Lemma getattr_child (v : pyval) (field : string) (attr : pyval) :
  getattr v field = Some attr -> In attr (children v).
Proof.
  destruct v; try discriminate; cbn; intros H; apply lookup_In in H.
  - apply in_map_iff. now exists (field, attr).
  - apply in_or_app. right. apply in_map_iff. now exists (field, attr).
Qed.

Lemma as_list_children (v : pyval) (items : list pyval) (x : pyval) :
  as_list v = Some items -> In x items -> In x (children v).
Proof.
  destruct v; try discriminate; cbn.
  - now intros [= ->].
  - destruct v; try discriminate. intros [= ->] H. apply in_or_app. now left.
Qed.

Lemma as_set_children (v : pyval) (items : list pyval) (x : pyval) :
  as_set v = Some items -> In x items -> In x (children v).
Proof.
  destruct v; try discriminate; cbn.
  - now intros [= ->].
  - destruct v; try discriminate. intros [= ->] H. apply in_or_app. now left.
Qed.

Lemma as_frozenset_children (v : pyval) (items : list pyval) (x : pyval) :
  as_frozenset v = Some items -> In x items -> In x (children v).
Proof.
  destruct v; try discriminate; cbn.
  - now intros [= ->].
  - destruct v; try discriminate. intros [= ->] H. apply in_or_app. now left.
Qed.

Lemma as_tuple_children (v : pyval) (items : list pyval) (x : pyval) :
  as_tuple v = Some items -> In x items -> In x (children v).
Proof.
  destruct v; try discriminate; cbn.
  - now intros [= ->].
  - destruct v; try discriminate. intros [= ->] H. apply in_or_app. now left.
Qed.

Lemma as_dict_children (v : pyval) (entries : list (pyval * pyval))
    (k x : pyval) :
  as_dict v = Some entries -> In (k, x) entries ->
  In k (children v) /\ In x (children v).
Proof.
  assert (H : In (k, x) entries ->
              In k (map fst entries ++ map snd entries)
              /\ In x (map fst entries ++ map snd entries)).
  { intros Hin. split; apply in_or_app; [left | right];
      apply in_map_iff; now exists (k, x). }
  destruct v; try discriminate; cbn.
  - intros [= ->]. exact H.
  - destruct v; try discriminate. intros [= ->] Hin.
    destruct (H Hin). split; apply in_or_app; now left.
Qed.

Lemma complete_children (classes : class_table) (v x : pyval) :
  complete classes v = true -> In x (children v) -> complete classes x = true.
Proof.
  assert (Hitems : forall items, forallb (complete classes) items = true ->
                     In x items -> complete classes x = true).
  { intros items Hc Hx. rewrite forallb_forall in Hc. now apply Hc. }
  assert (Hentries : forall entries,
             forallb (fun kv : pyval * pyval =>
                        let (k, y) := kv in
                        complete classes k && complete classes y) entries = true ->
             In x (map fst entries ++ map snd entries) ->
             complete classes x = true).
  { intros entries Hc Hx. rewrite forallb_forall in Hc.
    apply in_app_or in Hx as [Hx | Hx];
      apply in_map_iff in Hx as [[k y] [<- Hin]];
      specialize (Hc _ Hin); now apply andb_true_iff in Hc. }
  assert (Hattrs : forall attrs : list (string * pyval),
             forallb (fun a => complete classes (snd a)) attrs = true ->
             In x (map snd attrs) -> complete classes x = true).
  { intros attrs Hc Hx. rewrite forallb_forall in Hc.
    apply in_map_iff in Hx as [a [<- Hin]]. now apply Hc. }
  destruct v; cbn [children items_of complete]; try contradiction; intros Hc Hx;
    try (now apply (Hitems items)); try (now apply (Hentries entries)).
  - apply andb_true_iff in Hc as [Hc _]. now apply (Hattrs attrs).
  - apply andb_true_iff in Hc as [Hc _]. apply andb_true_iff in Hc as [Hb Hc].
    apply in_app_or in Hx as [Hx | Hx]; [| now apply (Hattrs attrs)].
    destruct v; cbn in Hx; try contradiction;
      try (now apply (Hitems items)); now apply (Hentries entries).
Qed.

Lemma complete_fields (classes : class_table) (v : pyval) (c : cls)
    (field : string) :
  complete classes v = true ->
  In c (__mro__ classes (type_of v)) ->
  In field (fields classes c) ->
  exists attr, getattr v field = Some attr.
Proof.
  assert (H : forall key (attrs : list (string * pyval)),
             forallb (fun c => forallb (fun field => has_entry field attrs)
                                       (fields classes c))
                     (__mro__ classes (CUser key)) = true ->
             In c (__mro__ classes (CUser key)) ->
             In field (fields classes c) ->
             exists attr, lookup field attrs = Some attr).
  { intros key attrs Hc Hm Hf. rewrite forallb_forall in Hc.
    specialize (Hc _ Hm). rewrite forallb_forall in Hc. specialize (Hc _ Hf).
    unfold has_entry in Hc. destruct (lookup field attrs); [eauto | discriminate]. }
  destruct v; cbn [type_of complete getattr]; intros Hc Hm Hf;
    try (exfalso; cbn in Hm; destruct Hm as [<- | [<- | Hm]];
         try (destruct Hm as [<- | []]); try contradiction;
         cbn in Hf; contradiction).
  - apply andb_true_iff in Hc as [_ Hc]. now apply (H c0).
  - apply andb_true_iff in Hc as [_ Hc]. now apply (H c0).
Qed.

(** ** The matcher returns *)

Section Totality.

Variable classes : class_table.
Hypothesis Htable : safe_table classes = true.

Lemma class_of_safe (key : string) :
  exists type_hints,
    cd_type_hints (class_of classes key) = Return type_hints
    /\ Forall (fun h => safe_type (snd h) = true
                        /\ checkable classes (snd h) = true) type_hints
    /\ Forall (fun h => safe_type (snd h) = true
                        /\ checkable classes (snd h) = true)
              (cd_annotations (class_of classes key)).
Proof.
  unfold class_of. destruct (lookup key classes) as [d|] eqn:E.
  - apply lookup_In in E. unfold safe_table in Htable.
    rewrite forallb_forall in Htable. specialize (Htable _ E). cbn in Htable.
    apply andb_true_iff in Htable as [H1 H2].
    destruct (cd_type_hints d) as [type_hints|]; [| discriminate H1].
    exists type_hints. rewrite forallb_forall in H1, H2.
    split; [reflexivity |].
    split; apply Forall_forall; intros h Hh;
      [specialize (H1 h Hh) | specialize (H2 h Hh)];
      now apply andb_true_iff.
  - exists []. cbn. repeat split; constructor.
Qed.

Lemma type_hints_safe (c : cls) :
  exists type_hints,
    get_type_hints classes c = Return type_hints
    /\ forall field t, lookup field type_hints = Some t ->
         safe_type t = true /\ checkable classes t = true.
Proof.
  destruct c; try (exists []; split; [reflexivity | discriminate]).
  destruct (class_of_safe key) as [type_hints [E [Hs _]]].
  exists type_hints. split; [exact E |].
  intros field t H. apply lookup_In in H.
  rewrite Forall_forall in Hs. apply (Hs _ H).
Qed.

Lemma annotations_safe (c : cls) (key : string) (t : tspec) :
  In (key, t) (__annotations__ classes c) ->
  safe_type t = true /\ checkable classes t = true.
Proof.
  destruct c; cbn; try contradiction.
  intros H. destruct (class_of_safe key0) as [_ [_ [_ Hs]]].
  rewrite Forall_forall in Hs. apply (Hs _ H).
Qed.

Lemma bound_values (origin : cls) (args : list tspec) (name : string)
    (a : tspec) :
  lookup name (_bind_type_variables_for_generic classes origin args) = Some a ->
  In a args.
Proof.
  unfold _bind_type_variables_for_generic.
  destruct (__parameters__ classes origin) as [|p ps]; [discriminate |].
  intros H. apply bindings_values in H as [H | H]; [| discriminate].
  apply in_map_iff in H as [[k x] [<- Hin]].
  unfold zip in Hin. now apply in_combine_r in Hin.
Qed.

Lemma bound_operands (origin : cls) (args : list tspec) (name : string)
    (a : tspec) :
  Forall operand args ->
  lookup name (_bind_type_variables_for_generic classes origin args) = Some a ->
  operand a.
Proof.
  intros Hargs H. apply bound_values in H.
  rewrite Forall_forall in Hargs. now apply Hargs.
Qed.

Lemma substitute_checkable (mapping : list (string * tspec)) (t t' : tspec) :
  (forall name a, lookup name mapping = Some a -> checkable classes a = true) ->
  checkable classes t = true ->
  _substitute_type_variables t mapping = Return t' ->
  checkable classes t' = true.
Proof.
  intros Hm.
  apply (substitute_closed (fun t => checkable classes t = true) mapping).
  - intros native l a H Ha. cbn in H. rewrite forallb_forall in H. now apply H.
  - intros native l H. cbn. apply forallb_forall. exact H.
  - intros native origin args a H Ha. cbn in H.
    apply andb_true_iff in H as [_ H]. rewrite forallb_forall in H. now apply H.
  - intros native native' origin args args' H Hargs _. cbn in H |- *.
    apply andb_true_iff in H as [H _]. rewrite H. cbn [andb].
    apply forallb_forall. now rewrite Forall_forall in Hargs.
  - exact Hm.
Qed.

Lemma safe_matchable (t : tspec) :
  safe_type t = true -> matchable classes t = true.
Proof.
  induction t as [| c | name s IHs | native origin args IH | native args IH
                  | args | name | |] using tspec_induction;
    cbn [safe_type matchable]; try reflexivity; intros H.
  - apply andb_true_iff in H as [Hany Hs]. rewrite Hany. now apply IHs.
  - apply andb_true_iff in H as [Hs Ho].
    rewrite forallb_forall in Hs. rewrite Forall_forall in IH.
    destruct (is_dataclass classes origin) eqn:Hd.
    + assert (Hb : is_builtin_container origin = false)
        by (destruct origin; try discriminate Hd; reflexivity).
      rewrite Hb in Ho. cbn in Ho. rewrite forallb_forall in Ho.
      apply forallb_forall. intros a Ha. now rewrite (Hs a Ha), (Ho a Ha).
    + apply forallb_forall. intros a Ha. apply IH; auto.
  - apply andb_true_iff in H as [Hs _].
    rewrite forallb_forall in Hs. rewrite Forall_forall in IH.
    apply forallb_forall. intros a Ha. apply IH; auto.
Qed.

Section Step.

Variable recur : pyval -> tspec -> outcome bool.
Variable v : pyval.
Hypothesis Hcomplete : complete classes v = true.
Hypothesis Hrecur :
  forall x t, In x (children v) ->
              matchable classes t = true -> checkable classes t = true ->
              exists b, recur x t = Return b.

Lemma fields_return (c : cls) (bound : list (string * tspec)) :
  isinstance classes v c = true ->
  is_dataclass classes c = true ->
  (forall name a, lookup name bound = Some a ->
                  operand a /\ checkable classes a = true) ->
  exists b, matches_dataclass_fields_with classes recur v c bound = Return b.
Proof.
  intros Hi Hd Hb. destruct c; try discriminate Hd.
  unfold matches_dataclass_fields_with.
  destruct (type_hints_safe (CUser key)) as [type_hints [-> Hhints]].
  cbn [bind]. apply all_m_returns. intros field Hf.
  destruct (lookup field type_hints) as [annotated|] eqn:E; [| now exists true].
  destruct (Hhints _ _ E) as [Hsafe Hcheck].
  assert (Hc : exists concrete,
             (if nonempty bound
              then _substitute_type_variables annotated bound
              else Return annotated) = Return concrete
             /\ safe_type concrete = true
             /\ checkable classes concrete = true).
  { destruct (nonempty bound); [| now exists annotated].
    destruct (substitute_safe bound annotated (fun n a H => proj1 (Hb n a H)) Hsafe)
      as [t' [Ht' [Hs' _]]].
    exists t'. split; [exact Ht' | split; [exact Hs' |]].
    apply (substitute_checkable bound annotated t'); auto.
    intros n a H. apply (Hb n a H). }
  destruct Hc as [concrete [-> [Hcs Hcc]]]. cbn [bind].
  rewrite getattr_then_getattr.
  destruct (complete_fields classes v (CUser key) field Hcomplete) as [attr Ha];
    [| exact Hf |].
  { unfold isinstance in Hi. apply existsb_exists in Hi as [c' [Hin Hc']].
    apply cls_eqb_eq in Hc'. now subst c'. }
  rewrite Ha. apply Hrecur; [| now apply safe_matchable | exact Hcc].
  now apply (getattr_child v field).
Qed.

Lemma typed_dict_returns (c : cls) :
  exists b, matches_typed_dict_with classes recur v c = Return b.
Proof.
  rewrite matches_typed_dict_as_dict.
  destruct (as_dict v) as [entries|] eqn:Ed; [| now exists false].
  unfold matches_typed_dict_with.
  destruct (negb _); [now exists false |].
  destruct (existsb _ entries); [now exists false |].
  apply all_m_returns. intros [key ft] Ha.
  apply dict_get_then_returns. intros item Hi.
  apply in_map_iff in Hi as [[k x] [<- Hin]].
  destruct (annotations_safe c key ft Ha).
  apply Hrecur; [| now apply safe_matchable | assumption].
  now apply (as_dict_children v entries k x).
Qed.

Lemma parametrized_returns (origin : cls) (args : list tspec) :
  matchable classes (TGeneric true origin args) = true ->
  checkable classes (TGeneric true origin args) = true ->
  exists b, matches_parametrized_with classes recur v origin args = Return b.
Proof.
  cbn [matchable checkable]. intros Hm Hk.
  apply andb_true_iff in Hk as [Hr Hk].
  rewrite forallb_forall in Hk. apply negb_true_iff in Hr.
  assert (Hs : is_dataclass classes origin = false ->
               forall a, In a args -> matchable classes a = true).
  { intros Hd. rewrite Hd in Hm. now rewrite forallb_forall in Hm. }
  assert (Hgeneric :
            exists b,
              (is_instance <- instance_check classes v origin ;;
               if negb is_instance then Return false
               else if is_dataclass classes origin then
                 matches_dataclass_fields_with classes recur v origin
                   (_bind_type_variables_for_generic classes origin args)
               else Return true) = Return b).
  { assert (E : instance_check classes v origin
                = Return (isinstance classes v origin)).
    { destruct origin; try reflexivity. cbn in Hr |- *.
      destruct (cd_kind (class_of classes key)); try discriminate; reflexivity. }
    rewrite E. cbn [bind].
    destruct (isinstance classes v origin) eqn:Hi; cbn [negb]; [| now exists false].
    destruct (is_dataclass classes origin) eqn:Hd; [| now exists true].
    apply fields_return; [exact Hi | exact Hd |].
    intros name a H. apply bound_values in H.
    rewrite forallb_forall in Hm. specialize (Hm a H).
    apply andb_true_iff in Hm as [Hsafe Hu].
    split; [now split | now apply Hk]. }
  assert (Hitems : forall a items,
             is_dataclass classes origin = false ->
             In a args ->
             (forall x, In x items -> In x (children v)) ->
             exists b, all_m (fun item => recur item a) items = Return b).
  { intros a items Hd Ha Hsub. apply all_m_returns. intros x Hx.
    apply Hrecur; auto. }
  assert (Hpairs : forall items,
             is_dataclass classes origin = false ->
             (forall x, In x items -> In x (children v)) ->
             exists b, all2_m recur items args = Return b).
  { intros items Hd Hsub. apply all2_m_returns. intros x y Hx Hy.
    apply Hrecur; auto. }
  assert (Hsub : forall c base attrs items,
             v = VSub c base attrs -> items_of base = items ->
             forall x, In x items -> In x (children v)).
  { intros c base attrs items -> <- x Hx. cbn. apply in_or_app. now left. }
  assert (Hentries : forall k a entries,
             is_dataclass classes origin = false ->
             args = [k; a] ->
             (forall x, In x (map fst entries ++ map snd entries) ->
                        In x (children v)) ->
             exists b,
               all_m (fun kv : pyval * pyval =>
                        let (key, val) := kv in
                        match recur key k with
                        | Return true => recur val a
                        | other => other
                        end) entries = Return b).
  { intros k a entries Hd -> Hin. apply all_m_returns. intros [key val] Hkv.
    destruct (Hrecur key k) as [[|] Hk'].
    - apply Hin, in_or_app. left. apply in_map_iff. now exists (key, val).
    - apply (Hs Hd). cbn. tauto.
    - apply Hk. cbn. tauto.
    - rewrite Hk'.
      apply Hrecur; [| apply (Hs Hd); cbn; tauto | apply Hk; cbn; tauto].
      apply Hin, in_or_app. right. apply in_map_iff. now exists (key, val).
    - rewrite Hk'. now exists false. }
  unfold matches_parametrized_with.
  destruct origin; try exact Hgeneric;
    destruct args as [|a [|a' [|a'' r]]]; try exact Hgeneric;
    try (destruct a'; try exact Hgeneric);
    (destruct v eqn:Ev; try (now exists false);
     try (destruct p; try (now exists false)));
    try (apply (Hitems a); [reflexivity | cbn; tauto | cbn; tauto]);
    try (apply (Hitems a); [reflexivity | cbn; tauto |];
         eapply Hsub; [reflexivity | reflexivity]);
    try (eapply Hentries; [reflexivity | reflexivity | cbn; tauto]);
    try (eapply Hentries; [reflexivity | reflexivity |];
         eapply Hsub; [reflexivity | reflexivity]);
    try (destruct (Nat.eqb _ _); [| now exists false];
         apply Hpairs; [reflexivity |];
         first [ now intros x Hx
               | eapply Hsub; [reflexivity | reflexivity] ]).
Qed.

End Step.

End Totality.

Section MatcherReturns.

Variable classes : class_table.
Hypothesis Htable : safe_table classes = true.

Lemma matches_from_returns (v : pyval) :
  complete classes v = true ->
  forall t, matchable classes t = true -> checkable classes t = true ->
  forall unwrapped,
    (unwrapped = true -> is_any (strip_newtypes t) = false) ->
    exists b, matches_from classes v unwrapped t = Return b.
Proof.
  induction v as [v IHv] using pyval_children_induction. intros Hc.
  assert (Hrecur : forall x t, In x (children v) ->
                     matchable classes t = true -> checkable classes t = true ->
                     exists b, _matches classes x t = Return b).
  { intros x t Hx Ht Hk. apply (IHv x Hx); [| exact Ht | exact Hk | discriminate].
    now apply (complete_children classes v). }
  induction t as [| c | name s IHs | native origin args _ | native args IH
                  | args | name | |] using tspec_induction;
    intros Hs Hk unwrapped Hu.
  - rewrite matches_from_any. destruct unwrapped; [| now exists true].
    discriminate (Hu eq_refl).
  - rewrite matches_from_class.
    destruct (is_dataclass classes c) eqn:Hd.
    + destruct (isinstance classes v c) eqn:Hi; [| now exists false].
      apply (fields_return classes Htable (_matches classes) v Hc Hrecur);
        [exact Hi | exact Hd | discriminate].
    + destruct (_is_typed_dict_class classes c) eqn:Ht.
      * apply (typed_dict_returns classes Htable (_matches classes) v Hrecur).
      * cbn [checkable] in Hk. apply negb_true_iff in Hk.
        destruct c; cbn; eauto. cbn in Hd, Ht, Hk.
        destruct (cd_kind (class_of classes key)); try discriminate; eauto.
  - rewrite matches_from_newtype. cbn [matchable] in Hs.
    apply andb_true_iff in Hs as [Hany Hs]. apply negb_true_iff in Hany.
    apply IHs; auto.
  - rewrite matches_from_generic.
    apply (parametrized_returns classes Htable (_matches classes) v Hc Hrecur).
    + exact Hs.
    + exact Hk.
  - rewrite matches_from_union. apply any_m_returns.
    cbn [matchable checkable] in Hs, Hk.
    rewrite forallb_forall in Hs, Hk. rewrite Forall_forall in IH.
    intros a Ha. apply IH; [exact Ha | now apply Hs | now apply Hk | discriminate].
  - rewrite matches_from_literal. eauto.
  - rewrite matches_from_unrecognized; [eauto | exact I].
  - rewrite matches_from_unrecognized; [eauto | exact I].
  - rewrite matches_from_unrecognized; [eauto | exact I].
Qed.

End MatcherReturns.

(** ** The inferencer returns *)

Lemma fold_m_invariant {A B} (f : A -> B -> outcome A) (I : A -> Prop)
    (l : list B) (init : A) :
  I init ->
  (forall acc x, In x l -> I acc -> exists acc', f acc x = Return acc' /\ I acc') ->
  exists r, fold_m f l init = Return r /\ I r.
Proof.
  revert init. induction l as [|x r IH]; intros init Hi H; cbn.
  - now exists init.
  - destruct (H init x (or_introl eq_refl) Hi) as [acc' [E Hi']]. rewrite E.
    apply IH; [exact Hi' |]. intros acc y Hy. apply H. now right.
Qed.

Lemma lookup_app {A} (key : string) (d d' : list (string * A)) :
  lookup key (d ++ d') = match lookup key d with
                         | Some a => Some a
                         | None => lookup key d'
                         end.
Proof.
  induction d as [|[k a] r IH]; cbn; [reflexivity |].
  destruct (String.eqb k key); [reflexivity | exact IH].
Qed.

Section InferReturns.

Variable classes : class_table.
Variable repr_literal : literal -> string.
Variable repr_type : tspec -> string.

Local Abbreviation pretty := (_pretty_type classes repr_literal repr_type).
Local Abbreviation infer :=
  (_infer_type_spec_from_value classes repr_literal repr_type).
Local Abbreviation unionize := (_unionize classes repr_literal repr_type).

Lemma unionize_returns (types : list tspec) :
  Forall operand types ->
  exists u, unionize types = Return u /\ operand u.
Proof.
  intros H. destruct types as [|t0 types].
  { exists TAny. split; [reflexivity | split; reflexivity]. }
  rewrite (unionize_survivors classes repr_literal repr_type t0 types).
  assert (Hs : forall s, In s (first_seen pretty (t0 :: types)) -> operand s).
  { intros s Hin. apply first_seen_from_sound in Hin as [Hin _].
    rewrite Forall_forall in H. now apply H. }
  assert (Hne : first_seen pretty (t0 :: types) <> []).
  { unfold first_seen. cbn. discriminate. }
  destruct (first_seen pretty (t0 :: types)) as [|first [|second rest]].
  - congruence.
  - exists first. split; [reflexivity | apply Hs; now left].
  - apply (fold_or_operands (fun a => Return a) (second :: rest) first).
    + apply Hs. now left.
    + intros a Ha. exists a. split; [reflexivity | apply Hs; now right].
Qed.

Hypothesis Htable : safe_table classes = true.

Lemma infer_returns (v : pyval) :
  complete classes v = true ->
  exists t, infer v = Return t /\ simple t = true /\ safe_type t = true.
Proof.
  induction v as [v IHv] using pyval_children_induction. intros Hc.
  assert (Hitems : forall items, (forall x, In x items -> In x (children v)) ->
             exists types, map_m infer items = Return types
                           /\ Forall operand types).
  { intros items Hsub.
    destruct (map_m_returns infer items
                (fun _ t => simple t = true /\ safe_type t = true))
      as [types [E HF]].
    { apply Forall_forall. intros x Hx. apply IHv; [now apply Hsub |].
      apply (complete_children classes v); [exact Hc | now apply Hsub]. }
    exists types. split; [exact E |].
    apply Forall_forall. intros t Ht. apply Forall2_flip in HF.
    destruct (Forall2_In_l _ _ _ t HF Ht) as [x [_ [Hsimple Hsafe]]].
    split; [exact Hsafe | now apply simple_unionable]. }
  assert (Helement : forall items, (forall x, In x items -> In x (children v)) ->
             exists u, (element_types <- map_m infer items ;;
                        unionize element_types) = Return u /\ operand u).
  { intros items Hsub. destruct (Hitems items Hsub) as [types [E HF]].
    rewrite E. cbn [bind]. now apply unionize_returns. }
  assert (Hcollection : forall c items,
             (forall x, In x items -> In x (children v)) ->
             exists t, (element_types <- map_m infer items ;;
                        element <- unionize element_types ;;
                        Return (TGeneric true c [element])) = Return t
                       /\ simple t = true /\ safe_type t = true).
  { intros c items Hsub. destruct (Helement items Hsub) as [u [E [Hs Hu]]].
    exists (TGeneric true c [u]).
    destruct (map_m infer items); [| discriminate E]. cbn [bind] in E |- *.
    rewrite E. cbn. rewrite Hs, Hu. cbn. now rewrite orb_true_r. }
  assert (Hdict : forall entries : list (pyval * pyval),
             (forall x, In x (map fst entries ++ map snd entries) ->
                        In x (children v)) ->
             exists t,
               match entries with
               | _ :: _ =>
                   key_types <-
                     map_m (fun kv : pyval * pyval => let (k, _) := kv in infer k)
                           entries ;;
                   val_types <-
                     map_m (fun kv : pyval * pyval => let (_, x) := kv in infer x)
                           entries ;;
                   key <- unionize key_types ;;
                   val <- unionize val_types ;;
                   Return (TGeneric true CDict [key; val])
               | [] => Return (TGeneric true CDict [TAny; TAny])
               end = Return t
               /\ simple t = true /\ safe_type t = true).
  { intros entries Hsub. destruct entries as [|entry entries'].
    { exists (TGeneric true CDict [TAny; TAny]). repeat split. }
    set (entries := entry :: entries') in *.
    destruct (Helement (map fst entries)) as [ku [Ek [Hks _]]].
    { intros x Hx. apply Hsub, in_or_app. now left. }
    destruct (Helement (map snd entries)) as [vu [Ev [Hvs _]]].
    { intros x Hx. apply Hsub, in_or_app. now right. }
    exists (TGeneric true CDict [ku; vu]).
    rewrite (map_m_ext _ (fun kv => infer (fst kv)) entries)
      by (intros [k x]; reflexivity).
    rewrite (map_m_ext (fun kv : pyval * pyval => let (_, x) := kv in infer x)
               (fun kv => infer (snd kv)) entries)
      by (intros [k x]; reflexivity).
    rewrite (map_m_map infer fst entries), (map_m_map infer snd entries).
    destruct (map_m infer (map fst entries)); [| discriminate Ek].
    destruct (map_m infer (map snd entries)); [| discriminate Ev].
    cbn [bind] in Ek, Ev |- *. rewrite Ek, Ev. cbn. now rewrite Hks, Hvs. }
  assert (Htuple : forall items,
             (forall x, In x items -> In x (children v)) ->
             exists t, (element_types <- map_m infer items ;;
                        Return (TGeneric true CTuple element_types)) = Return t
                       /\ simple t = true /\ safe_type t = true).
  { intros items Hsub. destruct (Hitems items Hsub) as [types [E HF]].
    exists (TGeneric true CTuple types). rewrite E. cbn.
    split; [reflexivity | split; [reflexivity |]].
    rewrite andb_true_r. apply forallb_forall. rewrite Forall_forall in HF.
    intros t Ht. now apply HF. }
  assert (Hinstance : forall key,
             type_of v = CUser key ->
             exists t,
               (if is_dataclass classes (CUser key) then
                  match __parameters__ classes (CUser key) with
                  | (_ :: _) as parameters =>
                      type_hints <- get_type_hints classes (CUser key) ;;
                      inferred_mapping <-
                        fold_m (fun inferred_mapping field =>
                                  match lookup field type_hints with
                                  | Some (TTypeVar annotated) =>
                                      getattr_then v field (fun attr =>
                                        t <- infer attr ;;
                                        Return (dict_setdefault annotated t
                                                  inferred_mapping))
                                  | _ => Return inferred_mapping
                                  end)
                               (fields classes (CUser key)) [] ;;
                      if nonempty inferred_mapping
                         && forallb (fun tv => has_entry tv inferred_mapping)
                                    parameters
                      then
                        args <- map_m (fun tv =>
                                         match lookup tv inferred_mapping with
                                         | Some t => Return t
                                         | None => Raise KeyError
                                         end) parameters ;;
                        Return (TGeneric false (CUser key) args)
                      else Return (TClass (CUser key))
                  | [] => Return (TClass (CUser key))
                  end
                else Return (TClass (CUser key))) = Return t
               /\ simple t = true /\ safe_type t = true).
  { intros key Htype.
    destruct (is_dataclass classes (CUser key)) eqn:Hd;
      [| exists (TClass (CUser key)); repeat split].
    destruct (__parameters__ classes (CUser key)) as [|p ps] eqn:Hp;
      [exists (TClass (CUser key)); repeat split |].
    set (parameters := p :: ps) in *.
    destruct (type_hints_safe classes Htable (CUser key)) as [type_hints [-> _]].
    cbn [bind].
    destruct (fold_m_invariant
                (fun inferred_mapping field =>
                   match lookup field type_hints with
                   | Some (TTypeVar annotated) =>
                       getattr_then v field (fun attr =>
                         t <- infer attr ;;
                         Return (dict_setdefault annotated t inferred_mapping))
                   | _ => Return inferred_mapping
                   end)
                (fun m => forall name a, lookup name m = Some a -> operand a)
                (fields classes (CUser key)) [])
      as [mapping [E Hm]].
    { discriminate. }
    { intros acc field Hf Hacc.
      destruct (lookup field type_hints)
        as [[| | | | | | annotated | |]|]; try (now exists acc).
      rewrite getattr_then_getattr.
      destruct (complete_fields classes v (CUser key) field Hc) as [attr Ea];
        [rewrite Htype; now left | exact Hf |].
      rewrite Ea.
      destruct (Hitems [attr]) as [types [Et HF]].
      { intros x [<- | []]. now apply (getattr_child v field). }
      cbn in Et. destruct (infer attr) as [t|]; [| discriminate Et].
      injection Et as <-. cbn [bind].
      eexists. split; [reflexivity |].
      intros name a. unfold dict_setdefault.
      destruct (lookup annotated acc) eqn:El; [apply Hacc |].
      rewrite lookup_app. destruct (lookup name acc) eqn:En.
      - intros [= <-]. now apply (Hacc name).
      - cbn. destruct (String.eqb annotated name); [| discriminate].
        intros [= <-]. now inversion HF. }
    rewrite E. cbn [bind].
    destruct (nonempty mapping && forallb (fun tv => has_entry tv mapping) parameters)
      eqn:Hcond; [| exists (TClass (CUser key)); repeat split].
    apply andb_true_iff in Hcond as [_ Hall]. rewrite forallb_forall in Hall.
    destruct (map_m_returns
                (fun tv => match lookup tv mapping with
                           | Some t => Return t
                           | None => Raise KeyError
                           end) parameters (fun _ t => operand t))
      as [args [Ea HF]].
    { apply Forall_forall. intros tv Htv. specialize (Hall tv Htv).
      unfold has_entry in Hall.
      destruct (lookup tv mapping) as [t|] eqn:El; [| discriminate Hall].
      exists t. split; [reflexivity | now apply (Hm tv)]. }
    rewrite Ea. cbn [bind]. exists (TGeneric false (CUser key) args).
    split; [reflexivity | split; [reflexivity |]].
    cbn [safe_type]. apply andb_true_iff.
    assert (Hops : forall a, In a args -> operand a).
    { intros a Ha. apply Forall2_flip in HF.
      destruct (Forall2_In_l _ _ _ a HF Ha) as [tv [_ H]]. exact H. }
    split; [| apply orb_true_iff; right];
      apply forallb_forall; intros a Ha; now apply Hops. }
  assert (Hleft : forall c base (attrs : list (string * pyval)) x,
             v = VSub c base attrs -> In x (items_of base) -> In x (children v)).
  { intros c base attrs x -> Hx. cbn. apply in_or_app. now left. }
  destruct v as [| b | z | m e | s | s | items | items | items | entries
                 | items | key attrs | key base attrs].
  - exists (TClass CNoneType). repeat split.
  - exists (TClass CBool). repeat split.
  - exists (TClass CInt). repeat split.
  - exists (TClass CFloat). repeat split.
  - exists (TClass CStr). repeat split.
  - exists (TClass CBytes). repeat split.
  - exact (Hcollection CList items (fun x H => H)).
  - exact (Hcollection CSet items (fun x H => H)).
  - exact (Hcollection CFrozenset items (fun x H => H)).
  - exact (Hdict entries (fun x H => H)).
  - exact (Htuple items (fun x H => H)).
  - exact (Hinstance key eq_refl).
  - destruct base as [| b | z | m e | s | s | items | items | items | entries
                      | items | key' attrs' | key' base' attrs'];
      try exact (Hinstance key eq_refl);
      try (exists (TClass (CUser key)); repeat split; fail).
    + exact (Hcollection CList items (fun x H => Hleft _ _ _ x eq_refl H)).
    + exact (Hcollection CSet items (fun x H => Hleft _ _ _ x eq_refl H)).
    + exact (Hcollection CFrozenset items (fun x H => Hleft _ _ _ x eq_refl H)).
    + exact (Hdict entries (fun x H => Hleft _ _ _ x eq_refl H)).
    + exact (Htuple items (fun x H => Hleft _ _ _ x eq_refl H)).
Qed.

End InferReturns.

(** ** What the inferencer records for an instance of a dataclass *)

Section GenericInference.

Variable classes : class_table.
Variable repr_literal : literal -> string.
Variable repr_type : tspec -> string.

Local Abbreviation infer :=
  (_infer_type_spec_from_value classes repr_literal repr_type).

Variable instance : pyval.
Variable type_hints : list (string * tspec).

Local Abbreviation recorded :=
  (recorded_argument classes repr_literal repr_type instance type_hints).

Lemma inferred_mapping_lookup (fields : list string) :
  forall (acc mapping : list (string * tspec)),
    fold_m (fun inferred_mapping field =>
              match lookup field type_hints with
              | Some (TTypeVar annotated) =>
                  getattr_then instance field (fun attr =>
                    t <- infer attr ;;
                    Return (dict_setdefault annotated t inferred_mapping))
              | _ => Return inferred_mapping
              end) fields acc = Return mapping ->
    forall type_var,
      match lookup type_var mapping with
      | Some t => lookup type_var acc = Some t
                  \/ (lookup type_var acc = None /\ recorded fields type_var t)
      | None => lookup type_var acc = None
                /\ first_field_of type_hints type_var fields = None
      end.
Proof.
  induction fields as [|field rest IH]; intros acc mapping; cbn [fold_m].
  - intros [= <-] type_var. destruct (lookup type_var acc); auto.
  - destruct (lookup field type_hints) as [annotated|] eqn:Eh.
    2:{ intros H type_var. specialize (IH _ _ H type_var).
        unfold recorded_argument, first_field_of in *. cbn [find]. now rewrite Eh. }
    assert (Hskip : (forall name, annotated <> TTypeVar name) ->
              fold_m (fun inferred_mapping field =>
                match lookup field type_hints with
                | Some (TTypeVar annotated) =>
                    getattr_then instance field (fun attr =>
                      t <- infer attr ;;
                      Return (dict_setdefault annotated t inferred_mapping))
                | _ => Return inferred_mapping
                end) rest acc = Return mapping ->
              forall type_var,
                match lookup type_var mapping with
                | Some t => lookup type_var acc = Some t
                            \/ (lookup type_var acc = None
                                /\ recorded (field :: rest) type_var t)
                | None => lookup type_var acc = None
                          /\ first_field_of type_hints type_var (field :: rest)
                             = None
                end).
    { intros Hn H type_var. specialize (IH _ _ H type_var).
      unfold recorded_argument, first_field_of in *. cbn [find]. rewrite Eh.
      destruct annotated; try exact IH. now elim (Hn name). }
    destruct annotated as [| | | | | | annotated | |];
      try (apply Hskip; discriminate).
    clear Hskip. rewrite getattr_then_getattr.
    destruct (getattr instance field) as [attr|] eqn:Ea; [| discriminate].
    destruct (infer attr) as [t0|] eqn:Ei; [| discriminate]. cbn [bind].
    intros H type_var. specialize (IH _ _ H type_var).
    assert (Hl : lookup type_var (dict_setdefault annotated t0 acc)
                 = match lookup type_var acc with
                   | Some a => Some a
                   | None => if String.eqb annotated type_var then Some t0
                             else None
                   end).
    { unfold dict_setdefault. destruct (lookup annotated acc) eqn:El.
      - destruct (lookup type_var acc) eqn:Et; [reflexivity |].
        destruct (String.eqb_spec annotated type_var); [congruence | reflexivity].
      - rewrite lookup_app. cbn. destruct (lookup type_var acc); reflexivity. }
    rewrite Hl in IH. clear Hl.
    unfold recorded_argument, first_field_of in *. cbn [find]. rewrite Eh.
    destruct (lookup type_var mapping) as [t|].
    + destruct (lookup type_var acc) as [a|] eqn:Et.
      * left. destruct IH as [IH | [IH _]]; congruence.
      * right. split; [reflexivity |].
        destruct (String.eqb annotated type_var).
        -- destruct IH as [IH | [IH _]]; [| discriminate].
           injection IH as <-. now exists field, attr.
        -- destruct IH as [IH | [_ IH]]; [discriminate | exact IH].
    + destruct IH as [IH1 IH2].
      destruct (lookup type_var acc) as [a|]; [discriminate |].
      destruct (String.eqb annotated type_var); [discriminate |]. auto.
Qed.

End GenericInference.

Lemma infer_instance (classes : class_table)
    (repr_literal : literal -> string) (repr_type : tspec -> string)
    (v : pyval) (key : string) :
  type_of v = CUser key ->
  builtin_part v = None ->
  _infer_type_spec_from_value classes repr_literal repr_type v
  = (if is_dataclass classes (CUser key) then
       match __parameters__ classes (CUser key) with
       | (_ :: _) as parameters =>
           type_hints <- get_type_hints classes (CUser key) ;;
           inferred_mapping <-
             fold_m (fun inferred_mapping field =>
                       match lookup field type_hints with
                       | Some (TTypeVar annotated) =>
                           getattr_then v field (fun attr =>
                             t <- _infer_type_spec_from_value classes repr_literal
                                    repr_type attr ;;
                             Return (dict_setdefault annotated t inferred_mapping))
                       | _ => Return inferred_mapping
                       end)
                    (fields classes (CUser key)) [] ;;
           if nonempty inferred_mapping
              && forallb (fun tv => has_entry tv inferred_mapping) parameters
           then
             args <- map_m (fun tv => match lookup tv inferred_mapping with
                                      | Some t => Return t
                                      | None => Raise KeyError
                                      end) parameters ;;
             Return (TGeneric false (CUser key) args)
           else Return (TClass (CUser key))
       | [] => Return (TClass (CUser key))
       end
     else Return (TClass (CUser key))).
Proof.
  destruct v; try discriminate; cbn [type_of]; intros [= ->] Hb.
  - reflexivity.
  - destruct v; try discriminate Hb; reflexivity.
Qed.

Lemma infer_subclass_of_scalar (classes : class_table)
    (repr_literal : literal -> string) (repr_type : tspec -> string)
    (v b : pyval) (key : string) :
  type_of v = CUser key ->
  builtin_part v = Some b ->
  container_part v = None ->
  _infer_type_spec_from_value classes repr_literal repr_type v
  = Return (TClass (CUser key)).
Proof.
  destruct v; try discriminate; cbn [type_of]; intros [= ->].
  destruct v; try discriminate; reflexivity.
Qed.

Lemma dataclass_inference_cases (classes : class_table)
    (repr_literal : literal -> string) (repr_type : tspec -> string)
    (v : pyval) (key : string) (t : tspec) :
  type_of v = CUser key ->
  builtin_part v = None ->
  is_dataclass classes (CUser key) = true ->
  _infer_type_spec_from_value classes repr_literal repr_type v = Return t ->
  let parameters := __parameters__ classes (CUser key) in
  let fields := fields classes (CUser key) in
  (t = TClass (CUser key)
   /\ (parameters = []
       \/ exists type_hints type_var,
            get_type_hints classes (CUser key) = Return type_hints
            /\ In type_var parameters
            /\ first_field_of type_hints type_var fields = None))
  \/ (exists type_hints args,
         get_type_hints classes (CUser key) = Return type_hints
         /\ t = TGeneric false (CUser key) args
         /\ parameters <> []
         /\ Forall2 (recorded_argument classes repr_literal repr_type
                       v type_hints fields)
                    parameters args).
Proof.
  intros Htype Hb Hd. rewrite (infer_instance _ _ _ v key Htype Hb), Hd. cbv zeta.
  destruct (__parameters__ classes (CUser key)) as [|p ps] eqn:Hp.
  { intros [= <-]. left. auto. }
  set (parameters := p :: ps) in *.
  intros H. apply bind_returns in H as [type_hints [Hhints H]].
  apply bind_returns in H as [mapping [Hfold H]].
  pose proof (inferred_mapping_lookup classes repr_literal repr_type
                v type_hints (fields classes (CUser key)) [] mapping Hfold) as Hm.
  destruct (nonempty mapping) eqn:Hne; cbn [andb] in H.
  2:{ injection H as <-. left. split; [reflexivity |]. right.
      exists type_hints, p. split; [exact Hhints |]. split; [now left |].
      specialize (Hm p). destruct mapping; [| discriminate Hne].
      cbn in Hm. tauto. }
  destruct (forallb (fun tv => has_entry tv mapping) parameters) eqn:Hall.
  - apply bind_returns in H as [args [Hargs H]]. injection H as <-.
    right. exists type_hints, args. split; [exact Hhints |].
    split; [reflexivity |]. split; [discriminate |].
    apply map_m_results in Hargs.
    eapply Forall2_impl; [| exact Hargs]. intros tv arg Hl. cbv beta in Hl.
    specialize (Hm tv). destruct (lookup tv mapping) as [a|]; [| discriminate].
    injection Hl as <-. destruct Hm as [Hm | [_ Hm]]; [discriminate | exact Hm].
  - injection H as <-. left. split; [reflexivity |]. right.
    assert (Hex : existsb (fun tv => negb (has_entry tv mapping)) parameters = true).
    { clear -Hall. induction parameters as [|x r IH]; [discriminate |].
      cbn in *. destruct (has_entry x mapping); cbn in *; auto. }
    apply existsb_exists in Hex as [tv [Hin Htv]].
    exists type_hints, tv. split; [exact Hhints |]. split; [exact Hin |].
    specialize (Hm tv). unfold has_entry in Htv.
    destruct (lookup tv mapping); [discriminate | tauto].
Qed.

(** ** Matching against inferred types *)

Section Reflexivity.

Variable classes : class_table.
Variable repr_literal : literal -> string.
Variable repr_type : tspec -> string.

Local Abbreviation pretty := (_pretty_type classes repr_literal repr_type).
Local Abbreviation infer :=
  (_infer_type_spec_from_value classes repr_literal repr_type).
Local Abbreviation unionize := (_unionize classes repr_literal repr_type).

Lemma matches_any (v : pyval) : _matches classes v TAny = Return true.
Proof. destruct v; reflexivity. Qed.

Lemma matches_union (v : pyval) (native : bool) (args : list tspec) :
  _matches classes v (TUnion native args) = any_m (_matches classes v) args.
Proof. destruct v; reflexivity. Qed.

Lemma matches_newtype_strip (v : pyval) (name : string) (supertype : tspec) :
  _matches classes v (TNewType name supertype)
  = if is_any (strip_newtypes supertype) then Raise TypeError
    else _matches classes v (strip_newtypes supertype).
Proof.
  unfold _matches. rewrite matches_from_newtype.
  induction supertype as [| c | n s IHs | native origin args _ | native args _
                          | args | n | |] using tspec_induction;
    cbn [strip_newtypes is_any].
  - apply matches_from_any.
  - now rewrite !matches_from_class.
  - rewrite matches_from_newtype. exact IHs.
  - now rewrite !matches_from_generic.
  - now rewrite !matches_from_union.
  - now rewrite !matches_from_literal.
  - now rewrite !matches_from_unrecognized.
  - now rewrite !matches_from_unrecognized.
  - now rewrite !matches_from_unrecognized.
Qed.

Lemma matches_plain_class (v : pyval) (c : cls) :
  is_dataclass classes c = false ->
  _is_typed_dict_class classes c = false ->
  _matches classes v (TClass c) = instance_check classes v c.
Proof.
  intros Hd Ht. unfold _matches. now rewrite matches_from_class, Hd, Ht.
Qed.

Lemma plain_or_builtin_kinds (c : cls) :
  plain_or_builtin classes c = true ->
  is_dataclass classes c = false
  /\ _is_typed_dict_class classes c = false
  /\ is_protocol classes c = false
  /\ forall v, instance_check classes v c = Return (isinstance classes v c).
Proof.
  destruct c; cbn; auto. unfold is_plain_class.
  destruct (cd_kind (class_of classes key)); try discriminate; auto.
Qed.

Lemma matches_plain (v : pyval) (c : cls) :
  plain_or_builtin classes c = true ->
  _matches classes v (TClass c) = Return (isinstance classes v c).
Proof.
  intros H. destruct (plain_or_builtin_kinds c H) as [Hd [Ht [_ Hi]]].
  now rewrite (matches_plain_class v c Hd Ht).
Qed.

Lemma builtin_is_no_dataclass (c : cls) :
  is_builtin_container c = true -> is_dataclass classes c = false.
Proof. destruct c; cbn; congruence. Qed.

(** The matcher returns on a builtin container type when it returns on
    the arguments of that type. *)
Lemma container_returns (native : bool) (origin : cls) (args : list tspec) :
  is_builtin_container origin = true ->
  (forall a, In a args -> forall x, exists b, _matches classes x a = Return b) ->
  forall v, exists b, _matches classes v (TGeneric native origin args) = Return b.
Proof.
  intros Ho Hret v.
  assert (Htail : no_container_case origin args = true ->
            exists b, _matches classes v (TGeneric native origin args) = Return b).
  { intros Hn. rewrite (matches_generic_tail classes v native origin args Hn).
    rewrite (builtin_is_no_dataclass origin Ho).
    destruct origin; try discriminate Ho; cbn;
      match goal with
      | |- context [negb ?b] => destruct b; cbn; eauto
      end. }
  assert (Hitems : forall a items, In a args ->
            exists b, all_m (fun item => _matches classes item a) items = Return b).
  { intros a items Ha. apply all_m_returns. intros x _. now apply Hret. }
  destruct origin; try discriminate Ho.
  - destruct args as [|a [|a' r]]; try (apply Htail; reflexivity).
    rewrite matches_list. destruct (as_list v); [| eauto].
    apply Hitems. now left.
  - destruct args as [|a [|a' r]]; try (apply Htail; reflexivity).
    rewrite matches_set. destruct (as_set v); [| eauto].
    apply Hitems. now left.
  - destruct args as [|a [|a' r]]; try (apply Htail; reflexivity).
    rewrite matches_frozenset. destruct (as_frozenset v); [| eauto].
    apply Hitems. now left.
  - destruct args as [|a [|a' [|a'' r]]]; try (apply Htail; reflexivity).
    rewrite matches_dict. destruct (as_dict v); [| eauto].
    apply all_m_returns. intros [k x] _.
    destruct (Hret a (or_introl eq_refl) k) as [[|] Hk]; rewrite Hk; [| eauto].
    apply Hret. cbn. tauto.
  - destruct args as [|first rest]; [apply Htail; reflexivity |].
    assert (Hcase : rest = [TEllipsis]
                    \/ match rest with [TEllipsis] => False | _ => True end).
    { destruct rest as [|second r]; [now right |].
      destruct second, r; auto. }
    destruct Hcase as [-> | Hcase].
    + rewrite matches_tuple_of. destruct (as_tuple v); [| eauto].
      apply Hitems. now left.
    + rewrite (matches_tuple classes v native first rest Hcase).
      destruct (as_tuple v) as [items|]; [| eauto].
      destruct (Nat.eqb _ _); [| eauto].
      apply all2_m_returns. intros x y _ Hy. now apply Hret.
Qed.

Lemma matches_inferred_like_returns (t : tspec) :
  inferred_like classes t = true ->
  forall v, exists b, _matches classes v t = Return b.
Proof.
  induction t as [| c | | native origin args IH | native args IH | | | |]
    using tspec_induction;
    cbn [inferred_like]; try discriminate; intros Hs v.
  - exists true. apply matches_any.
  - rewrite matches_plain; [eauto |].
    destruct c; try reflexivity. exact Hs.
  - apply andb_true_iff in Hs as [Ho Hargs].
    rewrite forallb_forall in Hargs. rewrite Forall_forall in IH.
    apply container_returns; [exact Ho |].
    intros a Ha. apply IH; auto.
  - rewrite matches_union. apply any_m_returns.
    rewrite forallb_forall in Hs. rewrite Forall_forall in IH.
    intros a Ha. apply IH; auto.
Qed.

Lemma distinct_types_spec (types : list tspec) (a b : tspec) :
  distinct_types classes repr_literal repr_type types = true ->
  In a types -> In b types ->
  pretty a = pretty b \/ type_eqb a b = true ->
  a = b.
Proof.
  unfold distinct_types. intros H Ha Hb Hab.
  rewrite forallb_forall in H. specialize (H a Ha).
  rewrite forallb_forall in H. specialize (H b Hb).
  apply tspec_beq_eq.
  destruct Hab as [E | E].
  - rewrite E, String.eqb_refl in H. exact H.
  - rewrite E, orb_true_r in H. exact H.
Qed.

(** *** The shapes of a value *)

Lemma container_part_builtin (v b : pyval) :
  container_part v = Some b ->
  builtin_part v = Some b
  /\ match b with
     | VList _ | VSet _ | VFrozenset _ | VDict _ | VTuple _ => True
     | _ => False
     end.
Proof.
  unfold container_part. destruct (builtin_part v) as [b'|]; [| discriminate].
  destruct b'; try discriminate; intros [= <-]; auto.
Qed.

Lemma container_part_parts (v b : pyval) :
  container_part v = Some b -> parts v = items_of b.
Proof. unfold parts. now intros ->. Qed.

Lemma parts_children (v x : pyval) : In x (parts v) -> In x (children v).
Proof.
  unfold parts. destruct (container_part v) as [b|] eqn:E.
  - apply container_part_builtin in E as [E Hb].
    destruct v; cbn in E; try discriminate; try (injection E as <-; now cbn).
    destruct v; try discriminate E; injection E as <-; try contradiction; cbn;
      intros H; apply in_or_app; now left.
  - destruct v; cbn; try contradiction; auto.
    intros H. apply in_or_app. now right.
Qed.

Lemma infer_container_part (v b : pyval) :
  container_part v = Some b -> infer v = infer b.
Proof.
  intros H. apply container_part_builtin in H as [H Hb].
  destruct v; cbn in H; try discriminate; try (injection H as <-; reflexivity).
  destruct v; try discriminate H; injection H as <-; try contradiction;
    reflexivity.
Qed.

Lemma within_trans (x y v : pyval) : within x y -> within y v -> within x v.
Proof.
  intros Hxy Hyv. induction Hyv as [| z v Hin Hyz IH]; [exact Hxy |].
  now apply (within_part x z v).
Qed.

Lemma within_part_of (x v : pyval) : In x (parts v) -> within x v.
Proof. intros H. apply (within_part x x v H), within_here. Qed.

Lemma complete_within (v y : pyval) :
  complete classes v = true -> within y v -> complete classes y = true.
Proof.
  intros Hc Hw. induction Hw as [| z v Hin Hw IH]; [exact Hc |].
  apply IH. apply (complete_children classes v); [exact Hc |].
  now apply parts_children.
Qed.

(** A value that is no container is an instance of a user class, or a
    constant, whose class is its inferred type and accepts it. *)
Lemma instance_or_constant (v : pyval) :
  container_part v = None ->
  (exists key, type_of v = CUser key)
  \/ (exists c,
         infer v = Return (TClass c)
         /\ plain_or_builtin classes c = true
         /\ is_protocol classes c = false
         /\ inferred_like classes (TClass c) = true
         /\ _matches classes v (TClass c) = Return true).
Proof.
  destruct v; cbn; try discriminate; intros _;
    try (left; eexists; reflexivity);
    right; eexists; repeat split.
Qed.

Section Items.

(** Types and values on which the matcher returns. *)
Variable ok_type : tspec -> Prop.
Variable ok_value : pyval -> Prop.
Hypothesis Hreturns :
  forall t x, ok_type t -> ok_value x -> exists b, _matches classes x t = Return b.
Hypothesis Hany : ok_type TAny.
Hypothesis Hunion :
  forall native args, (forall a, In a args -> simple a = true /\ ok_type a) ->
                      ok_type (TUnion native args).
Hypothesis Hcontainer :
  forall origin args,
    is_builtin_container origin = true ->
    (forall a, In a args -> ok_type a) ->
    ok_type (TGeneric true origin args).

(** What the proof of reflexivity shows of a value and its inferred
    type. *)
Local Abbreviation agrees v t :=
  (simple t = true /\ ok_type t /\ _matches classes v t = Return true).

Lemma unionize_inferred (types : list tspec) :
  Forall (fun t => simple t = true /\ ok_type t) types ->
  distinct_types classes repr_literal repr_type types = true ->
  exists u,
    unionize types = Return u
    /\ ok_type u
    /\ forall t x, In t types -> ok_value x ->
         _matches classes x t = Return true ->
         _matches classes x u = Return true.
Proof.
  intros Hs Hd. rewrite Forall_forall in Hs.
  destruct types as [|t0 types].
  { exists TAny. split; [reflexivity | split; [exact Hany |]]. intros t x []. }
  rewrite (unionize_survivors classes repr_literal repr_type t0 types).
  set (l := t0 :: types) in *.
  pose proof (first_seen_from_nodup pretty l []) as Hnd.
  fold (first_seen pretty l) in Hnd.
  assert (Hsub : forall s, In s (first_seen pretty l) -> In s l).
  { intros s H. now apply first_seen_from_sound in H. }
  assert (Hall : forall t, In t l -> In t (first_seen pretty l)).
  { intros t Ht.
    destruct (first_seen_from_complete pretty l [] t Ht) as [Hc | [s [Hin E]]];
      [discriminate Hc |].
    fold (first_seen pretty l) in Hin.
    rewrite <- (distinct_types_spec l s t Hd (Hsub s Hin) Ht (or_introl E)).
    exact Hin. }
  destruct (first_seen pretty l) as [|first [|second rest]] eqn:Es.
  - destruct (Hall t0 (or_introl eq_refl)).
  - exists first. split; [reflexivity | split].
    + apply Hs, Hsub. now left.
    + intros t x Ht _ Hx. destruct (Hall t Ht) as [<- | []]. exact Hx.
  - set (survivors := first :: second :: rest) in *.
    assert (Hu : unionize l
                 = Return (TUnion (forallb native_operand survivors) survivors)).
    { apply (unionize_plain classes repr_literal repr_type l survivors Es).
      - cbn. lia.
      - apply forallb_forall. intros s Hin.
        apply simple_unionable, Hs, Hsub, Hin.
      - apply forallb_forall. intros s Hin. apply negb_true_iff.
        apply simple_unionable, Hs, Hsub, Hin.
      - apply all_new_nodup.
        + cbn [app]. apply (NoDup_map_inv pretty). exact Hnd.
        + cbn [app]. intros a b Ha Hb E.
          apply (distinct_types_spec l a b Hd); auto. }
    unfold l in Hu.
    rewrite (unionize_survivors classes repr_literal repr_type t0 types) in Hu.
    fold l in Hu. rewrite Es in Hu. fold survivors in Hu.
    exists (TUnion (forallb native_operand survivors) survivors).
    split; [exact Hu | split].
    + apply Hunion. intros s Hin. apply Hs, Hsub, Hin.
    + intros t x Ht Hok Hx. rewrite matches_union.
      apply (any_m_true _ _ t); [now apply Hall | exact Hx |].
      intros s Hin. apply Hreturns; [| exact Hok].
      apply Hs, Hsub, Hin.
Qed.

Lemma infer_items (items : list pyval) :
  (forall x, In x items -> exists t, infer x = Return t /\ agrees x t) ->
  exists types, map_m infer items = Return types
                /\ Forall2 (fun x t => agrees x t) items types.
Proof.
  intros H. apply map_m_returns. now apply Forall_forall.
Qed.

Lemma infer_element (items : list pyval) :
  (forall x, In x items ->
             ok_value x /\ exists t, infer x = Return t /\ agrees x t) ->
  distinct_item_types classes repr_literal repr_type items = true ->
  exists u,
    (element_types <- map_m infer items ;; unionize element_types) = Return u
    /\ ok_type u
    /\ forall x, In x items -> _matches classes x u = Return true.
Proof.
  intros H Hd.
  destruct (infer_items items) as [types [Hmap Hagree]];
    [intros x Hx; now apply H |].
  unfold distinct_item_types in Hd. rewrite Hmap in Hd.
  destruct (unionize_inferred types) as [u [Hu [Hok Hmatch]]]; [| exact Hd |].
  { apply Forall_forall. intros t Ht.
    apply Forall2_flip in Hagree.
    destruct (Forall2_In_l _ _ _ t Hagree Ht) as [x [_ Hx]]. tauto. }
  exists u. rewrite Hmap. cbn [bind]. split; [exact Hu | split; [exact Hok |]].
  intros x Hx. destruct (Forall2_In_l _ _ _ x Hagree Hx) as [t [Ht Hxt]].
  apply (Hmatch t x Ht); [now apply H | tauto].
Qed.

(** Reflexivity at a container, from reflexivity at its items. *)
Lemma infer_matches_container (v b : pyval) :
  container_part v = Some b ->
  (forall x, In x (items_of b) ->
             ok_value x /\ exists t, infer x = Return t /\ agrees x t) ->
  container_distinct classes repr_literal repr_type b = true ->
  exists t, infer v = Return t /\ agrees v t.
Proof.
  intros Hcp Hch Hd. rewrite (infer_container_part v b Hcp).
  apply container_part_builtin in Hcp as [Hbp Hb].
  destruct b as [| | | | | | items | items | items | entries | items | |];
    try contradiction; cbn [items_of container_distinct] in Hch, Hd.
  - destruct (infer_element items Hch Hd) as [u [Hu [Hok Hm]]].
    exists (TGeneric true CList [u]). split; [| split; [reflexivity | split]].
    + cbn [_infer_type_spec_from_value].
      destruct (map_m infer items) as [types|]; [| discriminate Hu].
      cbn [bind] in Hu |- *. now rewrite Hu.
    + apply Hcontainer; [reflexivity |]. now intros a [<- | []].
    + rewrite matches_list. unfold as_list. rewrite Hbp.
      apply all_m_true, Forall_forall, Hm.
  - destruct (infer_element items Hch Hd) as [u [Hu [Hok Hm]]].
    exists (TGeneric true CSet [u]). split; [| split; [reflexivity | split]].
    + cbn [_infer_type_spec_from_value].
      destruct (map_m infer items) as [types|]; [| discriminate Hu].
      cbn [bind] in Hu |- *. now rewrite Hu.
    + apply Hcontainer; [reflexivity |]. now intros a [<- | []].
    + rewrite matches_set. unfold as_set. rewrite Hbp.
      apply all_m_true, Forall_forall, Hm.
  - destruct (infer_element items Hch Hd) as [u [Hu [Hok Hm]]].
    exists (TGeneric true CFrozenset [u]).
    split; [| split; [reflexivity | split]].
    + cbn [_infer_type_spec_from_value].
      destruct (map_m infer items) as [types|]; [| discriminate Hu].
      cbn [bind] in Hu |- *. now rewrite Hu.
    + apply Hcontainer; [reflexivity |]. now intros a [<- | []].
    + rewrite matches_frozenset. unfold as_frozenset. rewrite Hbp.
      apply all_m_true, Forall_forall, Hm.
  - destruct entries as [|entry entries'].
    { exists (TGeneric true CDict [TAny; TAny]).
      split; [reflexivity | split; [reflexivity | split]].
      - apply Hcontainer; [reflexivity |]. now intros a [<- | [<- | []]].
      - rewrite matches_dict. unfold as_dict. now rewrite Hbp. }
    set (entries := entry :: entries') in *.
    apply andb_true_iff in Hd as [Hdk Hdv].
    destruct (infer_element (map fst entries)) as [ku [Hku [Hokk Hmk]]];
      [| exact Hdk |].
    { intros x Hx. apply Hch. apply in_or_app. now left. }
    destruct (infer_element (map snd entries)) as [vu [Hvu [Hokv Hmv]]];
      [| exact Hdv |].
    { intros x Hx. apply Hch. apply in_or_app. now right. }
    exists (TGeneric true CDict [ku; vu]).
    split; [| split; [reflexivity | split]].
    + unfold entries at 1. cbn [_infer_type_spec_from_value]. fold entries.
      rewrite (map_m_ext _ (fun kv => infer (fst kv)) entries)
        by (intros [k x]; reflexivity).
      rewrite (map_m_ext (fun kv : pyval * pyval => let (_, x) := kv in infer x)
                 (fun kv => infer (snd kv)) entries)
        by (intros [k x]; reflexivity).
      rewrite (map_m_map infer fst entries), (map_m_map infer snd entries).
      destruct (map_m infer (map fst entries)) as [kts|]; [| discriminate Hku].
      destruct (map_m infer (map snd entries)) as [vts|]; [| discriminate Hvu].
      cbn [bind] in Hku, Hvu |- *. now rewrite Hku, Hvu.
    + apply Hcontainer; [reflexivity |]. now intros a [<- | [<- | []]].
    + rewrite matches_dict. unfold as_dict. rewrite Hbp.
      apply all_m_true, Forall_forall. intros [k x] Hin.
      rewrite (Hmk k) by (apply in_map_iff; now exists (k, x)).
      apply Hmv. apply in_map_iff. now exists (k, x).
  - destruct (infer_items items) as [types [Hmap Hagree]];
      [intros x Hx; now apply Hch |].
    exists (TGeneric true CTuple types).
    split; [| split; [reflexivity | split]].
    + cbn [_infer_type_spec_from_value]. now rewrite Hmap.
    + apply Hcontainer; [reflexivity |]. intros t Ht.
      apply Forall2_flip in Hagree.
      destruct (Forall2_In_l _ _ _ t Hagree Ht) as [x [_ H]]. tauto.
    + destruct types as [|first rest].
      { inversion Hagree; subst.
        rewrite (matches_generic_tail classes v true CTuple [] eq_refl).
        cbn. unfold builtin_part in Hbp.
        destruct v; try discriminate Hbp; try reflexivity.
        destruct v; try discriminate Hbp; reflexivity. }
      rewrite matches_tuple.
      * unfold as_tuple. rewrite Hbp.
        pose proof (Forall2_length Hagree) as Hlen. rewrite Hlen, Nat.eqb_refl.
        apply all2_m_true; [exact Hlen |].
        eapply Forall2_impl; [| exact Hagree]. cbn. tauto.
      * destruct rest as [|second rest']; [exact I |].
        destruct second; try (destruct rest'; exact I).
        destruct rest'; [| exact I].
        inversion Hagree as [|? ? ? ? _ Hrest]; subst.
        inversion Hrest as [|? ? ? ? [Hsimple _] _]; subst.
        discriminate Hsimple.
Qed.

End Items.

Lemma plain_class_kinds (key : string) :
  is_plain_class classes key = true ->
  is_dataclass classes (CUser key) = false
  /\ _is_typed_dict_class classes (CUser key) = false.
Proof.
  unfold is_plain_class. cbn.
  destruct (cd_kind (class_of classes key)); try discriminate; auto.
Qed.

Lemma isinstance_own_class (v : pyval) (key : string) :
  type_of v = CUser key -> isinstance classes v (CUser key) = true.
Proof.
  intros H. unfold isinstance. rewrite H. cbn. now rewrite String.eqb_refl.
Qed.

Lemma collision_free_container (v b : pyval) :
  container_part v = Some b ->
  collision_free classes repr_literal repr_type v = true ->
  container_distinct classes repr_literal repr_type b = true
  /\ forall x, In x (items_of b) ->
       collision_free classes repr_literal repr_type x = true.
Proof.
  intros Hcp Hc.
  destruct v; cbn in Hcp; try discriminate Hcp; try injection Hcp as <-;
    cbn [collision_free container_distinct items_of] in *;
    try (container_node Hc; fail).
  destruct v; try discriminate Hcp; injection Hcp as <-;
    cbn [collision_free container_distinct items_of] in *;
    container_node Hc.
Qed.

Lemma conforming_container (v b : pyval) :
  container_part v = Some b ->
  conforming classes repr_literal repr_type v = true ->
  container_distinct classes repr_literal repr_type b = true
  /\ forall x, In x (items_of b) ->
       conforming classes repr_literal repr_type x = true.
Proof.
  intros Hcp Hc.
  destruct v; cbn in Hcp; try discriminate Hcp; try injection Hcp as <-;
    cbn [conforming container_distinct items_of] in *;
    try (container_node Hc; fail).
  destruct v; try discriminate Hcp; injection Hcp as <-;
    cbn [conforming container_distinct items_of] in *;
    container_node Hc.
Qed.

Lemma collision_free_instance (v : pyval) (key : string) :
  container_part v = None ->
  type_of v = CUser key ->
  collision_free classes repr_literal repr_type v = true ->
  is_plain_class classes key = true.
Proof.
  intros Hcp Ht.
  destruct v; try discriminate Ht; injection Ht as ->; [auto |].
  destruct v; try discriminate Hcp; auto.
Qed.

Lemma conforming_instance (v : pyval) (key : string) :
  container_part v = None ->
  type_of v = CUser key ->
  conforming classes repr_literal repr_type v = true ->
  instance_conforming classes repr_literal repr_type v key = true
  /\ forall x, In x (parts v) ->
       conforming classes repr_literal repr_type x = true.
Proof.
  intros Hcp Ht Hc.
  assert (H : forall attrs : list (string * pyval),
             forallb (fun a => conforming classes repr_literal repr_type (snd a))
                     attrs
             && instance_conforming classes repr_literal repr_type v key = true ->
             parts v = map snd attrs ->
             instance_conforming classes repr_literal repr_type v key = true
             /\ forall x, In x (parts v) ->
                  conforming classes repr_literal repr_type x = true).
  { intros attrs H ->. apply andb_true_iff in H as [Ha Hi]. split; [exact Hi |].
    rewrite forallb_forall in Ha. intros x Hx.
    apply in_map_iff in Hx as [a [<- Hin]]. now apply Ha. }
  destruct v; try discriminate Ht; injection Ht as ->.
  - apply (H attrs); [exact Hc | reflexivity].
  - destruct v; try discriminate Hcp;
      (apply (H attrs); [exact Hc | reflexivity]).
Qed.

(** Inference and matching at an instance of a class that is no
    dataclass. *)
Lemma infer_matches_plain_instance (v : pyval) (key : string) :
  container_part v = None ->
  type_of v = CUser key ->
  is_plain_class classes key = true ->
  infer v = Return (TClass (CUser key))
  /\ _matches classes v (TClass (CUser key)) = Return true.
Proof.
  intros Hcp Ht Hp. destruct (plain_class_kinds key Hp) as [Hd _]. split.
  - destruct (builtin_part v) as [b|] eqn:Eb.
    + now apply (infer_subclass_of_scalar _ _ _ v b).
    + now rewrite (infer_instance _ _ _ v key Ht Eb), Hd.
  - rewrite matches_plain by exact Hp.
    now rewrite (isinstance_own_class v key Ht).
Qed.

Lemma infer_matches_plain (v : pyval) :
  collision_free classes repr_literal repr_type v = true ->
  exists t, infer v = Return t
            /\ simple t = true /\ inferred_like classes t = true
            /\ _matches classes v t = Return true.
Proof.
  induction v as [v IH] using pyval_children_induction. intros Hc.
  destruct (container_part v) as [b|] eqn:Ecp.
  - destruct (collision_free_container v b Ecp Hc) as [Hd Hitems].
    apply (infer_matches_container (fun t => inferred_like classes t = true)
             (fun _ => True)) with (b := b);
      [ intros t x Ht _; now apply matches_inferred_like_returns
      | reflexivity
      | intros native args H; cbn [inferred_like]; apply forallb_forall;
        intros a Ha; now apply H
      | intros origin args Ho H; cbn [inferred_like]; rewrite Ho;
        apply forallb_forall; intros a Ha; now apply H
      | exact Ecp
      | intros x Hx; split; [exact I |]; apply (IH x);
        [ apply parts_children; now rewrite (container_part_parts v b Ecp)
        | now apply Hitems ]
      | exact Hd ].
  - destruct (instance_or_constant v Ecp) as [[key Ht] | [c [Hi [_ [_ [Hl Hm]]]]]].
    + pose proof (collision_free_instance v key Ecp Ht Hc) as Hp.
      destruct (infer_matches_plain_instance v key Ecp Ht Hp) as [Hi Hm].
      exists (TClass (CUser key)).
      split; [exact Hi | split; [reflexivity | split; [exact Hp | exact Hm]]].
    + exists (TClass c). auto.
Qed.

(** *** Instances of dataclasses *)

Lemma forall2b_spec {A B} (f : A -> B -> bool) (l : list A) (l' : list B) :
  forall2b f l l' = true <-> Forall2 (fun a b => f a b = true) l l'.
Proof.
  revert l'. induction l as [|a r IH]; intros [|b r']; cbn.
  - split; [constructor | reflexivity].
  - split; [discriminate | intros H; inversion H].
  - split; [discriminate | intros H; inversion H].
  - fold (forall2b f r r'). rewrite andb_true_iff, IH.
    split; [intros [H1 H2]; now constructor | intros H; now inversion H].
Qed.

Lemma matches_strip (v : pyval) (t : tspec) :
  is_any (strip_newtypes t) = false ->
  _matches classes v t = _matches classes v (strip_newtypes t).
Proof.
  destruct t; try reflexivity. cbn [strip_newtypes]. intros H.
  now rewrite matches_newtype_strip, H.
Qed.

Lemma as_list_parts (v : pyval) (items : list pyval) :
  as_list v = Some items -> parts v = items.
Proof.
  unfold as_list, parts, container_part.
  destruct (builtin_part v) as [[]|]; try discriminate. now intros [= ->].
Qed.

Lemma as_set_parts (v : pyval) (items : list pyval) :
  as_set v = Some items -> parts v = items.
Proof.
  unfold as_set, parts, container_part.
  destruct (builtin_part v) as [[]|]; try discriminate. now intros [= ->].
Qed.

Lemma as_frozenset_parts (v : pyval) (items : list pyval) :
  as_frozenset v = Some items -> parts v = items.
Proof.
  unfold as_frozenset, parts, container_part.
  destruct (builtin_part v) as [[]|]; try discriminate. now intros [= ->].
Qed.

Lemma as_tuple_parts (v : pyval) (items : list pyval) :
  as_tuple v = Some items -> parts v = items.
Proof.
  unfold as_tuple, parts, container_part.
  destruct (builtin_part v) as [[]|]; try discriminate. now intros [= ->].
Qed.

Lemma as_dict_parts (v : pyval) (entries : list (pyval * pyval)) :
  as_dict v = Some entries ->
  parts v = (map fst entries ++ map snd entries)%list.
Proof.
  unfold as_dict, parts, container_part.
  destruct (builtin_part v) as [[]|]; try discriminate. now intros [= ->].
Qed.

Lemma attribute_part (v : pyval) (field : string) (attr : pyval) :
  container_part v = None -> getattr v field = Some attr -> In attr (parts v).
Proof.
  unfold parts. intros ->.
  destruct v; try discriminate; cbn; intros H; apply lookup_In in H;
    apply in_map_iff; now exists (field, attr).
Qed.

Section Conforming.

Hypothesis Htable : safe_table classes = true.

(** What reflexivity gives at a value. *)
Local Abbreviation reflexive_at v :=
  (exists t, infer v = Return t
             /\ simple t = true /\ safe_type t = true
             /\ checkable classes t = true
             /\ _matches classes v t = Return true).

Lemma fits_matches (d : tspec) :
  forall v,
    (forall y, within y v -> complete classes y = true /\ reflexive_at y) ->
    matchable classes d = true ->
    checkable classes d = true ->
    fits classes repr_literal repr_type v d = true ->
    _matches classes v d = Return true.
Proof.
  induction d as [| c | name s IHs | native origin args IH | native args IH
                  | args | name | |] using tspec_induction;
    intros v Hv Hm Hk Hf;
    assert (Hself : forall d',
              match infer v with
              | Return t => tspec_beq t d'
              | Raise _ => false
              end = true -> _matches classes v d' = Return true)
      by (intros d' H;
          destruct (Hv v (within_here v)) as [_ [t [Hi [_ [_ [_ Hx]]]]]];
          rewrite Hi in H; apply tspec_beq_eq in H; now subst);
    cbn [fits] in Hf; apply orb_true_iff in Hf as [Hf | Hf];
    try (now apply Hself); try discriminate Hf; clear Hself.
  - apply matches_any.
  - apply andb_true_iff in Hf as [Hp Hi]. now rewrite matches_plain, Hi.
  - apply andb_true_iff in Hf as [Hany Hf]. apply negb_true_iff in Hany.
    cbn [matchable checkable] in Hm, Hk. apply andb_true_iff in Hm as [_ Hm].
    rewrite matches_newtype_strip, Hany, <- matches_strip by exact Hany.
    now apply IHs.
  - assert (Hargs : is_dataclass classes origin = false ->
              forall a, In a args ->
                matchable classes a = true /\ checkable classes a = true).
    { intros Hd a Ha. cbn [matchable checkable] in Hm, Hk. rewrite Hd in Hm.
      apply andb_true_iff in Hk as [_ Hk].
      rewrite forallb_forall in Hm, Hk. auto. }
    rewrite Forall_forall in IH.
    assert (Hitems : forall element items,
              is_dataclass classes origin = false ->
              In element args ->
              parts v = items ->
              forallb (fun item => fits classes repr_literal repr_type item element)
                      items = true ->
              all_m (fun item => _matches classes item element) items
              = Return true).
    { intros element items Hd He Hparts Hall.
      apply all_m_true, Forall_forall. intros x Hx.
      rewrite forallb_forall in Hall.
      destruct (Hargs Hd element He) as [Hme Hke].
      apply (IH element He); [| exact Hme | exact Hke | now apply Hall].
      intros y Hy. apply Hv, (within_trans y x v Hy), within_part_of.
      now rewrite Hparts. }
    destruct origin; try discriminate Hf.
    + destruct args as [|e [|e' r]]; try discriminate Hf.
      rewrite matches_list. destruct (as_list v) as [items|] eqn:E;
        [| discriminate Hf].
      apply Hitems;
        [reflexivity | now left | now apply as_list_parts | exact Hf].
    + destruct args as [|e [|e' r]]; try discriminate Hf.
      rewrite matches_set. destruct (as_set v) as [items|] eqn:E;
        [| discriminate Hf].
      apply Hitems;
        [reflexivity | now left | now apply as_set_parts | exact Hf].
    + destruct args as [|e [|e' r]]; try discriminate Hf.
      rewrite matches_frozenset. destruct (as_frozenset v) as [items|] eqn:E;
        [| discriminate Hf].
      apply Hitems;
        [reflexivity | now left | now apply as_frozenset_parts | exact Hf].
    + destruct args as [|k [|e [|e' r]]]; try discriminate Hf.
      rewrite matches_dict. destruct (as_dict v) as [entries|] eqn:E;
        [| discriminate Hf].
      apply as_dict_parts in E.
      apply all_m_true, Forall_forall. intros [key val] Hin.
      rewrite forallb_forall in Hf. specialize (Hf _ Hin). cbn [fst snd] in Hf.
      apply andb_true_iff in Hf as [Hfk Hfe].
      assert (Hpart : forall x, In x (map fst entries ++ map snd entries) ->
                forall y, within y x ->
                  complete classes y = true /\ reflexive_at y).
      { intros x Hx y Hy. apply Hv, (within_trans y x v Hy), within_part_of.
        now rewrite E. }
      destruct (Hargs eq_refl k (or_introl eq_refl)) as [Hmk Hkk].
      destruct (Hargs eq_refl e (or_intror (or_introl eq_refl))) as [Hme Hke].
      rewrite (IH k (or_introl eq_refl) key); [| | exact Hmk | exact Hkk | exact Hfk].
      * apply (IH e); [cbn; tauto | | exact Hme | exact Hke | exact Hfe].
        apply Hpart, in_or_app. right. apply in_map_iff. now exists (key, val).
      * apply Hpart, in_or_app. left. apply in_map_iff. now exists (key, val).
    + destruct args as [|first rest]; [discriminate Hf |].
      assert (Hcase : rest = [TEllipsis]
                      \/ match rest with [TEllipsis] => False | _ => True end).
      { destruct rest as [|second r]; [now right |].
        destruct second, r; auto. }
      destruct Hcase as [-> | Hcase].
      * rewrite matches_tuple_of. destruct (as_tuple v) as [items|] eqn:E;
          [| discriminate Hf].
        apply Hitems;
          [reflexivity | now left | now apply as_tuple_parts | exact Hf].
      * rewrite (matches_tuple classes v native first rest Hcase).
        assert (Hf' : match as_tuple v with
                      | Some items =>
                          forall2b (fun t item =>
                                      fits classes repr_literal repr_type item t)
                                   (first :: rest) items
                      | None => false
                      end = true).
        { destruct rest as [|second r]; [exact Hf |].
          destruct second, r; try exact Hf. contradiction. }
        clear Hf. destruct (as_tuple v) as [items|] eqn:E; [| discriminate Hf'].
        apply as_tuple_parts in E. apply forall2b_spec in Hf'.
        pose proof (Forall2_length Hf') as Hlen.
        rewrite <- Hlen, Nat.eqb_refl.
        apply all2_m_true; [now symmetry |].
        clear Hlen Hcase.
        assert (Hin : forall x, In x items -> In x (parts v))
          by (intros x Hx; now rewrite E).
        specialize (Hargs eq_refl).
        clear E Hitems Hm Hk. remember (first :: rest) as element_types eqn:Et.
        clear Et. revert Hin IH Hargs.
        induction Hf' as [|t x types items' Hx Hrest IHrest];
          intros Hin IH Hargs; constructor.
        -- destruct (Hargs t (or_introl eq_refl)) as [Hmt Hkt].
           apply (IH t (or_introl eq_refl)); [| exact Hmt | exact Hkt | exact Hx].
           intros y Hy. apply Hv, (within_trans y x v Hy), within_part_of, Hin.
           now left.
        -- apply IHrest.
           ++ intros y Hy. apply Hin. now right.
           ++ intros a Ha. apply IH. now right.
           ++ intros a Ha. apply Hargs. now right.
    + apply andb_true_iff in Hf as [Hp Hi].
      destruct (plain_class_kinds key Hp) as [Hd _].
      rewrite (matches_generic_class classes v native key args Hd).
      destruct (plain_or_builtin_kinds (CUser key) Hp) as [_ [_ [_ Hc]]].
      now rewrite Hc, Hi.
  - rewrite Forall_forall in IH.
    apply existsb_exists in Hf as [m [Hin Hfm]].
    cbn [matchable checkable] in Hm, Hk. rewrite forallb_forall in Hm, Hk.
    rewrite matches_union.
    apply (any_m_true _ _ m);
      [exact Hin | apply (IH m Hin); auto |].
    intros a Ha.
    apply (matches_from_returns classes Htable v
             (proj1 (Hv v (within_here v))) a (Hm a Ha) (Hk a Ha) false).
    discriminate.
  - unfold _matches. rewrite matches_from_literal. now rewrite Hf.
Qed.

Lemma dataclass_instance_matches (v : pyval) (key : string) (t : tspec) :
  type_of v = CUser key ->
  is_dataclass classes (CUser key) = true ->
  t = TClass (CUser key) \/ (exists args, t = TGeneric false (CUser key) args) ->
  _matches classes v t
  = _matches_dataclass_fields classes v (CUser key) (inferred_bindings classes t).
Proof.
  intros Ht Hd [-> | [args ->]].
  - unfold _matches.
    now rewrite matches_from_class, Hd, (isinstance_own_class v key Ht).
  - now rewrite (matches_generic_dataclass classes v false (CUser key) args Hd),
      (isinstance_own_class v key Ht).
Qed.

Lemma infer_matches_dataclass_instance (v : pyval) (key : string) :
  complete classes v = true ->
  container_part v = None ->
  type_of v = CUser key ->
  cd_kind (class_of classes key) = Dataclass ->
  fields_fit classes repr_literal repr_type v key = true ->
  (forall x, In x (parts v) ->
     forall y, within y x -> complete classes y = true /\ reflexive_at y) ->
  reflexive_at v.
Proof.
  intros Hc Hcp Ht Hk Hfit Hbelow. unfold fields_fit in Hfit.
  destruct (get_type_hints classes (CUser key)) as [type_hints|] eqn:Eh;
    [| discriminate Hfit].
  destruct (infer v) as [t|] eqn:Ei; [| discriminate Hfit].
  assert (Hd : is_dataclass classes (CUser key) = true) by (cbn; now rewrite Hk).
  destruct (infer_returns classes repr_literal repr_type Htable v Hc)
    as [t' [Ei' [Hsimple Hsafe]]].
  rewrite Ei in Ei'. injection Ei' as <-.
  assert (Hshape : t = TClass (CUser key)
                   \/ exists args, t = TGeneric false (CUser key) args
                                   /\ forallb (checkable classes) args = true).
  { destruct (builtin_part v) as [b|] eqn:Eb.
    - left. rewrite (infer_subclass_of_scalar _ _ _ v b key Ht Eb Hcp) in Ei.
      now injection Ei.
    - destruct (dataclass_inference_cases classes repr_literal repr_type v key t
                  Ht Eb Hd Ei) as [[-> _] | [hints [args [_ [-> [_ Hrec]]]]]];
        [now left | right].
      exists args. split; [reflexivity |]. apply forallb_forall. intros a Ha.
      apply Forall2_flip in Hrec.
      destruct (Forall2_In_l _ _ _ a Hrec Ha) as [tv [_ [field [attr [_ [Hg Hi]]]]]].
      destruct (Hbelow attr (attribute_part v field attr Hcp Hg) attr
                  (within_here attr)) as [_ [ta [Hia [_ [_ [Hka _]]]]]].
      rewrite Hi in Hia. now injection Hia as <-. }
  exists t. split; [reflexivity |]. split; [exact Hsimple |]. split; [exact Hsafe |].
  split.
  - destruct Hshape as [-> | [args [-> Hargs]]]; cbn; rewrite Hk; [reflexivity |].
    exact Hargs.
  - rewrite (dataclass_instance_matches v key t Ht Hd)
      by (destruct Hshape as [-> | [args [-> _]]]; eauto).
    apply (matches_dataclass_fields_true classes v (CUser key) _ type_hints Eh).
    intros field annotated Hin Hl. rewrite forallb_forall in Hfit.
    specialize (Hfit field Hin). cbv beta in Hfit. rewrite Hl in Hfit.
    destruct (concrete_field_type annotated (inferred_bindings classes t))
      as [concrete|] eqn:Ec; [| discriminate Hfit].
    destruct (getattr v field) as [attr|] eqn:Hg; [| discriminate Hfit].
    exists concrete, attr. split; [reflexivity | split; [reflexivity |]].
    assert (Hbound : forall name a,
               lookup name (inferred_bindings classes t) = Some a ->
               operand a /\ checkable classes a = true).
    { destruct Hshape as [-> | [args [-> Hargs]]]; [discriminate |].
      intros name a H. cbn [inferred_bindings] in H. apply bound_values in H.
      cbn [safe_type] in Hsafe. apply andb_true_iff in Hsafe as [Hs Hu].
      cbn in Hu. rewrite forallb_forall in Hs, Hu, Hargs. repeat split; auto. }
    assert (Hconcrete : safe_type concrete = true
                        /\ checkable classes concrete = true).
    { destruct (type_hints_safe classes Htable (CUser key))
        as [hints [Eh' Hhints]].
      rewrite Eh in Eh'. injection Eh' as <-.
      destruct (Hhints field annotated Hl) as [Hsa Hka].
      unfold concrete_field_type in Ec.
      destruct (nonempty (inferred_bindings classes t)).
      - destruct (substitute_safe (inferred_bindings classes t) annotated
                    (fun n a H => proj1 (Hbound n a H)) Hsa)
          as [t' [Et' [Hs' _]]].
        rewrite Ec in Et'. injection Et' as <-. split; [exact Hs' |].
        apply (substitute_checkable classes (inferred_bindings classes t)
                 annotated concrete); auto.
        intros n a H. apply (Hbound n a H).
      - injection Ec as <-. auto. }
    destruct Hconcrete as [Hcs Hcc].
    apply fits_matches;
      [| now apply safe_matchable | exact Hcc | exact Hfit].
    apply Hbelow. now apply (attribute_part v field attr Hcp).
Qed.

Lemma infer_matches_conforming (v : pyval) :
  complete classes v = true ->
  conforming classes repr_literal repr_type v = true ->
  forall y, within y v -> reflexive_at y.
Proof.
  induction v as [v IH] using pyval_children_induction. intros Hc Hconf.
  assert (Hparts : forall x, In x (parts v) ->
            conforming classes repr_literal repr_type x = true).
  { destruct (container_part v) as [b|] eqn:Ecp.
    - rewrite (container_part_parts v b Ecp).
      apply (conforming_container v b Ecp Hconf).
    - destruct (instance_or_constant v Ecp) as [[key Ht] | _].
      + apply (conforming_instance v key Ecp Ht Hconf).
      + unfold parts. rewrite Ecp. destruct v; try contradiction;
          destruct (conforming_instance _ _ Ecp eq_refl Hconf) as [_ H];
          unfold parts in H; rewrite Ecp in H; exact H. }
  assert (Hbelow : forall x, In x (parts v) ->
            forall y, within y x -> complete classes y = true /\ reflexive_at y).
  { intros x Hx y Hy.
    assert (Hcx : complete classes x = true)
      by (apply (complete_children classes v); [exact Hc | now apply parts_children]).
    split; [now apply (complete_within x) |].
    apply (IH x (parts_children v x Hx) Hcx (Hparts x Hx) y Hy). }
  assert (Hself : reflexive_at v).
  { destruct (container_part v) as [b|] eqn:Ecp.
    - destruct (conforming_container v b Ecp Hconf) as [Hd _].
      destruct (infer_matches_container
                  (fun t => safe_type t = true /\ checkable classes t = true)
                  (fun x => complete classes x = true)) with (v := v) (b := b)
        as [t [Hi [Hsimple [[Hsafe Hcheck] Hm]]]].
      + intros t x [Hs Hk] Hx.
        apply (matches_from_returns classes Htable x Hx t
                 (safe_matchable classes t Hs) Hk false).
        discriminate.
      + split; reflexivity.
      + intros native args H. split; cbn.
        * apply andb_true_iff. split; apply forallb_forall; intros a Ha;
            [apply H, Ha | apply simple_unionable, H, Ha].
        * apply forallb_forall. intros a Ha. apply H, Ha.
      + intros origin args Ho H. split; cbn.
        * rewrite Ho, andb_true_r. apply forallb_forall. intros a Ha. apply H, Ha.
        * apply andb_true_iff. split; [now destruct origin |].
          apply forallb_forall. intros a Ha. apply H, Ha.
      + exact Ecp.
      + intros x Hx. rewrite <- (container_part_parts v b Ecp) in Hx.
        destruct (Hbelow x Hx x (within_here x))
          as [Hcx [t [Hi [Hsimple [Hsafe [Hcheck Hm]]]]]].
        split; [exact Hcx |]. exists t. auto.
      + exact Hd.
      + exists t. auto.
    - destruct (instance_or_constant v Ecp)
        as [[key Ht] | [c [Hi [_ [Hp [_ Hm]]]]]].
      + destruct (conforming_instance v key Ecp Ht Hconf) as [Hinst _].
        unfold instance_conforming in Hinst.
        destruct (cd_kind (class_of classes key)) eqn:Hk; try discriminate Hinst.
        * destruct (infer_matches_plain_instance v key Ecp Ht) as [Hi Hm].
          { unfold is_plain_class. now rewrite Hk. }
          exists (TClass (CUser key)). repeat split; auto. cbn. now rewrite Hk.
        * now apply (infer_matches_dataclass_instance v key).
      + exists (TClass c). repeat split; auto. cbn. now rewrite Hp. }
  intros y Hy. inversion Hy as [| z v' Hin Hw]; subst; [exact Hself |].
  now apply (Hbelow z).
Qed.

End Conforming.


End Reflexivity.



(** It also fails when two classes print alike: the inferred type of a
    list with an instance of [a.Config] and one of [b.Config] names the
    first class only. *)
Lemma same_name_classes_not_reflexive :
  sample_infer (VList [VObj "a.Config" []; VObj "b.Config" []])
  = Return (TGeneric true CList [TClass (CUser "a.Config")])
  /\ sample_matches (VList [VObj "a.Config" []; VObj "b.Config" []])
       (TGeneric true CList [TClass (CUser "a.Config")])
     = Return false.
Proof.
  split; reflexivity.
Qed.

(** ** Validation *)

Section Validation.

Variable classes : class_table.
Variable repr_literal : literal -> string.
Variable repr_type : tspec -> string.

Local Abbreviation pretty := (_pretty_type classes repr_literal repr_type).
Local Abbreviation infer :=
  (_infer_type_spec_from_value classes repr_literal repr_type).
Local Abbreviation validate_ := (validate classes repr_literal repr_type).

Lemma validate_matched (v : pyval) (d : tspec) :
  _matches classes v d = Return true -> validate_ v d = Return tt.
Proof. unfold validate. now intros ->. Qed.

Lemma validate_mismatch (v : pyval) (d t : tspec) :
  _matches classes v d = Return false ->
  infer v = Return t ->
  validate_ v d = Raise (ValidationError (pretty d) (pretty t)).
Proof. unfold validate. now intros -> ->. Qed.

Lemma validate_matcher_error (v : pyval) (d : tspec) (e : exn) :
  _matches classes v d = Raise e -> validate_ v d = Raise e.
Proof. unfold validate. now intros ->. Qed.

Lemma validate_inferencer_error (v : pyval) (d : tspec) (e : exn) :
  _matches classes v d = Return false ->
  infer v = Raise e ->
  validate_ v d = Raise e.
Proof. unfold validate. now intros -> ->. Qed.

Lemma validate_complete (v : pyval) (d : tspec) :
  safe_table classes = true ->
  complete classes v = true ->
  _matches classes v d = Return false ->
  exists t,
    infer v = Return t
    /\ validate_ v d = Raise (ValidationError (pretty d) (pretty t)).
Proof.
  intros Ht Hc Hm.
  destruct (infer_returns classes repr_literal repr_type Ht v Hc) as [t [Hi _]].
  exists t. split; [exact Hi | now apply validate_mismatch].
Qed.

End Validation.




(** The other conditions are needed as well: the matcher raises
    [NameError] for an instance of [Fwd], whose type hints do not
    resolve, [TypeError] for the parametrized [TypedDict] [Row[int]],
    for the [Protocol] [Shape] and for a [NewType] of [Any]. *)
Lemma matcher_raises_otherwise :
  sample_matches (VObj "Fwd" [("x", VInt 1)]) (TClass (CUser "Fwd"))
  = Raise NameError
  /\ sample_matches (VDict [(VStr "cell", VInt 1)])
       (TGeneric false (CUser "Row") [TClass CInt])
     = Raise TypeError
  /\ sample_matches (VInt 1) (TClass (CUser "Shape")) = Raise TypeError
  /\ sample_matches (VInt 1) (TNewType "Anything" TAny) = Raise TypeError.
Proof.
  repeat split; reflexivity.
Qed.

(** C1: [validate] breaks what its docstring promises, [ValidationError]
    when the value does not match.  For an instance of [Lazy] whose
    field [cached] is not set yet, against [int], the matcher returns
    [False], the inferencer raises [AttributeError] on reading the
    field, and [validate] raises that [AttributeError], no
    [ValidationError]. *)
Theorem validate_raises_attribute_error :
  sample_matches (VObj "Lazy" []) (TClass CInt) = Return false
  /\ sample_infer (VObj "Lazy" []) = Raise AttributeError
  /\ sample_validate (VObj "Lazy" []) (TClass CInt) = Raise AttributeError.
Proof.
  repeat split; reflexivity.
Qed.

(** Where the inferencer returns, [validate] does as documented: it
    returns when the matcher returns [True], and raises
    [ValidationError] with the printed expected type, the printed
    inferred type and the message built from both when the matcher
    returns [False]; for [{"x": "nope"}] against [dict[str, int]] the
    titles are [dict[str,int]] and [dict[str,str]]. *)
Lemma validate_as_documented :
  (forall classes repr_literal repr_type v d,
      _matches classes v d = Return true ->
      validate classes repr_literal repr_type v d = Return tt)
  /\ (forall classes repr_literal repr_type v d t,
         _matches classes v d = Return false ->
         _infer_type_spec_from_value classes repr_literal repr_type v = Return t ->
         validate classes repr_literal repr_type v d
         = Raise (ValidationError
                    (_pretty_type classes repr_literal repr_type d)
                    (_pretty_type classes repr_literal repr_type t)))
  /\ (forall expected_title actual_title,
         ValidationError expected_title actual_title
         = EValidation
             (mkValidationError expected_title actual_title
                ("Expected value of type `" ++ expected_title ++ "`, got `"
                 ++ actual_title ++ "`")))
  /\ sample_validate (VDict [(VStr "x", VStr "nope")])
       (TGeneric true CDict [TClass CStr; TClass CInt])
     = Raise (EValidation
                (mkValidationError "dict[str,int]" "dict[str,str]"
                   "Expected value of type `dict[str,int]`, got `dict[str,str]`")).
Proof.
  split; [exact validate_matched |].
  split; [exact validate_mismatch |].
  split; reflexivity.
Qed.


(** * Further properties of the matcher *)

Lemma any_m_first {A} (f : A -> outcome bool) (l : list A) :
  any_m f l = Return true
  <-> exists before x after,
        l = (before ++ x :: after)%list
        /\ Forall (fun y => f y = Return false) before
        /\ f x = Return true.
Proof.
  induction l as [|a r IH]; cbn.
  - split; [discriminate |]. intros [before [x [after [E _]]]].
    now destruct before.
  - destruct (f a) as [[|]|e] eqn:Ea.
    + split; [| reflexivity]. intros _. exists [], a, r. now repeat split.
    + rewrite IH. split.
      * intros [before [x [after [E [Hb Hx]]]]].
        exists (a :: before), x, after. subst r. repeat split; auto.
      * intros [before [x [after [E [Hb Hx]]]]].
        destruct before as [|b before]; cbn in E; inversion E; subst.
        -- congruence.
        -- inversion Hb; subst. now exists before, x, after.
    + split; [discriminate |]. intros [before [x [after [E [Hb Hx]]]]].
      destruct before as [|b before]; cbn in E; inversion E; subst.
      * congruence.
      * inversion Hb; subst. congruence.
Qed.

Lemma any_m_false {A} (f : A -> outcome bool) (l : list A) :
  any_m f l = Return false <-> Forall (fun y => f y = Return false) l.
Proof.
  induction l as [|a r IH]; cbn.
  - split; [constructor | reflexivity].
  - destruct (f a) as [[|]|e] eqn:Ea.
    + split; [discriminate |]. intros H. inversion H; congruence.
    + rewrite IH. split; [now constructor |]. intros H. now inversion H.
    + split; [discriminate |]. intros H. inversion H; congruence.
Qed.

(** Over options that all return, [any] is a plain disjunction. *)
Lemma any_m_existsb {A} (f : A -> outcome bool) (l : list A) :
  (forall x, In x l -> exists b, f x = Return b) ->
  any_m f l
  = Return (existsb (fun x => match f x with Return true => true | _ => false end) l).
Proof.
  induction l as [|a r IH]; intros H; cbn; [reflexivity |].
  destruct (H a (or_introl eq_refl)) as [[|] E]; rewrite E; [reflexivity |].
  apply IH. intros x Hx. apply H. now right.
Qed.

Section Matcher.

Variable classes : class_table.

(** X1: a [NewType] is matched as the type its chain of [__supertype__]
    ends in, whatever the alias is called and however long the chain is;
    when that type is [typing.Any] the matcher does not accept the value
    but raises [TypeError]: the test [expected_type is Any] comes before
    the loop, and [typing.Any], a class since CPython 3.11, refuses
    [isinstance]. *)
Theorem newtype_matches_as_supertype (v : pyval) (name : string)
    (supertype : tspec) :
  _matches classes v (TNewType name supertype)
  = if is_any (strip_newtypes supertype) then Raise TypeError
    else _matches classes v (strip_newtypes supertype).
Proof. apply matches_newtype_strip. Qed.

(** X2: a union accepts a value exactly when one of its options accepts
    it and every option before that one returned [False]; it rejects the
    value exactly when every option rejects it.  The empty union rejects
    everything. *)
Theorem union_matching (v : pyval) (native : bool) (options : list tspec) :
  (_matches classes v (TUnion native options) = Return true
   <-> exists before option after,
         options = (before ++ option :: after)%list
         /\ Forall (fun t => _matches classes v t = Return false) before
         /\ _matches classes v option = Return true)
  /\ (_matches classes v (TUnion native options) = Return false
      <-> Forall (fun t => _matches classes v t = Return false) options)
  /\ _matches classes v (TUnion native []) = Return false.
Proof.
  rewrite matches_union. split; [apply any_m_first |].
  split; [apply any_m_false | now rewrite matches_union].
Qed.

(** X3: when every option of a union returns for the value, the verdict
    depends only on which options there are, not on their order nor on
    how often one is written, nor on how the union was built. *)
Theorem union_order_irrelevant (v : pyval) (native native' : bool)
    (options options' : list tspec) :
  (forall t, In t options <-> In t options') ->
  (forall t, In t options -> exists b, _matches classes v t = Return b) ->
  _matches classes v (TUnion native options)
  = _matches classes v (TUnion native' options').
Proof.
  intros Hsame Hret. rewrite !matches_union.
  rewrite (any_m_existsb _ options) by exact Hret.
  rewrite (any_m_existsb _ options')
    by (intros t Ht; apply Hret; now apply Hsame).
  f_equal. apply eq_true_iff_eq. rewrite !existsb_exists.
  split; intros [x [Hx E]]; exists x; split; auto; now apply Hsame.
Qed.

(** X4: [list[T]], [set[T]] and [frozenset[T]] accept exactly the
    instances of [list], [set] and [frozenset] (instances of their
    subclasses too) whose items all match [T]: the empty container is
    accepted whatever [T] is, and a value that is no such instance (a
    set for [list[T]], a tuple for [set[T]]) is rejected without a look
    at its items. *)
Theorem collection_matching (v : pyval) (native : bool) (element : tspec) :
  (_matches classes v (TGeneric native CList [element]) = Return true
   <-> exists items,
         as_list v = Some items
         /\ Forall (fun item => _matches classes item element = Return true)
                   items)
  /\ (_matches classes v (TGeneric native CSet [element]) = Return true
      <-> exists items,
            as_set v = Some items
            /\ Forall (fun item => _matches classes item element = Return true)
                      items)
  /\ (_matches classes v (TGeneric native CFrozenset [element]) = Return true
      <-> exists items,
            as_frozenset v = Some items
            /\ Forall (fun item => _matches classes item element = Return true)
                      items)
  /\ (as_list v = None ->
      _matches classes v (TGeneric native CList [element]) = Return false)
  /\ (as_set v = None ->
      _matches classes v (TGeneric native CSet [element]) = Return false)
  /\ (as_frozenset v = None ->
      _matches classes v (TGeneric native CFrozenset [element]) = Return false)
  /\ (as_list v = Some [] ->
      _matches classes v (TGeneric native CList [element]) = Return true).
Proof.
  rewrite matches_list, matches_set, matches_frozenset.
  repeat split;
    try (intros H;
         match type of H with
         | match ?a with _ => _ end = _ =>
             destruct a as [items|]; [| discriminate H]
         end;
         exists items; split; [reflexivity | now apply all_m_true]);
    try (intros [items [-> H]]; now apply all_m_true);
    try (now intros ->).
Qed.

(** X5: [dict[K, V]] accepts exactly the dictionaries (instances of
    subclasses of [dict] too) whose keys all match [K] and whose values
    all match [V]; the value of an entry is not examined once its key
    has been rejected, so an entry with a bad key makes the verdict
    [False] even where matching the value would raise. *)
Theorem dict_matching (v : pyval) (native : bool) (key_type value_type : tspec) :
  (_matches classes v (TGeneric native CDict [key_type; value_type])
   = Return true
   <-> exists entries,
         as_dict v = Some entries
         /\ Forall (fun kv =>
                      _matches classes (fst kv) key_type = Return true
                      /\ _matches classes (snd kv) value_type = Return true)
                   entries)
  /\ (forall key val entries,
         as_dict v = Some ((key, val) :: entries) ->
         _matches classes key key_type = Return false ->
         _matches classes v (TGeneric native CDict [key_type; value_type])
         = Return false)
  /\ (as_dict v = None ->
      _matches classes v (TGeneric native CDict [key_type; value_type])
      = Return false).
Proof.
  rewrite matches_dict. split; [| split].
  - split.
    + intros H. destruct (as_dict v) as [entries|]; [| discriminate H].
      exists entries. split; [reflexivity |]. apply all_m_true in H.
      eapply Forall_impl; [| exact H]. intros [k x] Hkx.
      cbn [fst snd]. cbn beta iota in Hkx.
      destruct (_matches classes k key_type) as [[|]|]; try discriminate.
      now split.
    + intros [entries [-> H]]. apply all_m_true.
      eapply Forall_impl; [| exact H]. intros [k x] [Hk Hx].
      cbn [fst snd] in Hk, Hx. cbn beta iota. now rewrite Hk.
  - intros key val entries -> Hk. cbn [all_m]. now rewrite Hk.
  - now intros ->.
Qed.


(** X6: a parametrized builtin container that fits no [case] of the
    matcher (a [list], [set] or [frozenset] with other than one
    argument, a [dict] with other than two, [tuple[()]]) is matched by
    the instance check on its origin alone: the arguments are ignored
    and the items of the value are not looked at. *)
Theorem container_without_case (v : pyval) (origin : cls) (args : list tspec) :
  is_builtin_container origin = true ->
  no_container_case origin args = true ->
  _matches classes v (TGeneric true origin args)
  = Return (isinstance classes v origin).
Proof.
  intros Hb Hn. rewrite (matches_generic_tail classes v true origin args Hn).
  rewrite (builtin_is_no_dataclass classes origin Hb).
  destruct origin; try discriminate Hb; cbn -[isinstance];
    now destruct (isinstance classes v _).
Qed.

End Matcher.

Lemma container_without_case_witness :
  is_builtin_container CList = true
  /\ no_container_case CList [TClass CInt; TClass CStr] = true
  /\ _matches sample_classes (VList [VNone])
       (TGeneric true CList [TClass CInt; TClass CStr])
     = Return (isinstance sample_classes (VList [VNone]) CList).
Proof.
  split; [reflexivity |]. split; [reflexivity |].
  apply (container_without_case sample_classes (VList [VNone]) CList
           [TClass CInt; TClass CStr]); reflexivity.
Defined.

Lemma dataclass_fields_accept (classes : class_table) (v : pyval) (c : cls)
    (bound : list (string * tspec)) :
  _matches_dataclass_fields classes v c bound = Return true
  <-> exists type_hints,
        get_type_hints classes c = Return type_hints
        /\ forall field annotated,
             In field (fields classes c) ->
             lookup field type_hints = Some annotated ->
             exists concrete attr,
               concrete_field_type annotated bound = Return concrete
               /\ getattr v field = Some attr
               /\ _matches classes attr concrete = Return true.
Proof.
  destruct (get_type_hints classes c) as [type_hints|e] eqn:Eh.
  - rewrite (matches_dataclass_fields_true classes v c bound type_hints Eh).
    split.
    + intros H. now exists type_hints.
    + intros [type_hints' [[= <-] H]]. exact H.
  - rewrite (matches_dataclass_fields_hints classes v c bound e Eh).
    split; [discriminate | now intros [type_hints [E _]]].
Qed.

(** X7: a dataclass given as a plain class accepts exactly the instances
    of the class (or of a subclass) in which every field that has a type
    hint holds a value matching the hint, the type hints of the class
    being resolved; fields without a hint are not looked at.  No type
    variable is substituted. *)
Theorem dataclass_matching (classes : class_table) (v : pyval) (c : cls) :
  is_dataclass classes c = true ->
  _matches classes v (TClass c) = Return true
  <-> isinstance classes v c = true
      /\ exists type_hints,
           get_type_hints classes c = Return type_hints
           /\ forall field annotated,
                In field (fields classes c) ->
                lookup field type_hints = Some annotated ->
                exists attr,
                  getattr v field = Some attr
                  /\ _matches classes attr annotated = Return true.
Proof.
  intros Hd. unfold _matches at 1. rewrite matches_from_class, Hd.
  destruct (isinstance classes v c).
  - rewrite dataclass_fields_accept. split.
    + intros [type_hints [Eh H]]. split; [reflexivity |].
      exists type_hints. split; [exact Eh |]. intros field annotated Hf Hl.
      destruct (H field annotated Hf Hl) as [concrete [attr [E [Ha Hm]]]].
      cbn in E. injection E as <-. now exists attr.
    + intros [_ [type_hints [Eh H]]]. exists type_hints. split; [exact Eh |].
      intros field annotated Hf Hl.
      destruct (H field annotated Hf Hl) as [attr [Ha Hm]].
      now exists annotated, attr.
  - split; [discriminate | now intros [H _]].
Qed.

Lemma dataclass_matching_witness :
  is_dataclass sample_classes (CUser "Point") = true
  /\ (_matches sample_classes (VObj "Point" [("x", VInt 1)])
        (TClass (CUser "Point")) = Return true
      <-> isinstance sample_classes (VObj "Point" [("x", VInt 1)])
            (CUser "Point") = true
          /\ exists type_hints,
               get_type_hints sample_classes (CUser "Point") = Return type_hints
               /\ forall field annotated,
                    In field (fields sample_classes (CUser "Point")) ->
                    lookup field type_hints = Some annotated ->
                    exists attr,
                      getattr (VObj "Point" [("x", VInt 1)]) field = Some attr
                      /\ _matches sample_classes attr annotated = Return true).
Proof.
  split; [reflexivity |].
  apply (dataclass_matching sample_classes (VObj "Point" [("x", VInt 1)])
           (CUser "Point")).
  reflexivity.
Defined.

(** [int | str] and [int | str | int] on the value [1]. *)
Lemma union_order_irrelevant_witness :
  _matches sample_classes (VInt 1) (TUnion true [TClass CStr; TClass CInt])
  = _matches sample_classes (VInt 1)
      (TUnion false [TClass CInt; TClass CStr; TClass CInt]).
Proof.
  apply (union_order_irrelevant sample_classes (VInt 1) true false
           [TClass CStr; TClass CInt] [TClass CInt; TClass CStr; TClass CInt]).
  - intros t. cbn. tauto.
  - intros t [<- | [<- | []]]; eexists; reflexivity.
Defined.

(** X8: a dataclass field annotated with a bare type variable that the
    expected type does not bind is matched against the type variable
    itself, which no value matches: a generic dataclass given without
    arguments, or with fewer arguments than it has type variables,
    accepts no value at all. *)
Theorem unbound_type_variable_rejects (classes : class_table) (v : pyval)
    (c : cls) (field name : string) :
  is_dataclass classes c = true ->
  In field (fields classes c) ->
  (forall type_hints,
      get_type_hints classes c = Return type_hints ->
      lookup field type_hints = Some (TTypeVar name)) ->
  _matches classes v (TClass c) <> Return true
  /\ forall native args,
       lookup name (_bind_type_variables_for_generic classes c args) = None ->
       _matches classes v (TGeneric native c args) <> Return true.
Proof.
  intros Hd Hf Hl.
  assert (Hfields : forall bound,
             lookup name bound = None ->
             _matches_dataclass_fields classes v c bound <> Return true).
  { intros bound Hb H. apply dataclass_fields_accept in H as [type_hints [Eh H]].
    destruct (H field (TTypeVar name) Hf (Hl type_hints Eh))
      as [concrete [attr [E [_ Hm]]]].
    unfold concrete_field_type in E.
    assert (concrete = TTypeVar name) as ->.
    { destruct (nonempty bound); cbn in E; [rewrite Hb in E |]; congruence. }
    unfold _matches in Hm. rewrite matches_from_unrecognized in Hm;
      [discriminate | exact I]. }
  split.
  - unfold _matches. rewrite matches_from_class, Hd.
    destruct (isinstance classes v c); [| discriminate].
    now apply Hfields.
  - intros native args Hb. rewrite matches_generic_dataclass by exact Hd.
    destruct (isinstance classes v c); [| discriminate].
    now apply Hfields.
Qed.

Lemma unbound_type_variable_rejects_witness :
  _matches sample_classes (VObj "Box" [("value", VInt 5)]) (TClass (CUser "Box"))
  <> Return true
  /\ forall native args,
       lookup "T" (_bind_type_variables_for_generic sample_classes
                     (CUser "Box") args) = None ->
       _matches sample_classes (VObj "Box" [("value", VInt 5)])
         (TGeneric native (CUser "Box") args) <> Return true.
Proof.
  apply (unbound_type_variable_rejects sample_classes
           (VObj "Box" [("value", VInt 5)]) (CUser "Box") "value" "T").
  - reflexivity.
  - cbn. now left.
  - now intros type_hints [= <-].
Defined.

(** X9: a [TypedDict] class accepts instances of [dict] only (instances
    of subclasses of [dict] too, which it takes as the dictionary they
    are): any other value, a list of the right key-value pairs included,
    is rejected, and rejected without an exception. *)
Theorem typed_dict_needs_dict (classes : class_table) (c : cls) (v : pyval) :
  _is_typed_dict_class classes c = true ->
  (as_dict v = None -> _matches classes v (TClass c) = Return false)
  /\ (forall entries,
         as_dict v = Some entries ->
         _matches classes v (TClass c)
         = _matches classes (VDict entries) (TClass c)).
Proof.
  intros Ht. rewrite !(matches_typed_dict classes _ c Ht).
  rewrite matches_typed_dict_as_dict. split.
  - now intros ->.
  - intros entries ->. now rewrite (matches_typed_dict classes _ c Ht).
Qed.

Lemma typed_dict_needs_dict_witness :
  _matches sample_classes
    (VList [VTuple [VStr "id"; VInt 1]; VTuple [VStr "name"; VStr "a"]])
    (TClass (CUser "User")) = Return false.
Proof.
  apply (proj1 (typed_dict_needs_dict sample_classes (CUser "User")
                  (VList [VTuple [VStr "id"; VInt 1];
                          VTuple [VStr "name"; VStr "a"]])
                  eq_refl)).
  reflexivity.
Defined.

(** X10: the builtin containers are covariant: when every value that
    matches [T] matches [T'] (and every value that matches [K] matches
    [K']), a value that matches [list[T]], [set[T]], [frozenset[T]],
    [tuple[T, ...]] or [dict[K, T]] matches the same container of [T']
    (and [K']). *)
Theorem containers_are_covariant (classes : class_table) (native : bool)
    (K K' T T' : tspec) (v : pyval) :
  (forall x, _matches classes x K = Return true ->
             _matches classes x K' = Return true) ->
  (forall x, _matches classes x T = Return true ->
             _matches classes x T' = Return true) ->
  (forall origin,
      is_list_set_frozenset origin = true ->
      _matches classes v (TGeneric native origin [T]) = Return true ->
      _matches classes v (TGeneric native origin [T']) = Return true)
  /\ (_matches classes v (TGeneric native CTuple [T; TEllipsis]) = Return true ->
      _matches classes v (TGeneric native CTuple [T'; TEllipsis]) = Return true)
  /\ (_matches classes v (TGeneric native CDict [K; T]) = Return true ->
      _matches classes v (TGeneric native CDict [K'; T']) = Return true).
Proof.
  intros HK HT.
  assert (Hall : forall items,
             all_m (fun item => _matches classes item T) items = Return true ->
             all_m (fun item => _matches classes item T') items = Return true).
  { intros items H. apply all_m_true. apply all_m_true in H.
    eapply Forall_impl; [| exact H]. exact HT. }
  split; [| split].
  - intros origin Ho. destruct origin; try discriminate Ho.
    + rewrite !matches_list. destruct (as_list v); auto.
    + rewrite !matches_set. destruct (as_set v); auto.
    + rewrite !matches_frozenset. destruct (as_frozenset v); auto.
  - rewrite !matches_tuple_of. destruct (as_tuple v); auto.
  - rewrite !matches_dict. destruct (as_dict v); auto.
    intros H. apply all_m_true. apply all_m_true in H.
    eapply Forall_impl; [| exact H]. intros [k x] Hkx. cbv beta iota in *.
    destruct (_matches classes k K) as [[|]|] eqn:Ek; try discriminate Hkx.
    rewrite (HK k Ek). now apply HT.
Qed.

(** Every value that matches [int] matches [int | str]. *)
Lemma containers_are_covariant_witness :
  _matches sample_classes (VList [VInt 1])
    (TGeneric true CList [TUnion true [TClass CInt; TClass CStr]])
  = Return true.
Proof.
  refine (proj1 (containers_are_covariant sample_classes true
                   (TClass CInt) (TUnion true [TClass CInt; TClass CStr])
                   (TClass CInt) (TUnion true [TClass CInt; TClass CStr])
                   (VList [VInt 1]) _ _)
                CList eq_refl eq_refl).
  - intros x H. rewrite matches_union. cbn [any_m]. now rewrite H.
  - intros x H. rewrite matches_union. cbn [any_m]. now rewrite H.
Defined.


(** * The exceptions that can leave the code *)

Lemma all_m_raises {A} (f : A -> outcome bool) (l : list A) (e : exn) :
  all_m f l = Raise e -> exists x, In x l /\ f x = Raise e.
Proof.
  induction l as [|a r IH]; cbn; [discriminate |].
  destruct (f a) as [[|]|e'] eqn:Ea.
  - intros H. destruct (IH H) as [x [Hx E]]. exists x. auto.
  - discriminate.
  - intros [= ->]. exists a. auto.
Qed.

Lemma any_m_raises {A} (f : A -> outcome bool) (l : list A) (e : exn) :
  any_m f l = Raise e -> exists x, In x l /\ f x = Raise e.
Proof.
  induction l as [|a r IH]; cbn; [discriminate |].
  destruct (f a) as [[|]|e'] eqn:Ea.
  - discriminate.
  - intros H. destruct (IH H) as [x [Hx E]]. exists x. auto.
  - intros [= ->]. exists a. auto.
Qed.

Lemma all2_m_raises {A B} (f : A -> B -> outcome bool) (l : list A)
    (l' : list B) (e : exn) :
  all2_m f l l' = Raise e -> exists x y, In x l /\ In y l' /\ f x y = Raise e.
Proof.
  revert l'. induction l as [|a r IH]; intros [|b r']; cbn; try discriminate.
  destruct (f a b) as [[|]|e'] eqn:Ea.
  - intros H. destruct (IH _ H) as [x [y [Hx [Hy E]]]]. exists x, y. auto.
  - discriminate.
  - intros [= ->]. exists a, b. auto.
Qed.

Lemma map_m_raises {A B} (f : A -> outcome B) (l : list A) (e : exn) :
  map_m f l = Raise e -> exists x, In x l /\ f x = Raise e.
Proof.
  induction l as [|a r IH]; cbn; [discriminate |].
  destruct (f a) as [y|e'] eqn:Ea.
  - destruct (map_m f r) as [ys|e'']; [discriminate |].
    intros [= ->]. destruct (IH eq_refl) as [x [Hx E]]. exists x. auto.
  - intros [= ->]. exists a. auto.
Qed.

Lemma fold_m_raises {A B} (f : A -> B -> outcome A) (l : list B) (acc : A)
    (e : exn) :
  fold_m f l acc = Raise e -> exists acc' x, In x l /\ f acc' x = Raise e.
Proof.
  revert acc. induction l as [|a r IH]; cbn; intros acc; [discriminate |].
  destruct (f acc a) as [acc'|e'] eqn:Ea.
  - intros H. destruct (IH _ H) as [acc'' [x [Hx E]]]. exists acc'', x. auto.
  - intros [= ->]. exists acc, a. auto.
Qed.

Lemma py_or_raises (a b : tspec) (e : exn) :
  py_or a b = Raise e -> e = TypeError.
Proof.
  unfold py_or. destruct (unionable a && unionable b); [discriminate |].
  now intros [= <-].
Qed.

Lemma substitute_result_raises (substitute : tspec -> outcome tspec)
    (args : list tspec) (e : exn) :
  substitute_result substitute args = Raise e ->
  exists a, In a args /\ substitute a = Raise e.
Proof.
  induction args as [|a [|b r] IH]; [discriminate | |].
  - cbn. destruct (substitute a) as [a'|e'] eqn:Ea; [discriminate |].
    intros [= ->]. exists a. split; [now left | exact Ea].
  - change (substitute_result substitute (a :: b :: r))
      with (match substitute_result substitute (b :: r) with
            | Return rest' => Return (a :: rest')
            | Raise e => Raise e
            end).
    destruct (substitute_result substitute (b :: r)) as [r'|e'] eqn:Er;
      [discriminate |].
    intros [= ->]. destruct (IH eq_refl) as [x [Hx E]].
    exists x. split; [now right | exact E].
Qed.

Lemma substitute_raises (mapping : list (string * tspec)) (t : tspec) (e : exn) :
  _substitute_type_variables t mapping = Raise e -> e = TypeError.
Proof.
  induction t as [| c | name s IHs | native origin args IH | native args IH
                  | args | name | |] using tspec_induction; cbn; try discriminate.
  - destruct args as [|first rest]; [discriminate |].
    rewrite Forall_forall in IH.
    destruct (nests_parameters origin (first :: rest)).
    + destruct (substitute_result _ (first :: rest)) as [ys|e'] eqn:Em; cbn;
        [discriminate |].
      intros [= ->]. apply substitute_result_raises in Em as [x [Hx E]].
      now apply (IH x Hx).
    + destruct (map_m _ (first :: rest)) as [ys|e'] eqn:Em; cbn; [discriminate |].
      intros [= ->]. apply map_m_raises in Em as [x [Hx E]].
      now apply (IH x Hx).
  - destruct args as [|first rest]; [discriminate |].
    inversion IH as [|? ? Hfirst Hrest]; subst.
    destruct (_substitute_type_variables first mapping) as [acc|e'] eqn:Ef;
      cbn.
    + intros H. apply fold_m_raises in H as [acc' [x [Hx E]]].
      destruct (_substitute_type_variables x mapping) as [x'|e'] eqn:Ex; cbn in E.
      * now apply py_or_raises in E.
      * injection E as ->. rewrite Forall_forall in Hrest. now apply (Hrest x Hx).
    + intros [= ->]. now apply Hfirst.
  - destruct args; discriminate.
Qed.

Lemma getattr_then_raises {R} (instance : pyval) (name : string)
    (k : pyval -> outcome R) (e : exn) :
  getattr_then instance name k = Raise e ->
  e = AttributeError
  \/ exists attr, In attr (children instance) /\ k attr = Raise e.
Proof.
  rewrite getattr_then_getattr.
  destruct (getattr instance name) as [attr|] eqn:E.
  - intros H. right. exists attr. split; [| exact H].
    now apply (getattr_child instance name).
  - intros [= <-]. now left.
Qed.

Lemma dict_get_then_raises (entries : list (pyval * pyval)) (key : string)
    (found : pyval -> outcome bool) (missing : bool) (e : exn) :
  dict_get_then entries key found (Return missing) = Raise e ->
  exists item, In item (map snd entries) /\ found item = Raise e.
Proof.
  unfold dict_get_then.
  induction entries as [|[k x] r IH]; cbn; [discriminate |].
  destruct (is_key key k).
  - intros H. exists x. auto.
  - intros H. destruct (IH H) as [item [Hi E]]. exists item. auto.
Qed.

Lemma instance_check_raises (classes : class_table) (v : pyval) (c : cls)
    (e : exn) :
  instance_check classes v c = Raise e -> e = TypeError.
Proof.
  destruct c; try discriminate. cbn.
  destruct (cd_kind (class_of classes key)); try discriminate; now intros [= <-].
Qed.

Section MatcherRaises.

Variable classes : class_table.

(** The exceptions that leave the matcher. *)
Local Abbreviation let_out e :=
  (e = AttributeError \/ e = TypeError \/ hints_raise classes e).

Section RaiseStep.

Variable recur : pyval -> tspec -> outcome bool.
Variable v : pyval.
Variable e : exn.
Hypothesis Hrecur :
  forall x t, In x (children v) -> recur x t = Raise e -> let_out e.

Lemma fields_raise (c : cls) (bound : list (string * tspec)) :
  matches_dataclass_fields_with classes recur v c bound = Raise e ->
  let_out e.
Proof.
  unfold matches_dataclass_fields_with.
  destruct (get_type_hints classes c) as [type_hints|e'] eqn:Eh; cbn [bind].
  2:{ intros [= <-]. right. right. now exists c. }
  intros H. apply all_m_raises in H as [field [_ H]].
  destruct (lookup field type_hints) as [annotated|]; [| discriminate].
  destruct (if nonempty bound then _ else _) as [concrete|e'] eqn:Ec;
    cbn [bind] in H.
  - apply getattr_then_raises in H as [-> | [attr [Ha H]]]; [now left |].
    now apply (Hrecur attr concrete).
  - injection H as ->. right. left.
    destruct (nonempty bound); [| discriminate].
    now apply substitute_raises in Ec.
Qed.

Lemma typed_dict_raises (c : cls) :
  matches_typed_dict_with classes recur v c = Raise e -> let_out e.
Proof.
  rewrite matches_typed_dict_as_dict.
  destruct (as_dict v) as [entries|] eqn:Ed; [| discriminate].
  unfold matches_typed_dict_with.
  destruct (negb _); [discriminate |].
  destruct (existsb _ entries); [discriminate |].
  intros H. apply all_m_raises in H as [[key ft] [_ H]].
  apply dict_get_then_raises in H as [item [Hi H]].
  apply (Hrecur item ft); [| exact H].
  apply in_map_iff in Hi as [[k x] [<- Hin]].
  now apply (as_dict_children v entries k x).
Qed.

Lemma parametrized_raises (origin : cls) (args : list tspec) :
  matches_parametrized_with classes recur v origin args = Raise e -> let_out e.
Proof.
  assert (Hgeneric :
            (is_instance <- instance_check classes v origin ;;
             if negb is_instance then Return false
             else if is_dataclass classes origin then
               matches_dataclass_fields_with classes recur v origin
                 (_bind_type_variables_for_generic classes origin args)
             else Return true) = Raise e ->
            let_out e).
  { destruct (instance_check classes v origin) as [b|e'] eqn:Ei; cbn [bind].
    - destruct (negb b); [discriminate |].
      destruct (is_dataclass classes origin); [| discriminate].
      apply fields_raise.
    - intros [= <-]. right. left. now apply instance_check_raises in Ei. }
  assert (Hitems : forall a items,
             (forall x, In x items -> In x (children v)) ->
             all_m (fun item => recur item a) items = Raise e -> let_out e).
  { intros a items Hsub H. apply all_m_raises in H as [x [Hx H]].
    apply (Hrecur x a); auto. }
  assert (Hpairs : forall types items,
             (forall x, In x items -> In x (children v)) ->
             all2_m recur items types = Raise e -> let_out e).
  { intros types items Hsub H. apply all2_m_raises in H as [x [y [Hx [Hy H]]]].
    apply (Hrecur x y); auto. }
  assert (Hentries : forall k a entries,
             (forall x, In x (map fst entries ++ map snd entries) ->
                        In x (children v)) ->
             all_m (fun kv : pyval * pyval =>
                      let (key, val) := kv in
                      match recur key k with
                      | Return true => recur val a
                      | other => other
                      end) entries = Raise e -> let_out e).
  { intros k a entries Hsub H. apply all_m_raises in H as [[key x] [Hin H]].
    destruct (recur key k) as [[|]|e'] eqn:Hk.
    - apply (Hrecur x a); [| exact H].
      apply Hsub, in_or_app. right. apply in_map_iff. now exists (key, x).
    - discriminate.
    - injection H as ->. apply (Hrecur key k); [| exact Hk].
      apply Hsub, in_or_app. left. apply in_map_iff. now exists (key, x). }
  assert (Hsub : forall c base attrs x,
             v = VSub c base attrs -> In x (items_of base) -> In x (children v)).
  { intros c base attrs x -> Hx. cbn. apply in_or_app. now left. }
  unfold matches_parametrized_with.
  destruct origin; try exact Hgeneric;
    destruct args as [|a [|a' [|a'' r]]]; try exact Hgeneric;
    try (destruct a'; try exact Hgeneric);
    (destruct v eqn:Ev; try discriminate;
     try (destruct p; try discriminate));
    try (apply (Hitems a); cbn; tauto);
    try (apply (Hitems a); intros x Hx; eapply Hsub; [reflexivity | exact Hx]);
    try (eapply Hentries; cbn; tauto);
    try (eapply Hentries; intros x Hx;
         eapply Hsub; [reflexivity | exact Hx]);
    try (destruct (Nat.eqb _ _); [| discriminate];
         first [ apply Hpairs; cbn; tauto
               | apply Hpairs; intros x Hx;
                 eapply Hsub; [reflexivity | exact Hx] ]).
Qed.

End RaiseStep.

Lemma matches_from_raises (v : pyval) :
  forall t unwrapped e,
    matches_from classes v unwrapped t = Raise e -> let_out e.
Proof.
  induction v as [v IHv] using pyval_children_induction.
  assert (Hrecur : forall e x t, In x (children v) ->
                     _matches classes x t = Raise e -> let_out e).
  { intros e x t Hx H. exact (IHv x Hx t false e H). }
  induction t as [| c | name s IHs | native origin args _ | native args IH
                  | args | name | |] using tspec_induction; intros unwrapped e.
  - rewrite matches_from_any. destruct unwrapped; [| discriminate].
    intros [= <-]. right. now left.
  - rewrite matches_from_class.
    destruct (is_dataclass classes c).
    + destruct (isinstance classes v c); [| discriminate].
      apply fields_raise. apply Hrecur.
    + destruct (_is_typed_dict_class classes c).
      * apply typed_dict_raises. apply Hrecur.
      * intros H. right. left. now apply instance_check_raises in H.
  - rewrite matches_from_newtype. apply IHs.
  - rewrite matches_from_generic. apply parametrized_raises. apply Hrecur.
  - rewrite matches_from_union. intros H.
    apply any_m_raises in H as [a [Ha H]].
    rewrite Forall_forall in IH. exact (IH a Ha false e H).
  - rewrite matches_from_literal. discriminate.
  - rewrite matches_from_unrecognized; [discriminate | exact I].
  - rewrite matches_from_unrecognized; [discriminate | exact I].
  - rewrite matches_from_unrecognized; [discriminate | exact I].
Qed.

End MatcherRaises.

(** X11: whatever the value and the expected type are, the only
    exceptions the matcher lets out are [AttributeError] (a dataclass
    field that the instance lacks), [TypeError] (an instance check on
    [typing.Any] behind a [NewType], on a [Protocol] or on a
    parametrized [TypedDict], a type substituted into a union that
    supports no [|]) and what [typing.get_type_hints] raises for a
    class (such as [NameError] for an annotation that names nothing);
    of itself it raises no [KeyError] and no [IndexError]. *)
Theorem matcher_raises_only (classes : class_table) (v : pyval) (t : tspec)
    (e : exn) :
  _matches classes v t = Raise e ->
  e = AttributeError \/ e = TypeError \/ hints_raise classes e.
Proof. apply matches_from_raises. Qed.

(** An instance of [Fwd] against [Fwd]. *)
Lemma matcher_raises_only_witness :
  NameError = AttributeError \/ NameError = TypeError
  \/ hints_raise sample_classes NameError.
Proof.
  apply (matcher_raises_only sample_classes (VObj "Fwd" [("x", VInt 1)])
           (TClass (CUser "Fwd")) NameError).
  reflexivity.
Defined.

Lemma map_m_profile {A B} (f : A -> outcome B) (l : list A)
    (Q : B -> Prop) (P : exn -> Prop) :
  (forall x, In x l ->
             match f x with Return y => Q y | Raise e => P e end) ->
  match map_m f l with Return ys => Forall Q ys | Raise e => P e end.
Proof.
  induction l as [|a r IH]; intros H; cbn; [constructor |].
  pose proof (H a (or_introl eq_refl)) as Ha.
  destruct (f a) as [y|e]; [| exact Ha].
  assert (Hr : match map_m f r with Return ys => Forall Q ys | Raise e => P e end).
  { apply IH. intros x Hx. apply H. now right. }
  destruct (map_m f r) as [ys|e]; [| exact Hr]. now constructor.
Qed.

Lemma fold_m_profile {A B} (f : A -> B -> outcome A) (I : A -> Prop)
    (P : exn -> Prop) (l : list B) (init : A) :
  I init ->
  (forall acc x, In x l -> I acc ->
                 match f acc x with Return acc' => I acc' | Raise e => P e end) ->
  match fold_m f l init with Return r => I r | Raise e => P e end.
Proof.
  revert init. induction l as [|a r IH]; intros init Hi H; cbn; [exact Hi |].
  pose proof (H init a (or_introl eq_refl) Hi) as Ha.
  destruct (f init a) as [acc'|e]; [| exact Ha].
  apply IH; [exact Ha |]. intros acc x Hx. apply H. now right.
Qed.


Section InferProfile.

Variable classes : class_table.
Variable repr_literal : literal -> string.
Variable repr_type : tspec -> string.

Local Abbreviation pretty := (_pretty_type classes repr_literal repr_type).
Local Abbreviation infer :=
  (_infer_type_spec_from_value classes repr_literal repr_type).
Local Abbreviation unionize := (_unionize classes repr_literal repr_type).
Local Abbreviation raised e := (e = AttributeError \/ hints_raise classes e).

Lemma simple_safe_operand (t : tspec) :
  simple t = true /\ safe_type t = true -> operand t.
Proof. intros [Hs Hsafe]. split; [exact Hsafe | now apply simple_unionable]. Qed.

Lemma infer_profile (v : pyval) : inferred_outcome classes (infer v).
Proof.
  induction v as [v IHv] using pyval_children_induction.
  assert (Hitems : forall items, (forall x, In x items -> In x (children v)) ->
             match map_m infer items with
             | Return types => Forall operand types
             | Raise e => raised e
             end).
  { intros items Hsub. apply map_m_profile. intros x Hx.
    specialize (IHv x (Hsub x Hx)). unfold inferred_outcome in IHv.
    destruct (infer x); [now apply simple_safe_operand | exact IHv]. }
  assert (Helement : forall items, (forall x, In x items -> In x (children v)) ->
             match (element_types <- map_m infer items ;;
                    unionize element_types) with
             | Return u => operand u
             | Raise e => raised e
             end).
  { intros items Hsub. specialize (Hitems items Hsub).
    destruct (map_m infer items) as [types|e]; [| exact Hitems]. cbn [bind].
    destruct (unionize_returns classes repr_literal repr_type types Hitems)
      as [u [-> Hu]]. exact Hu. }
  assert (Hcollection : forall c items,
             (forall x, In x items -> In x (children v)) ->
             inferred_outcome classes
               (element_types <- map_m infer items ;;
                element <- unionize element_types ;;
                Return (TGeneric true c [element]))).
  { intros c items Hsub. specialize (Helement items Hsub).
    destruct (map_m infer items); [| exact Helement]. cbn [bind] in *.
    destruct (unionize _) as [u|]; [| exact Helement]. cbn.
    destruct Helement as [Hs Hu]. rewrite Hs, Hu. cbn.
    now rewrite orb_true_r. }
  assert (Hdict : forall entries : list (pyval * pyval),
             (forall x, In x (map fst entries ++ map snd entries) ->
                        In x (children v)) ->
             inferred_outcome classes
               match entries with
               | _ :: _ =>
                   key_types <-
                     map_m (fun kv : pyval * pyval => let (k, _) := kv in infer k)
                           entries ;;
                   val_types <-
                     map_m (fun kv : pyval * pyval => let (_, x) := kv in infer x)
                           entries ;;
                   key <- unionize key_types ;;
                   val <- unionize val_types ;;
                   Return (TGeneric true CDict [key; val])
               | [] => Return (TGeneric true CDict [TAny; TAny])
               end).
  { intros entries Hsub. destruct entries as [|entry entries'].
    { repeat split. }
    set (entries := entry :: entries') in *.
    assert (Hk := Hitems (map fst entries)
                    (fun x Hx => Hsub x (in_or_app _ _ x (or_introl Hx)))).
    assert (Hv := Hitems (map snd entries)
                    (fun x Hx => Hsub x (in_or_app (map fst entries) _ x
                                           (or_intror Hx)))).
    rewrite (map_m_ext _ (fun kv => infer (fst kv)) entries)
      by (intros [k x]; reflexivity).
    rewrite (map_m_ext (fun kv : pyval * pyval => let (_, x) := kv in infer x)
               (fun kv => infer (snd kv)) entries)
      by (intros [k x]; reflexivity).
    rewrite (map_m_map infer fst entries), (map_m_map infer snd entries).
    destruct (map_m infer (map fst entries)) as [kts|]; [| exact Hk].
    cbn [bind].
    destruct (map_m infer (map snd entries)) as [vts|]; [| exact Hv].
    cbn [bind].
    destruct (unionize_returns classes repr_literal repr_type kts Hk)
      as [ku [-> [Hks _]]].
    destruct (unionize_returns classes repr_literal repr_type vts Hv)
      as [vu [-> [Hvs _]]].
    cbn. now rewrite Hks, Hvs. }
  assert (Htuple : forall items,
             (forall x, In x items -> In x (children v)) ->
             inferred_outcome classes
               (element_types <- map_m infer items ;;
                Return (TGeneric true CTuple element_types))).
  { intros items Hsub. specialize (Hitems items Hsub).
    destruct (map_m infer items) as [types|]; [| exact Hitems]. cbn.
    split; [reflexivity |].
    rewrite andb_true_r. apply forallb_forall. rewrite Forall_forall in Hitems.
    intros t Ht. now apply Hitems. }
  assert (Hinstance : forall key,
             type_of v = CUser key -> builtin_part v = None ->
             inferred_outcome classes (infer v)).
  { intros key Htype Hb. rewrite (infer_instance _ _ _ v key Htype Hb).
    destruct (is_dataclass classes (CUser key)) eqn:Hd; [| repeat split].
    destruct (__parameters__ classes (CUser key)) as [|p ps] eqn:Hp;
      [repeat split |].
    set (parameters := p :: ps) in *.
    destruct (get_type_hints classes (CUser key)) as [type_hints|e] eqn:Eh;
      cbn [bind].
    2:{ right. now exists (CUser key). }
    pose proof (fold_m_profile
                (fun inferred_mapping field =>
                   match lookup field type_hints with
                   | Some (TTypeVar annotated) =>
                       getattr_then v field (fun attr =>
                         t <- infer attr ;;
                         Return (dict_setdefault annotated t inferred_mapping))
                   | _ => Return inferred_mapping
                   end)
                (fun m => forall name a, lookup name m = Some a -> operand a)
                (fun e => raised e)
                (fields classes (CUser key)) []) as Hfold.
    cbv beta in Hfold.
    match type of Hfold with ?A -> ?B -> ?C =>
      assert (Hm : C); [apply Hfold |] end.
    { discriminate. }
    { intros acc field Hf Hacc.
      destruct (lookup field type_hints)
        as [[| | | | | | annotated | |]|]; try exact Hacc.
      rewrite getattr_then_getattr.
      destruct (getattr v field) as [attr|] eqn:Ea; [| now left].
      specialize (IHv attr (getattr_child v field attr Ea)).
      unfold inferred_outcome in IHv.
      destruct (infer attr) as [t|]; [| exact IHv]. cbn [bind].
      apply simple_safe_operand in IHv.
      intros name a. unfold dict_setdefault.
      destruct (lookup annotated acc) eqn:El; [apply Hacc |].
      rewrite lookup_app. destruct (lookup name acc) eqn:En.
      - intros [= <-]. now apply (Hacc name).
      - cbn. destruct (String.eqb annotated name); [| discriminate].
        now intros [= <-]. }
    clear Hfold.
    destruct (fold_m _ (fields classes (CUser key)) []) as [mapping|];
      [| exact Hm].
    cbn [bind].
    destruct (nonempty mapping && forallb (fun tv => has_entry tv mapping) parameters)
      eqn:Hcond; [| repeat split].
    apply andb_true_iff in Hcond as [_ Hall]. rewrite forallb_forall in Hall.
    destruct (map_m_returns
                (fun tv => match lookup tv mapping with
                           | Some t => Return t
                           | None => Raise KeyError
                           end) parameters (fun _ t => operand t))
      as [args [Ea HF]].
    { apply Forall_forall. intros tv Htv. specialize (Hall tv Htv).
      unfold has_entry in Hall.
      destruct (lookup tv mapping) as [t|] eqn:El; [| discriminate Hall].
      exists t. split; [reflexivity | now apply (Hm tv)]. }
    rewrite Ea. cbn [bind inferred_outcome].
    split; [reflexivity |].
    cbn [safe_type]. apply andb_true_iff.
    assert (Hops : forall a, In a args -> operand a).
    { intros a Ha. apply Forall2_flip in HF.
      destruct (Forall2_In_l _ _ _ a HF Ha) as [tv [_ H]]. exact H. }
    split; [| apply orb_true_iff; right];
      apply forallb_forall; intros a Ha; now apply Hops. }
  assert (Hleft : forall c base (attrs : list (string * pyval)) x,
             v = VSub c base attrs -> In x (items_of base) -> In x (children v)).
  { intros c base attrs x -> Hx. cbn. apply in_or_app. now left. }
  destruct v as [| b | z | m e | s | s | items | items | items | entries
                 | items | key attrs | key base attrs].
  - repeat split.
  - repeat split.
  - repeat split.
  - repeat split.
  - repeat split.
  - repeat split.
  - exact (Hcollection CList items (fun x H => H)).
  - exact (Hcollection CSet items (fun x H => H)).
  - exact (Hcollection CFrozenset items (fun x H => H)).
  - exact (Hdict entries (fun x H => H)).
  - exact (Htuple items (fun x H => H)).
  - exact (Hinstance key eq_refl eq_refl).
  - destruct base as [| b | z | m e | s | s | items | items | items | entries
                      | items | key' attrs' | key' base' attrs'];
      try exact (Hinstance key eq_refl eq_refl);
      try (repeat split; fail).
    + exact (Hcollection CList items (fun x H => Hleft _ _ _ x eq_refl H)).
    + exact (Hcollection CSet items (fun x H => Hleft _ _ _ x eq_refl H)).
    + exact (Hcollection CFrozenset items (fun x H => Hleft _ _ _ x eq_refl H)).
    + exact (Hdict entries (fun x H => Hleft _ _ _ x eq_refl H)).
    + exact (Htuple items (fun x H => Hleft _ _ _ x eq_refl H)).
Qed.

End InferProfile.

Section Outcomes.

Variable classes : class_table.
Variable repr_literal : literal -> string.
Variable repr_type : tspec -> string.

Local Abbreviation pretty := (_pretty_type classes repr_literal repr_type).
Local Abbreviation infer :=
  (_infer_type_spec_from_value classes repr_literal repr_type).

(** X12: the inferencer, on every value, either returns a class or a
    parametrized class (never a bare union, never [Any], and always a
    type that is safe: no [NewType] in it stands for [Any], and the
    members of its unions and the arguments of its user generics are
    operands of [|]) or raises [AttributeError] or what
    [typing.get_type_hints] raises for a class; the lookups
    [unique_types[0]] and [inferred_mapping[tv]] never fail and the
    operator [|] is never applied to an operand that refuses it. *)
Theorem inferencer_outcomes (v : pyval) :
  (forall t, infer v = Return t -> simple t = true /\ safe_type t = true)
  /\ (forall e, infer v = Raise e ->
                e = AttributeError \/ hints_raise classes e).
Proof.
  pose proof (infer_profile classes repr_literal repr_type v) as H.
  unfold inferred_outcome in H.
  split.
  - intros t E. now rewrite E in H.
  - intros e E. now rewrite E in H.
Qed.

(** X13: what an outcome of [validate] tells: it returns only when the
    matcher returned [True]; an exception it raises is the
    [ValidationError] built from the printed expected type and the
    printed inferred type, and then the matcher returned [False], or it
    is an [AttributeError], a [TypeError] or what
    [typing.get_type_hints] raises for a class; nothing else leaves
    [validate]. *)
Theorem validate_inversion (v : pyval) (d : tspec) :
  (validate classes repr_literal repr_type v d = Return tt
   <-> _matches classes v d = Return true)
  /\ (forall e,
         validate classes repr_literal repr_type v d = Raise e ->
         (exists t,
             _matches classes v d = Return false
             /\ infer v = Return t
             /\ e = ValidationError (pretty d) (pretty t))
         \/ e = AttributeError \/ e = TypeError \/ hints_raise classes e).
Proof.
  unfold validate.
  destruct (_matches classes v d) as [[|]|e'] eqn:Em; cbn [bind negb].
  - split; [tauto | discriminate].
  - pose proof (infer_profile classes repr_literal repr_type v) as Hi.
    unfold inferred_outcome in Hi.
    destruct (infer v) as [t|e'] eqn:Ei; cbn [bind].
    + split; [split; discriminate |].
      intros e [= <-]. left. now exists t.
    + split; [split; discriminate |].
      intros e [= <-]. right. tauto.
  - split; [split; discriminate |].
    intros e [= <-]. right. now apply (matches_from_raises classes v d false).
Qed.

End Outcomes.

(** X14: for an instance of a generic dataclass the inferencer returns
    the class parametrized, for each of its type variables in turn, with
    the type inferred from the first field that is annotated with that
    type variable; later fields annotated with the same variable are
    inferred but do not count.  When some type variable of the class
    annotates no field, or the class has no type variables, it returns
    the bare class.  The type hints are those that
    [typing.get_type_hints] returns for the class. *)
Theorem generic_dataclass_inference (classes : class_table)
    (repr_literal : literal -> string) (repr_type : tspec -> string)
    (key : string) (attrs : list (string * pyval)) (t : tspec) :
  is_dataclass classes (CUser key) = true ->
  _infer_type_spec_from_value classes repr_literal repr_type (VObj key attrs)
  = Return t ->
  let parameters := __parameters__ classes (CUser key) in
  let fields := fields classes (CUser key) in
  (t = TClass (CUser key)
   /\ (parameters = []
       \/ exists type_hints type_var,
            get_type_hints classes (CUser key) = Return type_hints
            /\ In type_var parameters
            /\ first_field_of type_hints type_var fields = None))
  \/ (exists type_hints args,
         get_type_hints classes (CUser key) = Return type_hints
         /\ t = TGeneric false (CUser key) args
         /\ parameters <> []
         /\ Forall2 (recorded_argument classes repr_literal repr_type
                       (VObj key attrs) type_hints fields)
                    parameters args).
Proof.
  intros Hd. now apply dataclass_inference_cases.
Qed.

(** [Pair(1, "a")], both fields annotated with [T], is inferred as
    [Pair[int]]. *)
Lemma generic_dataclass_inference_witness :
  sample_infer (VObj "Pair" [("first", VInt 1); ("second", VStr "a")])
  = Return (TGeneric false (CUser "Pair") [TClass CInt])
  /\ exists type_hints args,
       get_type_hints sample_classes (CUser "Pair") = Return type_hints
       /\ TGeneric false (CUser "Pair") [TClass CInt]
          = TGeneric false (CUser "Pair") args
       /\ Forall2 (recorded_argument sample_classes sample_repr_literal
                     sample_repr_type
                     (VObj "Pair" [("first", VInt 1); ("second", VStr "a")])
                     type_hints
                     (fields sample_classes (CUser "Pair")))
                  (__parameters__ sample_classes (CUser "Pair")) args.
Proof.
  split; [reflexivity |].
  destruct (generic_dataclass_inference sample_classes sample_repr_literal
              sample_repr_type "Pair"
              [("first", VInt 1); ("second", VStr "a")]
              (TGeneric false (CUser "Pair") [TClass CInt])
              eq_refl eq_refl) as [[H _] | [type_hints [args [Eh [E [_ H]]]]]].
  - discriminate H.
  - now exists type_hints, args.
Defined.

(** ** Properties that inferred types inherit from their parts *)

Section InferredClosed.

Variable Q : tspec -> Prop.
Hypothesis Qmembers : forall native l a, Q (TUnion native l) -> In a l -> Q a.
Hypothesis Qunion :
  forall native l, (forall a, In a l -> Q a) -> Q (TUnion native l).

Lemma unionize_closed (classes : class_table)
    (repr_literal : literal -> string) (repr_type : tspec -> string)
    (types : list tspec) (u : tspec) :
  Q TAny -> Forall Q types ->
  _unionize classes repr_literal repr_type types = Return u -> Q u.
Proof.
  intros Hany H. destruct types as [|t0 types].
  { now intros [= <-]. }
  rewrite (unionize_survivors classes repr_literal repr_type t0 types).
  assert (Hs : forall s,
             In s (first_seen (_pretty_type classes repr_literal repr_type)
                     (t0 :: types)) -> Q s).
  { intros s Hin. apply first_seen_from_sound in Hin as [Hin _].
    rewrite Forall_forall in H. now apply H. }
  destruct (first_seen _ (t0 :: types)) as [|first [|second rest]].
  - discriminate.
  - intros [= <-]. apply Hs. now left.
  - intros E.
    apply (fold_or_closed Q Qmembers Qunion (fun a => Return a)
             (second :: rest) first u).
    + apply Hs. now left.
    + intros a a' Ha [= <-]. apply Hs. now right.
    + exact E.
Qed.

(** The types the inferencer builds: classes, builtin containers and
    user classes parametrized with what it built, and the unions of
    [_unionize]. *)
Section Inferred.

Variable classes : class_table.
Variable repr_literal : literal -> string.
Variable repr_type : tspec -> string.

Local Abbreviation infer :=
  (_infer_type_spec_from_value classes repr_literal repr_type).
Local Abbreviation unionize := (_unionize classes repr_literal repr_type).

Hypothesis Qany : Q TAny.
Hypothesis Qclass : forall c, Q (TClass c).
Hypothesis Qcontainer :
  forall origin args,
    is_builtin_container origin = true -> Forall Q args ->
    Q (TGeneric true origin args).
Hypothesis Qgeneric :
  forall key args,
    args <> [] -> Forall Q args -> Q (TGeneric false (CUser key) args).

Lemma infer_closed (v : pyval) : forall t, infer v = Return t -> Q t.
Proof.
  induction v as [v IHv] using pyval_children_induction.
  assert (Hitems : forall items types,
             (forall x, In x items -> In x (children v)) ->
             map_m infer items = Return types -> Forall Q types).
  { intros items types Hsub E. apply map_m_results in E.
    apply Forall_forall. intros t Ht. apply Forall2_flip in E.
    destruct (Forall2_In_l _ _ _ t E Ht) as [x [Hx Hi]].
    apply (IHv x); auto. }
  assert (Helement : forall items u,
             (forall x, In x items -> In x (children v)) ->
             (element_types <- map_m infer items ;; unionize element_types)
             = Return u -> Q u).
  { intros items u Hsub E. apply bind_returns in E as [types [Em Eu]].
    apply (unionize_closed classes repr_literal repr_type types u); auto.
    now apply (Hitems items). }
  assert (Hone : forall origin items t,
             is_builtin_container origin = true ->
             (forall x, In x items -> In x (children v)) ->
             (element_types <- map_m infer items ;;
              element <- unionize element_types ;;
              Return (TGeneric true origin [element])) = Return t -> Q t).
  { intros origin items t Ho Hsub E.
    apply bind_returns in E as [types [Em E]].
    apply bind_returns in E as [u [Eu E]]. injection E as <-.
    apply Qcontainer; [exact Ho |]. constructor; [| constructor].
    apply (Helement items); [exact Hsub |]. now rewrite Em. }
  assert (Hdict : forall (entries : list (pyval * pyval)) t,
             (forall x, In x (map fst entries ++ map snd entries) ->
                        In x (children v)) ->
             match entries with
             | _ :: _ =>
                 key_types <-
                   map_m (fun kv : pyval * pyval => let (k, _) := kv in infer k)
                         entries ;;
                 val_types <-
                   map_m (fun kv : pyval * pyval => let (_, x) := kv in infer x)
                         entries ;;
                 key <- unionize key_types ;;
                 val <- unionize val_types ;;
                 Return (TGeneric true CDict [key; val])
             | [] => Return (TGeneric true CDict [TAny; TAny])
             end = Return t -> Q t).
  { intros entries t Hsub. destruct entries as [|entry entries'].
    { intros [= <-]. apply Qcontainer; [reflexivity |]. now repeat constructor. }
    set (entries := entry :: entries') in *.
    rewrite (map_m_ext _ (fun kv => infer (fst kv)) entries)
      by (intros [k x]; reflexivity).
    rewrite (map_m_ext (fun kv : pyval * pyval => let (_, x) := kv in infer x)
               (fun kv => infer (snd kv)) entries)
      by (intros [k x]; reflexivity).
    rewrite (map_m_map infer fst entries), (map_m_map infer snd entries).
    intros E. apply bind_returns in E as [kts [Ek E]].
    apply bind_returns in E as [vts [Ev E]].
    apply bind_returns in E as [ku [Eku E]].
    apply bind_returns in E as [vu [Evu E]]. injection E as <-.
    apply Qcontainer; [reflexivity |]. constructor; [| constructor; [| constructor]].
    + apply (unionize_closed classes repr_literal repr_type kts ku); auto.
      apply (Hitems (map fst entries)); [| exact Ek].
      intros x Hx. apply Hsub, in_or_app. now left.
    + apply (unionize_closed classes repr_literal repr_type vts vu); auto.
      apply (Hitems (map snd entries)); [| exact Ev].
      intros x Hx. apply Hsub, in_or_app. now right. }
  assert (Htuple : forall items t,
             (forall x, In x items -> In x (children v)) ->
             (element_types <- map_m infer items ;;
              Return (TGeneric true CTuple element_types)) = Return t -> Q t).
  { intros items t Hsub E.
    apply bind_returns in E as [types [Em E]]. injection E as <-.
    apply Qcontainer; [reflexivity |]. now apply (Hitems items). }
  assert (Hinstance : forall key t,
             type_of v = CUser key -> builtin_part v = None ->
             infer v = Return t -> Q t).
  { intros key t Htype Hb E.
    destruct (is_dataclass classes (CUser key)) eqn:Hd.
    2:{ rewrite (infer_instance _ _ _ v key Htype Hb), Hd in E.
        injection E as <-. apply Qclass. }
    destruct (dataclass_inference_cases classes repr_literal repr_type
                v key t Htype Hb Hd E)
      as [[-> _] | [type_hints [args [_ [-> [Hp HF]]]]]].
    + apply Qclass.
    + apply Qgeneric.
      * intros ->. inversion HF as [E0 |]. now apply Hp.
      * apply Forall_forall. intros a Ha. apply Forall2_flip in HF.
        destruct (Forall2_In_l _ _ _ a HF Ha)
          as [tv [_ [field [attr [_ [Hg Hi]]]]]].
        apply (IHv attr); [| exact Hi].
        now apply (getattr_child v field). }
  assert (Hleft : forall c base (attrs : list (string * pyval)) x,
             v = VSub c base attrs -> In x (items_of base) -> In x (children v)).
  { intros c base attrs x -> Hx. cbn. apply in_or_app. now left. }
  destruct v as [| b | z | m e | s | s | items | items | items | entries
                 | items | key attrs | key base attrs]; intros t;
    try (intros [= <-]; apply Qclass).
  - apply (Hone CList items); auto.
  - apply (Hone CSet items); auto.
  - apply (Hone CFrozenset items); auto.
  - apply (Hdict entries); auto.
  - apply (Htuple items); auto.
  - now apply (Hinstance key).
  - destruct base as [| b | z | m e | s | s | items | items | items | entries
                      | items | key' attrs' | key' base' attrs'];
      try (now apply (Hinstance key));
      try (intros [= <-]; apply Qclass).
    + apply (Hone CList items); [reflexivity |].
      intros x H. exact (Hleft _ _ _ x eq_refl H).
    + apply (Hone CSet items); [reflexivity |].
      intros x H. exact (Hleft _ _ _ x eq_refl H).
    + apply (Hone CFrozenset items); [reflexivity |].
      intros x H. exact (Hleft _ _ _ x eq_refl H).
    + apply (Hdict entries). intros x H. exact (Hleft _ _ _ x eq_refl H).
    + apply (Htuple items). intros x H. exact (Hleft _ _ _ x eq_refl H).
Qed.

End Inferred.

End InferredClosed.

Lemma repr_free_pretty (classes : class_table)
    (repr_literal repr_literal' : literal -> string)
    (repr_type repr_type' : tspec -> string) (t : tspec) :
  (forall args, repr_type (TUnion true args) = repr_type' (TUnion true args)) ->
  repr_free t = true ->
  _pretty_type classes repr_literal repr_type t
  = _pretty_type classes repr_literal' repr_type' t.
Proof.
  intros Hagree.
  induction t as [| c | name s IHs | native origin args IH | native args IH
                  | args | name | |] using tspec_induction;
    cbn [repr_free]; try discriminate; try reflexivity.
  - intros H. apply andb_true_iff in H as [Hn Hargs].
    rewrite forallb_forall in Hargs. rewrite Forall_forall in IH.
    assert (Hmap : map (_pretty_type classes repr_literal repr_type) args
                   = map (_pretty_type classes repr_literal' repr_type') args).
    { apply map_ext_in. intros a Ha. apply IH; auto. }
    destruct native; cbn [_pretty_type]; rewrite Hmap; [reflexivity |].
    destruct (pretty_builtin_container _ _ _ _); [reflexivity |].
    destruct args; [discriminate Hn | reflexivity].
  - intros Hargs. rewrite forallb_forall in Hargs. rewrite Forall_forall in IH.
    destruct native; cbn [_pretty_type]; [apply Hagree |].
    f_equal. apply map_ext_in. intros a Ha. apply IH; auto.
Qed.

Lemma infer_repr_free (classes : class_table)
    (repr_literal : literal -> string) (repr_type : tspec -> string)
    (v : pyval) (t : tspec) :
  _infer_type_spec_from_value classes repr_literal repr_type v = Return t ->
  repr_free t = true.
Proof.
  apply (infer_closed (fun t => repr_free t = true)).
  - intros native l a H Ha. cbn in H. rewrite forallb_forall in H. now apply H.
  - intros native l H. cbn. apply forallb_forall. exact H.
  - reflexivity.
  - reflexivity.
  - intros origin args _ H. cbn. apply forallb_forall.
    now rewrite Forall_forall in H.
  - intros key args Hne H. cbn. apply andb_true_iff. split.
    + destruct args; [now elim Hne | reflexivity].
    + apply forallb_forall. now rewrite Forall_forall in H.
Qed.

(** X15: the printed form of an inferred type, the actual title of an
    error, never comes from [repr] of a constant, and it comes from
    [repr] of a typing object for one kind of object only, a union that
    [|] built from classes and parametrized builtin classes (a
    [types.UnionType], which has no [__origin__], so that
    [_pretty_type] ends in [repr(type_spec)]): the title is the same
    for any two [repr] that agree on these unions.  For [[1, None]] it
    is [list[int | None]], with the blanks of [repr], while the union
    of a class and a parametrized user class is printed member by
    member. *)
Theorem inferred_type_printing :
  (forall classes repr_literal repr_literal' repr_type repr_type' v t,
      (forall args,
          repr_type (TUnion true args) = repr_type' (TUnion true args)) ->
      _infer_type_spec_from_value classes repr_literal repr_type v = Return t ->
      _pretty_type classes repr_literal repr_type t
      = _pretty_type classes repr_literal' repr_type' t)
  /\ sample_infer (VList [VInt 1; VNone])
     = Return (TGeneric true CList [TUnion true [TClass CInt; TClass CNoneType]])
  /\ sample_pretty
       (TGeneric true CList [TUnion true [TClass CInt; TClass CNoneType]])
     = "list[int | None]"
  /\ sample_infer (VList [VInt 1; VObj "Box" [("value", VInt 5)]])
     = Return (TGeneric true CList
                 [TUnion false [TClass CInt;
                                TGeneric false (CUser "Box") [TClass CInt]]])
  /\ sample_pretty
       (TGeneric true CList
          [TUnion false [TClass CInt;
                         TGeneric false (CUser "Box") [TClass CInt]]])
     = "list[int | Box[int]]".
Proof.
  split; [| repeat split; reflexivity].
  intros classes repr_literal repr_literal' repr_type repr_type' v t Hagree H.
  apply repr_free_pretty; [exact Hagree |].
  now apply (infer_repr_free classes repr_literal repr_type v).
Qed.

(** The title of [[1, "a"]] under another [repr] of constants and of the
    typing objects that are no such union. *)
Lemma inferred_type_printing_witness :
  sample_pretty (TGeneric true CList [TUnion true [TClass CInt; TClass CStr]])
  = _pretty_type sample_classes (fun _ => "?")
      (fun t => match t with
                | TUnion true _ => sample_repr_type t
                | _ => "?"
                end)
      (TGeneric true CList [TUnion true [TClass CInt; TClass CStr]]).
Proof.
  apply (proj1 inferred_type_printing sample_classes sample_repr_literal
           (fun _ => "?") sample_repr_type
           (fun t => match t with
                     | TUnion true _ => sample_repr_type t
                     | _ => "?"
                     end)
           (VList [VInt 1; VStr "a"])).
  - reflexivity.
  - reflexivity.
Defined.

Lemma substitute_free (mapping : list (string * tspec)) :
  (forall name a, lookup name mapping = Some a -> free_of mapping a = true) ->
  forall t t',
    flat_args t = true ->
    _substitute_type_variables t mapping = Return t' ->
    free_of mapping t' = true.
Proof.
  intros Hm.
  induction t as [| c | name s IHs | native origin args IH | native args IH
                  | args | name | |] using tspec_induction; intros t' Hflat;
    try (intros [= <-]; reflexivity).
  - cbn [_substitute_type_variables]. destruct args as [|first rest].
    { now intros [= <-]. }
    cbn [flat_args] in Hflat. apply andb_true_iff in Hflat as [Hn Hflat].
    apply negb_true_iff in Hn. rewrite Hn. rewrite forallb_forall in Hflat.
    intros E. apply bind_returns in E as [args' [Em E]]. injection E as <-.
    cbn. apply forallb_forall. intros a' Ha'.
    apply map_m_results in Em. apply Forall2_flip in Em.
    destruct (Forall2_In_l _ _ _ a' Em Ha') as [a [Ha E]].
    rewrite Forall_forall in IH. apply (IH a Ha); auto.
  - cbn [_substitute_type_variables]. destruct args as [|first rest].
    { now intros [= <-]. }
    cbn [flat_args] in Hflat. rewrite forallb_forall in Hflat.
    inversion IH as [|? ? Hfirst Hrest]; subst.
    intros E. apply bind_returns in E as [acc [Ea E]].
    apply (fold_or_closed (fun t => free_of mapping t = true)) in E; auto.
    + intros native' l a H Ha. cbn in H. rewrite forallb_forall in H. now apply H.
    + intros native' l H. cbn. apply forallb_forall. exact H.
    + apply (Hfirst acc); [| exact Ea]. apply Hflat. now left.
    + intros a a' Ha. rewrite Forall_forall in Hrest.
      apply Hrest; [exact Ha |]. apply Hflat. now right.
  - cbn [_substitute_type_variables]. destruct args; now intros [= <-].
  - cbn [_substitute_type_variables]. intros [= <-].
    destruct (lookup name mapping) as [a|] eqn:El.
    + now apply (Hm name).
    + cbn. unfold has_entry. now rewrite El.
Qed.

(** X16: substitution reaches every depth of [typing.get_args], and no
    further: when the types bound by the mapping do not themselves
    mention a bound type variable and no [Callable] with a list of
    parameters occurs in the type, no bound type variable is left in
    the result, inside parametrized classes and unions nested however
    deep.  The parameters of a [Callable] are a list inside
    [get_args], which substitution returns as it is: in
    [Callable[[T], T]] with [T] bound to [int] the result type becomes
    [int] and the parameter stays [T]. *)
Theorem substitution_is_complete :
  (forall mapping t t',
      (forall name a, lookup name mapping = Some a -> free_of mapping a = true) ->
      flat_args t = true ->
      _substitute_type_variables t mapping = Return t' ->
      free_of mapping t' = true)
  /\ _substitute_type_variables
       (TGeneric true CCallable [TTypeVar "T"; TTypeVar "T"])
       [("T", TClass CInt)]
     = Return (TGeneric true CCallable [TTypeVar "T"; TClass CInt])
  /\ _substitute_type_variables
       (TGeneric true CCallable [TEllipsis; TTypeVar "T"])
       [("T", TClass CInt)]
     = Return (TGeneric true CCallable [TEllipsis; TClass CInt]).
Proof.
  split; [| split; reflexivity].
  intros mapping t t' Hm. now apply substitute_free.
Qed.

Lemma substitution_is_complete_witness :
  free_of [("T", TClass CInt)]
    (TGeneric true CDict
       [TClass CStr;
        TGeneric true CList [TUnion true [TClass CInt; TClass CNoneType]]])
  = true.
Proof.
  apply (proj1 substitution_is_complete [("T", TClass CInt)]
           (TGeneric false CDict
              [TClass CStr;
               TGeneric true CList
                 [TUnion false [TTypeVar "T"; TClass CNoneType]]])).
  - intros name a H.
    change (lookup name [("T", TClass CInt)])
      with (if String.eqb "T" name then Some (TClass CInt) else None) in H.
    destruct (String.eqb "T" name); [| discriminate H].
    injection H as <-. reflexivity.
  - reflexivity.
  - reflexivity.
Defined.

Lemma first_seen_from_seen {A} (text : A -> string) (l : list A)
    (seen : list string) :
  Forall (fun x => contains (text x) seen = true) l ->
  first_seen_from text seen l = [].
Proof.
  induction 1 as [|x r Hx _ IH]; cbn; [reflexivity |]. now rewrite Hx.
Qed.

Section Inference.

Variable classes : class_table.
Variable repr_literal : literal -> string.
Variable repr_type : tspec -> string.

Local Abbreviation pretty := (_pretty_type classes repr_literal repr_type).
Local Abbreviation infer :=
  (_infer_type_spec_from_value classes repr_literal repr_type).
Local Abbreviation unionize := (_unionize classes repr_literal repr_type).

Lemma unionize_alike (t : tspec) (types : list tspec) :
  Forall (fun t' => pretty t' = pretty t) types ->
  unionize (t :: types) = Return t.
Proof.
  intros H. rewrite (unionize_survivors classes repr_literal repr_type).
  unfold first_seen. cbn [first_seen_from contains existsb app].
  rewrite first_seen_from_seen; [reflexivity |].
  eapply Forall_impl; [| exact H]. intros t' E. cbv beta in E.
  apply contains_spec. left. now rewrite E.
Qed.

(** X17: when the types inferred for the items of a non-empty list, set
    or frozenset all print like the type of the first item, the element
    type of the inferred container is the type of the first item: later
    items whose type prints alike add nothing, even when their type is a
    different one. *)
Theorem homogeneous_items_inference (items : list pyval) (t : tspec)
    (types : list tspec) :
  map_m infer items = Return (t :: types) ->
  Forall (fun t' => pretty t' = pretty t) types ->
  infer (VList items) = Return (TGeneric true CList [t])
  /\ infer (VSet items) = Return (TGeneric true CSet [t])
  /\ infer (VFrozenset items) = Return (TGeneric true CFrozenset [t]).
Proof.
  intros Em H. cbn [_infer_type_spec_from_value]. rewrite Em. cbn [bind].
  rewrite (unionize_alike t types H). repeat split.
Qed.

(** X18: a tuple is inferred position by position: the inferencer
    returns for it exactly the [tuple] parametrized with the types
    inferred for its items, one argument for each item in the order of
    the items, with no deduplication and no union; the empty tuple gives
    [tuple[()]]. *)
Theorem tuple_inference (items : list pyval) (t : tspec) :
  infer (VTuple items) = Return t
  <-> exists types,
        t = TGeneric true CTuple types
        /\ Forall2 (fun item type => infer item = Return type) items types.
Proof.
  cbn [_infer_type_spec_from_value]. split.
  - intros E. apply bind_returns in E as [types [Em E]]. injection E as <-.
    exists types. split; [reflexivity | now apply map_m_results].
  - intros [types [-> H]]. apply map_m_results in H. now rewrite H.
Qed.

End Inference.

Lemma homogeneous_items_inference_witness :
  sample_infer (VList [VObj "a.Config" []; VObj "b.Config" []])
  = Return (TGeneric true CList [TClass (CUser "a.Config")])
  /\ sample_infer (VSet [VObj "a.Config" []; VObj "b.Config" []])
     = Return (TGeneric true CSet [TClass (CUser "a.Config")])
  /\ sample_infer (VFrozenset [VObj "a.Config" []; VObj "b.Config" []])
     = Return (TGeneric true CFrozenset [TClass (CUser "a.Config")]).
Proof.
  apply (homogeneous_items_inference sample_classes sample_repr_literal
           sample_repr_type [VObj "a.Config" []; VObj "b.Config" []]
           (TClass (CUser "a.Config")) [TClass (CUser "b.Config")]).
  - reflexivity.
  - constructor; [reflexivity | constructor].
Defined.

(** ** Binding of type variables *)

Lemma bindings_keys {A} (ps : list (string * A)) :
  forall (d : list (string * A)) (key : string),
    has_entry key (fold_left (fun d p => dict_set (fst p) (snd p) d) ps d)
    = contains key (map fst ps) || has_entry key d.
Proof.
  induction ps as [|[k a] r IH]; intros d key; cbn [fold_left map fst snd].
  - reflexivity.
  - rewrite IH. unfold has_entry at 1. rewrite lookup_dict_set.
    unfold contains. cbn [existsb]. fold (contains key (map fst r)).
    rewrite (String.eqb_sym key k).
    destruct (String.eqb k key); cbn.
    + now rewrite orb_true_r.
    + unfold has_entry. reflexivity.
Qed.

Lemma map_fst_zip {A B} (l : list A) (l' : list B) :
  map fst (zip l l') = firstn (List.length l') l.
Proof.
  revert l'. induction l as [|x r IH]; intros [|y r']; cbn; try reflexivity.
  now rewrite <- IH.
Qed.

Lemma map_snd_zip {A B} (l : list A) (l' : list B) :
  map snd (zip l l') = firstn (List.length l) l'.
Proof.
  revert l'. induction l as [|x r IH]; intros [|y r']; cbn; try reflexivity.
  now rewrite <- IH.
Qed.

(** X19: [_bind_type_variables_for_generic] pairs the declared
    type variables with the given [parameters] by position and stops at
    the shorter of the two: the type variables that get bound are
    exactly the first [len(parameters)] declared ones, so a declared
    type variable beyond them stays unbound, and what a type variable is
    bound to is one of the first [len(declared)] parameters, so a
    parameter beyond them is bound to nothing; a class without type
    variables binds nothing. *)
Theorem bind_stops_at_the_shorter (classes : class_table) (generic_class : cls)
    (parameters : list tspec) (type_var : string) :
  (has_entry type_var
     (_bind_type_variables_for_generic classes generic_class parameters) = true
   <-> In type_var (firstn (List.length parameters)
                           (__parameters__ classes generic_class)))
  /\ (forall concrete,
         lookup type_var
           (_bind_type_variables_for_generic classes generic_class parameters)
         = Some concrete ->
         In concrete (firstn (List.length (__parameters__ classes generic_class))
                             parameters))
  /\ (__parameters__ classes generic_class = [] ->
      _bind_type_variables_for_generic classes generic_class parameters = []).
Proof.
  unfold _bind_type_variables_for_generic.
  destruct (__parameters__ classes generic_class) as [|p ps] eqn:Hp.
  { split; [| split]; try reflexivity; try discriminate.
    rewrite firstn_nil. cbn. split; [discriminate | contradiction]. }
  split; [| split]; try discriminate.
  - rewrite bindings_keys, map_fst_zip. cbn [has_entry lookup].
    rewrite orb_false_r. apply contains_spec.
  - intros concrete H. apply bindings_values in H as [H | H]; [| discriminate].
    now rewrite map_snd_zip in H.
Qed.

(** ** Substitution returns *)

(** X20: substituting into a type whose union members and whose
    arguments of user generics are operands of [|], and in which no
    [NewType] stands for [Any], with a mapping that binds operands of
    [|] of that kind, does not raise, and gives a type of that kind
    again. *)
Theorem substitution_returns (mapping : list (string * tspec)) (t : tspec) :
  (forall name a, lookup name mapping = Some a -> operand a) ->
  safe_type t = true ->
  exists t', _substitute_type_variables t mapping = Return t'
             /\ safe_type t' = true.
Proof.
  intros Hm Hs. destruct (substitute_safe mapping t Hm Hs) as [t' [E [H _]]].
  now exists t'.
Qed.

Lemma substitution_returns_witness :
  exists t',
    _substitute_type_variables
      (TUnion true [TGeneric true CList [TTypeVar "T"]; TClass CNoneType])
      [("T", TClass CInt)] = Return t'
    /\ safe_type t' = true.
Proof.
  apply (substitution_returns [("T", TClass CInt)]
           (TUnion true [TGeneric true CList [TTypeVar "T"]; TClass CNoneType])).
  - intros name a H.
    change (lookup name [("T", TClass CInt)])
      with (if String.eqb "T" name then Some (TClass CInt) else None) in H.
    destruct (String.eqb "T" name); [| discriminate H].
    injection H as <-. split; reflexivity.
  - reflexivity.
Defined.

(** ** Iteration order and validation of items *)

Lemma matches_items (classes : class_table) (native : bool) (T : tspec)
    (items : list pyval) :
  _matches classes (VList items) (TGeneric native CList [T])
  = all_m (fun item => _matches classes item T) items
  /\ _matches classes (VSet items) (TGeneric native CSet [T])
     = all_m (fun item => _matches classes item T) items
  /\ _matches classes (VFrozenset items) (TGeneric native CFrozenset [T])
     = all_m (fun item => _matches classes item T) items.
Proof. repeat split. Qed.

Lemma matches_entries (classes : class_table) (native : bool) (K T : tspec)
    (entries : list (pyval * pyval)) :
  _matches classes (VDict entries) (TGeneric native CDict [K; T])
  = all_m (fun kv : pyval * pyval =>
             let (key, val) := kv in
             match _matches classes key K with
             | Return true => _matches classes val T
             | other => other
             end) entries.
Proof. reflexivity. Qed.

(** Over items that all return, [all] is a plain conjunction. *)
Lemma all_m_forallb {A} (f : A -> outcome bool) (l : list A) :
  (forall x, In x l -> exists b, f x = Return b) ->
  all_m f l
  = Return (forallb (fun x => match f x with Return true => true | _ => false end) l).
Proof.
  induction l as [|a r IH]; intros H; cbn; [reflexivity |].
  destruct (H a (or_introl eq_refl)) as [[|] E]; rewrite E; [| reflexivity].
  apply IH. intros x Hx. apply H. now right.
Qed.

Lemma all_m_same_items {A} (f : A -> outcome bool) (l l' : list A) :
  (forall x, In x l <-> In x l') ->
  (forall x, In x l -> exists b, f x = Return b) ->
  all_m f l = all_m f l'.
Proof.
  intros Hsame Hret.
  rewrite (all_m_forallb f l) by exact Hret.
  rewrite (all_m_forallb f l')
    by (intros x Hx; apply Hret; now apply Hsame).
  f_equal. apply eq_true_iff_eq. rewrite !forallb_forall.
  split; intros H x Hx; apply H; now apply Hsame.
Qed.

Lemma validate_returns_iff (classes : class_table)
    (repr_literal : literal -> string) (repr_type : tspec -> string)
    (v : pyval) (d : tspec) :
  validate classes repr_literal repr_type v d = Return tt
  <-> _matches classes v d = Return true.
Proof.
  unfold validate.
  destruct (_matches classes v d) as [[|]|e]; cbn [bind negb].
  - tauto.
  - destruct (_infer_type_spec_from_value _ _ _ v); cbn [bind];
      split; discriminate.
  - split; discriminate.
Qed.

(** X21: the verdict on a set or a frozenset does not depend on the
    order in which its items are iterated, nor does the verdict on a
    list depend on the order of its items, provided the matcher returns
    for every item: two containers of the same kind with the same items
    get the same verdict from [set[T]], [frozenset[T]] and [list[T]]. *)
Theorem iteration_order_irrelevant (classes : class_table) (native : bool)
    (T : tspec) (items items' : list pyval) :
  (forall x, In x items <-> In x items') ->
  (forall x, In x items -> exists b, _matches classes x T = Return b) ->
  _matches classes (VSet items) (TGeneric native CSet [T])
  = _matches classes (VSet items') (TGeneric native CSet [T])
  /\ _matches classes (VFrozenset items) (TGeneric native CFrozenset [T])
     = _matches classes (VFrozenset items') (TGeneric native CFrozenset [T])
  /\ _matches classes (VList items) (TGeneric native CList [T])
     = _matches classes (VList items') (TGeneric native CList [T]).
Proof.
  intros Hsame Hret.
  destruct (matches_items classes native T items) as [-> [-> ->]].
  destruct (matches_items classes native T items') as [-> [-> ->]].
  repeat split; now apply all_m_same_items.
Qed.

Lemma iteration_order_irrelevant_witness :
  _matches sample_classes (VSet [VInt 1; VStr "a"]) (TGeneric true CSet [TClass CInt])
  = _matches sample_classes (VSet [VStr "a"; VInt 1])
      (TGeneric true CSet [TClass CInt])
  /\ _matches sample_classes (VFrozenset [VInt 1; VStr "a"])
       (TGeneric true CFrozenset [TClass CInt])
     = _matches sample_classes (VFrozenset [VStr "a"; VInt 1])
         (TGeneric true CFrozenset [TClass CInt])
  /\ _matches sample_classes (VList [VInt 1; VStr "a"])
       (TGeneric true CList [TClass CInt])
     = _matches sample_classes (VList [VStr "a"; VInt 1])
         (TGeneric true CList [TClass CInt]).
Proof.
  apply (iteration_order_irrelevant sample_classes true (TClass CInt)
           [VInt 1; VStr "a"] [VStr "a"; VInt 1]).
  - intros x. cbn. tauto.
  - intros x [<- | [<- | []]]; eexists; reflexivity.
Defined.

Section Itemwise.

Variable classes : class_table.
Variable repr_literal : literal -> string.
Variable repr_type : tspec -> string.

Local Abbreviation check := (validate classes repr_literal repr_type).

(** X22: validation of a container is validation of its items:
    [validate] returns for a list, set or frozenset against [list[T]],
    [set[T]] or [frozenset[T]] exactly when it returns for every item
    against [T], for a tuple against [tuple[T, ...]] likewise, and for a
    dictionary against [dict[K, V]] exactly when it returns for every
    key against [K] and for every value against [V]. *)
Theorem validate_itemwise (native : bool) (K T : tspec) (items : list pyval)
    (entries : list (pyval * pyval)) :
  (check (VList items) (TGeneric native CList [T]) = Return tt
   <-> Forall (fun item => check item T = Return tt) items)
  /\ (check (VSet items) (TGeneric native CSet [T]) = Return tt
      <-> Forall (fun item => check item T = Return tt) items)
  /\ (check (VFrozenset items) (TGeneric native CFrozenset [T]) = Return tt
      <-> Forall (fun item => check item T = Return tt) items)
  /\ (check (VTuple items) (TGeneric native CTuple [T; TEllipsis]) = Return tt
      <-> Forall (fun item => check item T = Return tt) items)
  /\ (check (VDict entries) (TGeneric native CDict [K; T]) = Return tt
      <-> Forall (fun kv => check (fst kv) K = Return tt
                            /\ check (snd kv) T = Return tt) entries).
Proof.
  assert (Hitems : forall items,
             all_m (fun item => _matches classes item T) items = Return true
             <-> Forall (fun item => check item T = Return tt) items).
  { intros l. rewrite all_m_true. split; intros H;
      (eapply Forall_impl; [| exact H]); intros x Hx; cbv beta in *;
      now apply (validate_returns_iff classes repr_literal repr_type x T). }
  rewrite !validate_returns_iff.
  destruct (matches_items classes native T items) as [-> [-> ->]].
  rewrite matches_variadic_tuple, matches_entries.
  repeat split; try (now apply Hitems).
  - intros H. apply all_m_true in H.
    eapply Forall_impl; [| exact H]. intros [k x] Hkx.
    cbn [fst snd]. cbv beta iota in Hkx. rewrite !validate_returns_iff.
    destruct (_matches classes k K) as [[|]|]; try discriminate. now split.
  - intros H. apply all_m_true.
    eapply Forall_impl; [| exact H]. intros [k x] [Hk Hx].
    cbn [fst snd] in Hk, Hx. rewrite validate_returns_iff in Hk, Hx.
    cbv beta iota. now rewrite Hk.
Qed.

End Itemwise.
